(** * pyquil reference simulators: a shallow embedding

    This development embeds [pyquil/reference_simulator.py] -- the validity
    checker [_is_valid_quantum_state] and the two engines
    [ReferenceWavefunctionSimulator] and [ReferenceDensitySimulator] -- and
    states the properties of its specification as theorems.

    Layout of the model:
    - Python exceptions are values of [exn]; a computation that can raise
      returns [result A]; a method of an object is a function of the object's
      state that returns the result and the state it leaves behind (also when
      it raises).
    - numpy scalars are taken through the interface [Numeric]: the arithmetic,
      comparisons and constants the source uses.  Two instances are given:
      [F64.numeric], IEEE binary64 pairs (complex128), on which the model
      runs, and [Exact.numeric], pairs of real numbers, the exact arithmetic
      in which the algebraic identities of the specification are stated.
      The theorems about control flow, errors and state hold for every
      instance.
    - numpy arrays are a shape and an entry function ([vector], [matrix]);
      every shape test numpy performs is written out.
    - What the source imports from modules outside the file (LAPACK's
      eigenvalues, numpy's [RandomState], and pyquil's own [unitary_tools] and
      [gate_matrices]) is taken through the interface [Runtime].
    - The density engine keeps references to arrays: [initial_density] and
      [density] name the same array after [__init__] and [reset].  Its state
      therefore has a heap of arrays and two locations. *)

From Stdlib Require Import PrimFloat.
From Stdlib Require Import ZArith List String Bool Lia Reals Lra Ring.
From stdpp Require Import gmap strings list.
From Stdlib Require Import Ascii.

Set Implicit Arguments.
Local Open Scope nat_scope.

(** ** Python exceptions *)

Inductive exn_class : Set :=
  | ValueError
  | NotImplementedError
  | KeyError
  | OverflowError
  | IndexError
  | AssertionError
  | LinAlgError.

(** The interface of numpy scalars.  Every array of the source is complex128
    or is promoted to it, so there is one scalar type; a Python float is a
    scalar with imaginary part zero. *)
Class Numeric (C : Type) : Type := {
  c0 : C;                         (* 0.0 *)
  c1 : C;                         (* 1.0, also complex(1.0, 0) *)
  cadd : C -> C -> C;
  csub : C -> C -> C;
  cmul : C -> C -> C;
  cdiv : C -> C -> C;
  cneg : C -> C;
  cconj : C -> C;                 (* np.conj *)
  csqrt : C -> C;                 (* np.sqrt *)
  cabs : C -> C;                  (* np.abs, abs: the modulus *)
  creal : C -> C;                 (* .real *)
  cimag : C -> C;                 (* .imag *)
  cltb : C -> C -> bool;          (* <  (numpy orders complex numbers
                                     lexicographically: real part first) *)
  cleb : C -> C -> bool;          (* <= *)
  ceqb : C -> C -> bool;          (* == *)
  cisfinite : C -> bool;          (* np.isfinite *)
  lit_1e_05 : C;                  (* the literal 1e-05 *)
  lit_1e_08 : C;                  (* the literal 1e-08 *)
  lit_1e8 : C;                    (* the literal 1e8 *)
  finfo_eps : C                   (* np.finfo(float).eps *)
}.

Section Python.
Context {C : Type}.

(** The argument of an exception: text, with [Str x] standing for the
    Python expression [str(x)] of a number [x]. *)
Inductive fragment : Type :=
  | Text (s : string)
  | Str (x : C).

Record exn : Type := Raise { exn_type : exn_class; exn_args : list fragment }.

Definition result (A : Type) : Type := (exn + A)%type.

Definition Ok {A} (a : A) : result A := inr a.
Definition Err {A} (e : exn) : result A := inl e.

Definition rbind {A B} (r : result A) (k : A -> result B) : result B :=
  match r with
  | inl e => inl e
  | inr a => k a
  end.

(** A method: it reads and updates the state [S] of its object and either
    returns or raises; the state reached is kept in both cases. *)
Definition M (S A : Type) : Type := S -> result A * S.

Definition ret {S A} (a : A) : M S A := fun s => (inr a, s).
Definition raise {S A} (e : exn) : M S A := fun s => (inl e, s).
Definition bind {S A B} (m : M S A) (k : A -> M S B) : M S B :=
  fun s => match m s with
           | (inl e, s') => (inl e, s')
           | (inr a, s') => k a s'
           end.
Definition gets {S A} (f : S -> A) : M S A := fun s => (inr (f s), s).
Definition modify {S} (f : S -> S) : M S unit := fun s => (inr tt, f s).
Definition lift {S A} (r : result A) : M S A := fun s => (r, s).

(** [for x in xs: body x] *)
Fixpoint for_each {S A} (xs : list A) (body : A -> M S unit) : M S unit :=
  match xs with
  | [] => ret tt
  | x :: xs' => bind (body x) (fun _ => for_each xs' body)
  end.
End Python.

Arguments exn : clear implicits.
Arguments result : clear implicits.
Arguments fragment : clear implicits.
Arguments M : clear implicits.

Declare Scope py_scope.
Delimit Scope py_scope with py.
Notation "'let!' x ':=' m 'in' k" := (bind m (fun x => k))
  (at level 10, x name, m at level 100, k at level 200) : py_scope.
Notation "'do!' m 'in' k" := (bind m (fun _ => k))
  (at level 10, m at level 100, k at level 200) : py_scope.
Notation "'let?' x ':=' r 'in' k" := (rbind r (fun x => k))
  (at level 10, x name, r at level 100, k at level 200) : py_scope.

(** ** numpy arrays *)

Section Numpy.
Context {C : Type} `{Numeric C}.

(** A one-dimensional array. *)
Record vector : Type := Vec { vlen : nat; vget : nat -> C }.
(** A two-dimensional array. *)
Record matrix : Type := Mat { rows : nat; cols : nat; mget : nat -> nat -> C }.

Definition shape (m : matrix) : nat * nat := (rows m, cols m).

(** Equality of arrays as numpy sees them: same shape, same entries inside
    the shape. *)
Definition vec_eq (u v : vector) : Prop :=
  vlen u = vlen v /\ forall i, i < vlen u -> vget u i = vget v i.
Definition mat_eq (a b : matrix) : Prop :=
  shape a = shape b /\
  forall i j, i < rows a -> j < cols a -> mget a i j = mget b i j.

(** Sum of [f 0 .. f (n-1)], accumulated from zero. *)
Fixpoint csum (n : nat) (f : nat -> C) : C :=
  match n with
  | O => c0
  | S k => cadd (csum k f) (f k)
  end.

Definition np_zeros1 (n : nat) : vector := Vec n (fun _ => c0).
Definition np_zeros (r c : nat) : matrix := Mat r c (fun _ _ => c0).
Definition np_zeros_like (m : matrix) : matrix := np_zeros (rows m) (cols m).
Definition np_eye (n : nat) : matrix :=
  Mat n n (fun i j => if i =? j then c1 else c0).

(** [v[i] = x] and [m[i, j] = x] (the source only writes index 0 of arrays
    of size [2 ** n], which is in range). *)
Definition vset (v : vector) (i : nat) (x : C) : vector :=
  Vec (vlen v) (fun k => if k =? i then x else vget v k).
Definition mset (m : matrix) (i j : nat) (x : C) : matrix :=
  Mat (rows m) (cols m)
      (fun k l => if (k =? i) && (l =? j) then x else mget m k l).

Definition np_conj1 (v : vector) : vector :=
  Vec (vlen v) (fun i => cconj (vget v i)).
Definition np_conj (m : matrix) : matrix :=
  Mat (rows m) (cols m) (fun i j => cconj (mget m i j)).
Definition np_transpose (m : matrix) : matrix :=
  Mat (cols m) (rows m) (fun i j => mget m j i).

Definition shapes_not_aligned : exn C :=
  Raise ValueError [Text "shapes not aligned"].
Definition cannot_broadcast : exn C :=
  Raise ValueError [Text "operands could not be broadcast together"].

(** [a @ b] and [a.dot(b)] on two matrices. *)
Definition np_matmul (a b : matrix) : result C matrix :=
  if cols a =? rows b
  then Ok (Mat (rows a) (cols b)
             (fun i j => csum (cols a) (fun k => cmul (mget a i k) (mget b k j))))
  else Err shapes_not_aligned.

(** [a @ v] and [a.dot(v)] on a matrix and a one-dimensional array. *)
Definition np_matvec (a : matrix) (v : vector) : result C vector :=
  if cols a =? vlen v
  then Ok (Vec (rows a)
             (fun i => csum (cols a) (fun k => cmul (mget a i k) (vget v k))))
  else Err shapes_not_aligned.

(** [u @ v] on two one-dimensional arrays. *)
Definition np_inner (u v : vector) : result C C :=
  if vlen u =? vlen v
  then Ok (csum (vlen u) (fun k => cmul (vget u k) (vget v k)))
  else Err shapes_not_aligned.

(** [m / s] with a scalar [s]. *)
Definition np_divide_scalar (m : matrix) (s : C) : matrix :=
  Mat (rows m) (cols m) (fun i j => cdiv (mget m i j) s).

Definition np_trace (m : matrix) : C :=
  csum (Nat.min (rows m) (cols m)) (fun i => mget m i i).

Definition np_diagonal (m : matrix) : vector :=
  Vec (Nat.min (rows m) (cols m)) (fun i => mget m i i).

(** [np.isclose(a, b, rtol, atol)] on scalars: the tolerance test on
    finite operands, equality otherwise. *)
Definition np_isclose (a b rtol atol : C) : bool :=
  if cisfinite a && cisfinite b
  then cleb (cabs (csub a b)) (cadd atol (cmul rtol (cabs b)))
  else ceqb a b.

(** numpy's broadcasting of one axis. *)
Definition broadcast_dim (m n : nat) : option nat :=
  if m =? n then Some m
  else if m =? 1 then Some n
  else if n =? 1 then Some m
  else None.
Definition bidx (dim i : nat) : nat := if dim =? 1 then 0 else i.

(** [np.allclose(a, b, rtol, atol)]: [np.isclose] on every pair of
    entries of the two operands broadcast together. *)
Definition np_allclose (a b : matrix) (rtol atol : C) : result C bool :=
  match broadcast_dim (rows a) (rows b), broadcast_dim (cols a) (cols b) with
  | Some r, Some c =>
      Ok (forallb (fun i =>
            forallb (fun j =>
              np_isclose (mget a (bidx (rows a) i) (bidx (cols a) j))
                         (mget b (bidx (rows b) i) (bidx (cols b) j))
                         rtol atol)
              (seq 0 c))
            (seq 0 r))
  | _, _ => Err cannot_broadcast
  end.

(** [a += x]: [x] is broadcast to the shape of [a]. *)
Definition np_iadd (a x : matrix) : result C matrix :=
  if ((rows x =? rows a) || (rows x =? 1)) && ((cols x =? cols a) || (cols x =? 1))
  then Ok (Mat (rows a) (cols a)
             (fun i j => cadd (mget a i j)
                              (mget x (bidx (rows x) i) (bidx (cols x) j))))
  else Err cannot_broadcast.

(** [np.abs(v) ** 2] *)
Definition abs_squared (v : vector) : vector :=
  Vec (vlen v) (fun i => cmul (cabs (vget v i)) (cabs (vget v i))).

(** [np.real_if_close(v, tol)]: the real parts when every imaginary part
    is below the tolerance, the array itself otherwise; a [tol] above one
    counts machine epsilons. *)
Definition np_real_if_close (v : vector) (tol : C) : vector :=
  let tol := if cltb c1 tol then cmul finfo_eps tol else tol in
  if forallb (fun i => cltb (cabs (cimag (vget v i))) tol) (seq 0 (vlen v))
  then Vec (vlen v) (fun i => creal (vget v i))
  else v.

Definition np_sum (v : vector) : C := csum (vlen v) (vget v).

(** [int(np.log2(rows))] for a Python int [rows >= 0].  [np.log2(0)] is
    [-inf], which [int] refuses; on the positive integers below [2 ** 46]
    (every array that fits in memory) the binary64 logarithm truncates to
    the position of the leading bit. *)
Definition int_log2 (rows : nat) : result C nat :=
  match rows with
  | O => Err (Raise OverflowError [Text "cannot convert float infinity to integer"])
  | _ => Ok (Nat.log2 rows)
  end.
End Numpy.

Arguments vector : clear implicits.
Arguments matrix : clear implicits.

(** ** What the source imports *)

(** [np.linalg.eigvals] and [numpy.random.RandomState] belong to numpy;
    [lifted_gate_matrix], [lifted_gate], [P0], [P1] and [KRAUS_OPS] belong to
    pyquil modules other than the one embedded here ([unitary_tools],
    [gate_matrices]).  The simulators are written against whatever these
    return, and so is the model. *)
Class Runtime (C : Type) `{Numeric C} : Type := {
  (* the internal state of a RandomState *)
  RandomState : Type;
  (* rs.uniform(): the draw and the state of the generator after it *)
  rs_uniform : RandomState -> C * RandomState;
  (* rs.choice(a, size, p=p): [size] indices below [a], or ValueError when
     numpy refuses [p] *)
  rs_choice : nat -> nat -> vector C -> RandomState ->
              result C (list nat) * RandomState;
  (* np.linalg.eigvals(m): LinAlgError on what LAPACK refuses *)
  np_linalg_eigvals : matrix C -> result C (list C);
  (* lifted_gate_matrix(matrix, qubit_inds, n_qubits) *)
  lifted_gate_matrix : matrix C -> list nat -> nat -> result C (matrix C);
  (* pyquil.quilbase.Gate and lifted_gate(gate, n_qubits) *)
  Gate : Type;
  lifted_gate : Gate -> nat -> result C (matrix C);
  (* pyquil.paulis.PauliTerm and PauliSum *)
  Observable : Type;
  (* the measurement projectors of gate_matrices *)
  P0 : matrix C;
  P1 : matrix C;
  (* the dictionary from channel names to Kraus-operator factories *)
  KRAUS_OPS : gmap string (C -> list (matrix C))
}.

Arguments Runtime C {_}.

(** Modelled from the spec: [unitary_tools.all_bitstrings], which is not in
    the embedded file.  Row [i] is the bit pattern of [i], most significant
    bit first, so that position 0 of a pattern is the last qubit. *)
Definition all_bitstrings (n : nat) : list (list bool) :=
  map (fun i => map (fun k => Nat.testbit i (n - 1 - k)) (seq 0 n)) (seq 0 (2 ^ n)).

Local Open Scope py_scope.

Section Checker.
Context {C : Type} `{Runtime C}.

Definition not_hermitian : exn C :=
  Raise ValueError [Text "The state matrix is not Hermitian."].
Definition not_trace_one : exn C :=
  Raise ValueError [Text "The state matrix is not trace one."].
Definition negative_eigenvalues (atol : C) : exn C :=
  Raise ValueError
    [Text "The state matrix has negative Eigenvalues of the order -";
     Str atol; Text "."].

(** [_is_valid_quantum_state(state_matrix, rtol, atol)] *)
Definition _is_valid_quantum_state (state_matrix : matrix C) (rtol atol : C)
  : result C bool :=
  let? hermitian :=
    np_allclose state_matrix (np_conj (np_transpose state_matrix)) rtol atol in
  if negb hermitian then Err not_hermitian
  else
    let trace_one := np_isclose (np_trace state_matrix) c1 rtol atol in
    if negb trace_one then Err not_trace_one
    else
      let? evals := np_linalg_eigvals state_matrix in
      let non_neg_eigs :=
        forallb (fun b : bool => b)
          (map (fun val => if cltb val (cneg atol) then false else true) evals) in
      if negb non_neg_eigs then Err (negative_eigenvalues atol)
      else Ok (hermitian && trace_one && non_neg_eigs).

Definition no_random_state : exn C :=
  Raise ValueError
    [Text "You have tried to perform a stochastic operation without setting the random state of the simulator. Might I suggest using a PyQVM object?"].

(** [possible_bitstrings[inds, :]]: the rows at the drawn indices. *)
Fixpoint take_rows (table : list (list bool)) (inds : list nat)
  : result C (list (list bool)) :=
  match inds with
  | [] => Ok []
  | i :: inds' =>
      match table !! i with
      | None => Err (Raise IndexError [Text "index out of bounds"])
      | Some row => let? rest := take_rows table inds' in Ok (row :: rest)
      end
  end.
End Checker.

(** ** The wavefunction engine *)

Module ReferenceWavefunctionSimulator.
Section Engine.
Context {C : Type} `{Runtime C}.

(** The attributes of the object.  [wf] is created in [__init__] and no
    other attribute or array refers to it. *)
Record self : Type := Self {
  n_qubits : nat;
  rs : option RandomState;
  wf : vector C
}.

Definition set_rs (g : option RandomState) (s : self) : self :=
  Self (n_qubits s) g (wf s).
Definition set_wf (v : vector C) (s : self) : self :=
  Self (n_qubits s) (rs s) v.

Definition __init__ (n_qubits : nat) (rs : option RandomState) : self :=
  Self n_qubits rs (vset (np_zeros1 (2 ^ n_qubits)) 0 c1).

Definition sample_bitstrings (n_samples : nat) : M C self (list (list bool)) :=
  let! r := gets rs in
  match r with
  | None => raise no_random_state
  | Some g =>
      let! psi := gets wf in
      let! n := gets n_qubits in
      let probabilities := abs_squared psi in
      let possible_bitstrings := all_bitstrings n in
      let drawn := rs_choice (2 ^ n) n_samples probabilities g in
      do! modify (set_rs (Some (snd drawn))) in
      let! inds := lift (fst drawn) in
      let! bitstrings := lift (take_rows possible_bitstrings inds) in
      ret (map (@rev bool) bitstrings)
  end.

Definition do_gate (gate : Gate) : M C self unit :=
  let! n := gets n_qubits in
  let! unitary := lift (lifted_gate gate n) in
  let! psi := gets wf in
  let! psi' := lift (np_matvec unitary psi) in
  modify (set_wf psi').

Definition do_gate_matrix (matrix : matrix C) (qubits : list nat) : M C self unit :=
  let! n := gets n_qubits in
  let! unitary := lift (lifted_gate_matrix matrix qubits n) in
  let! psi := gets wf in
  let! psi' := lift (np_matvec unitary psi) in
  modify (set_wf psi').

Definition do_measurement (qubit : nat) : M C self nat :=
  let! r := gets rs in
  match r with
  | None => raise no_random_state
  | Some g =>
      let! n := gets n_qubits in
      let! psi := gets wf in
      let! measure_0 := lift (lifted_gate_matrix P0 [qubit] n) in
      let! proj_psi := lift (np_matvec measure_0 psi) in
      let! prob_zero := lift (np_inner (np_conj1 proj_psi) proj_psi) in
      let draw := rs_uniform g in
      do! modify (set_rs (Some (snd draw))) in
      if cltb (fst draw) prob_zero then
        let! unitary :=
          lift (np_matmul measure_0
                  (np_divide_scalar (np_eye (2 ^ n)) (csqrt prob_zero))) in
        let! psi' := lift (np_matvec unitary psi) in
        do! modify (set_wf psi') in
        ret 0
      else
        let! measure_1 := lift (lifted_gate_matrix P1 [qubit] n) in
        let! unitary :=
          lift (np_matmul measure_1
                  (np_divide_scalar (np_eye (2 ^ n)) (csqrt (csub c1 prob_zero)))) in
        let! psi' := lift (np_matvec unitary psi) in
        do! modify (set_wf psi') in
        ret 1
  end.

(** [self.wf.fill(0); self.wf[0] = complex(1.0, 0)] *)
Definition reset : M C self unit :=
  let! psi := gets wf in
  modify (set_wf (vset (np_zeros1 (vlen psi)) 0 c1)).

Definition do_post_gate_noise (noise_type : string) (noise_prob : C)
    (qubits : list nat) : M C self unit :=
  raise (Raise NotImplementedError
           [Text "The reference wavefunction simulator cannot handle noise"]).
End Engine.
End ReferenceWavefunctionSimulator.

(** ** The density engine *)

Module ReferenceDensitySimulator.
(** A location of the heap of arrays. *)
Abbreviation loc := nat.

Section Engine.
Context {C : Type} `{Runtime C}.

(** The arrays that exist, the attributes of the object ([initial_density]
    and [density] are references), and the warnings issued so far. *)
Record self : Type := Self {
  heap : list (matrix C);
  n_qubits : nat;
  rs : option RandomState;
  initial_density : loc;
  density : loc;
  warnings : list string
}.

Definition set_heap (h : list (matrix C)) (s : self) : self :=
  Self h (n_qubits s) (rs s) (initial_density s) (density s) (warnings s).
Definition set_rs (g : option RandomState) (s : self) : self :=
  Self (heap s) (n_qubits s) g (initial_density s) (density s) (warnings s).
Definition set_initial_density (l : loc) (s : self) : self :=
  Self (heap s) (n_qubits s) (rs s) l (density s) (warnings s).
Definition set_density (l : loc) (s : self) : self :=
  Self (heap s) (n_qubits s) (rs s) (initial_density s) l (warnings s).
Definition set_warnings (w : list string) (s : self) : self :=
  Self (heap s) (n_qubits s) (rs s) (initial_density s) (density s) w.

(** The array a reference points to (a reference obtained from [alloc] or
    from a caller's array is always in the heap). *)
Definition array_at (h : list (matrix C)) (l : loc) : matrix C :=
  default (np_zeros 0 0) (h !! l).

(** A new array. *)
Definition alloc (a : matrix C) : M C self loc :=
  fun s => (Ok (length (heap s)), set_heap (heap s ++ [a]) s).
Definition deref (l : loc) : M C self (matrix C) :=
  gets (fun s => array_at (heap s) l).
(** An update of an array in place. *)
Definition store (l : loc) (a : matrix C) : M C self unit :=
  modify (fun s => set_heap (<[l := a]> (heap s)) s).
(** [warnings.warn(message)] *)
Definition warn (message : string) : M C self unit :=
  modify (fun s => set_warnings (warnings s ++ [message]) s).

(** What [__init__] and [set_initial_state(None)] both do:
    [self.initial_density = np.zeros((2 ** n, 2 ** n), dtype=np.complex128)]
    and then [self.initial_density[0, 0] = complex(1.0, 0)]. *)
Definition set_zero_projector (n : nat) : M C self unit :=
  let! l := alloc (np_zeros (2 ^ n) (2 ^ n)) in
  do! modify (set_initial_density l) in
  let! l' := gets initial_density in
  let! a := deref l' in
  store l' (mset a 0 0 c1).

(** [__init__], run in a heap [h] of arrays that exist already; it ends with
    [self.density = self.initial_density]. *)
Definition __init__ (n_qubits : nat) (rs : option RandomState)
    (h : list (matrix C)) : self :=
  snd ((do! set_zero_projector n_qubits in
        let! l := gets initial_density in
        modify (set_density l))
         (Self h n_qubits rs 0 0 [])).

Definition not_square : exn C :=
  Raise ValueError [Text "The state matrix is not square."].
Definition wrong_number_of_qubits : exn C :=
  Raise ValueError
    [Text "The state matrix is not defined on the same numbers of qubits as the QVM."].
Definition not_valid : exn C :=
  Raise ValueError
    [Text "The state matrix is not valid. It must be Hermitian, trace one, and have non-negative eigenvalues."].

(** [set_initial_state(state_matrix)]; the argument is [None] or a
    reference to the caller's array. *)
Definition set_initial_state (state_matrix : option loc) : M C self unit :=
  match state_matrix with
  | None =>
      let! n := gets n_qubits in
      set_zero_projector n
  | Some l =>
      let! m := deref l in
      let '(rows, cols) := shape m in
      if negb (rows =? cols) then raise not_square
      else
        let! n := gets n_qubits in
        let! k := lift (int_log2 rows) in
        if negb (n =? k) then raise wrong_number_of_qubits
        else
          let! valid := lift (_is_valid_quantum_state m lit_1e_05 lit_1e_08) in
          if valid then modify (set_initial_density l)
          else raise not_valid
  end.

(** The probabilities [sample_bitstrings] hands to [rs.choice]. *)
Definition probabilities_of (rho : matrix C) (tol_factor : C) : vector C :=
  let probabilities := np_real_if_close (np_diagonal rho) tol_factor in
  let probabilities :=
    Vec (vlen probabilities)
        (fun i => let p := vget probabilities i in if cltb p c0 then c0 else p) in
  let total := np_sum probabilities in
  Vec (vlen probabilities) (fun i => cdiv (vget probabilities i) total).

Definition sample_bitstrings (n_samples : nat) (tol_factor : C)
  : M C self (list (list bool)) :=
  let! r := gets rs in
  match r with
  | None => raise no_random_state
  | Some g =>
      let! d := gets density in
      let! rho := deref d in
      let probabilities := probabilities_of rho tol_factor in
      let! n := gets n_qubits in
      let possible_bitstrings := all_bitstrings n in
      let drawn := rs_choice (2 ^ n) n_samples probabilities g in
      do! modify (set_rs (Some (snd drawn))) in
      let! inds := lift (fst drawn) in
      let! bitstrings := lift (take_rows possible_bitstrings inds) in
      ret (map (@rev bool) bitstrings)
  end.

(** [self.density = unitary.dot(self.density).dot(np.conj(unitary).T)] *)
Definition conjugate_by (unitary : matrix C) : M C self unit :=
  let! d := gets density in
  let! rho := deref d in
  let! t := lift (np_matmul unitary rho) in
  let! t' := lift (np_matmul t (np_transpose (np_conj unitary))) in
  let! l := alloc t' in
  modify (set_density l).

Definition do_gate (gate : Gate) : M C self unit :=
  let! n := gets n_qubits in
  let! unitary := lift (lifted_gate gate n) in
  conjugate_by unitary.

Definition do_gate_matrix (matrix : matrix C) (qubits : list nat) : M C self unit :=
  let! n := gets n_qubits in
  let! unitary := lift (lifted_gate_matrix matrix qubits n) in
  conjugate_by unitary.

(** One branch of [do_measurement]:
    [unitary = measure @ (np.eye(2 ** n) / np.sqrt(prob))] and
    [self.density = unitary.dot(self.density).dot(np.conj(unitary.T))]. *)
Definition collapse_with (measure : matrix C) (prob : C) : M C self unit :=
  let! n := gets n_qubits in
  let! unitary :=
    lift (np_matmul measure (np_divide_scalar (np_eye (2 ^ n)) (csqrt prob))) in
  let! d := gets density in
  let! rho := deref d in
  let! t := lift (np_matmul unitary rho) in
  let! t' := lift (np_matmul t (np_conj (np_transpose unitary))) in
  let! l := alloc t' in
  modify (set_density l).

Definition do_measurement (qubit : nat) : M C self nat :=
  let! r := gets rs in
  match r with
  | None => raise no_random_state
  | Some g =>
      let! n := gets n_qubits in
      let! measure_0 := lift (lifted_gate_matrix P0 [qubit] n) in
      let! d := gets density in
      let! rho := deref d in
      let! projected := lift (np_matmul measure_0 rho) in
      let prob_zero := np_trace projected in
      let draw := rs_uniform g in
      do! modify (set_rs (Some (snd draw))) in
      if cltb (fst draw) prob_zero then
        do! collapse_with measure_0 prob_zero in
        ret 0
      else
        let! measure_1 := lift (lifted_gate_matrix P1 [qubit] n) in
        do! collapse_with measure_1 (csub c1 prob_zero) in
        ret 1
  end.

Definition expectation (operator : Observable) : M C self C :=
  raise (Raise NotImplementedError [Text "To implement"]).

Definition reset : M C self unit :=
  let! l := gets initial_density in
  modify (set_density l).

(** The body of the inner loop of [do_post_gate_noise]:
    [new_density += lifted_kraus_op.dot(self.density).dot(np.conj(lifted_kraus_op.T))] *)
Definition add_kraus_term (q : nat) (new_density : loc) (kraus_op : matrix C)
  : M C self unit :=
  let! n := gets n_qubits in
  let! lifted_kraus_op := lift (lifted_gate_matrix kraus_op [q] n) in
  let! d := gets density in
  let! rho := deref d in
  let! t := lift (np_matmul lifted_kraus_op rho) in
  let! t' := lift (np_matmul t (np_conj (np_transpose lifted_kraus_op))) in
  let! acc := deref new_density in
  let! acc' := lift (np_iadd acc t') in
  store new_density acc'.

(** The body of the outer loop of [do_post_gate_noise], for the qubit [q]. *)
Definition apply_kraus_ops (kraus_ops : list (matrix C)) (q : nat) : M C self unit :=
  let! d := gets density in
  let! rho := deref d in
  let! new_density := alloc (np_zeros_like rho) in
  do! for_each kraus_ops (add_kraus_term q new_density) in
  modify (set_density new_density).

Definition skipping (noise_type : string) : string :=
  "Skipping " +:+ noise_type +:+ " post-gate noise because noise_prob is close to 0".

Definition do_post_gate_noise (noise_type : string) (noise_prob : C)
    (qubits : list nat) : M C self unit :=
  match KRAUS_OPS !! noise_type with
  | None => raise (Raise KeyError [Text noise_type])
  | Some operators =>
      let kraus_ops := operators noise_prob in
      if np_isclose noise_prob c0 lit_1e_05 lit_1e_08 then
        warn (skipping noise_type)
      else
        for_each qubits (apply_kraus_ops kraus_ops)
  end.
End Engine.
End ReferenceDensitySimulator.

(** ** The specification's words *)

(** The definitions of this section follow the sentences of the
    specification; the theorems below compare them with the methods. *)
Section Specification.
Context {C : Type} `{Runtime C}.


(** "⟨ψ|P0|ψ⟩" for an operator [p] of the full space *)
Definition braket (p : matrix C) (psi : vector C) : C :=
  csum (vlen psi)
    (fun i => cmul (cconj (vget psi i))
                   (csum (vlen psi) (fun j => cmul (mget p i j) (vget psi j)))).
(** "applying P / sqrt(prob)" to the state *)
Definition collapse (p : matrix C) (prob : C) (psi : vector C) : vector C :=
  Vec (rows p)
    (fun i => csum (vlen psi)
                (fun j => cmul (cdiv (mget p i j) (csqrt prob)) (vget psi j))).

(** "Σ_k K_k ρ K_k†", every [K_k] lifted on the one qubit [q] *)
Definition kraus_term (k : matrix C) (rho : matrix C) : result C (matrix C) :=
  let? t := np_matmul k rho in np_matmul t (np_conj (np_transpose k)).
Fixpoint kraus_sum (n q : nat) (kraus_ops : list (matrix C))
    (rho acc : matrix C) : result C (matrix C) :=
  match kraus_ops with
  | [] => Ok acc
  | k :: ks =>
      let? lifted := lifted_gate_matrix k [q] n in
      let? term := kraus_term lifted rho in
      let? acc' := np_iadd acc term in
      kraus_sum n q ks rho acc'
  end.
Definition single_qubit_channel (n : nat) (kraus_ops : list (matrix C))
    (rho : matrix C) (q : nat) : result C (matrix C) :=
  kraus_sum n q kraus_ops rho (np_zeros_like rho).
(** "for each qubit in the given list independently and in sequence" *)
Fixpoint sequential_channels (n : nat) (kraus_ops : list (matrix C))
    (qubits : list nat) (rho : matrix C) : result C (matrix C) :=
  match qubits with
  | [] => Ok rho
  | q :: qs =>
      let? rho' := single_qubit_channel n kraus_ops rho q in
      sequential_channels n kraus_ops qs rho'
  end.


(** The class of the exception a call raised, if it raised. *)
Definition raised {A} (r : result C A) : option exn_class :=
  match r with
  | inl e => Some (exn_type e)
  | inr _ => None
  end.

(** The squared Euclidean norm of a state vector. *)
Definition norm_squared (psi : vector C) : C :=
  csum (vlen psi) (fun i => cmul (cconj (vget psi i)) (vget psi i)).
(** "unitary": [u† u] is the identity. *)
Definition unitary (u : matrix C) : Prop :=
  rows u = cols u /\
  forall i j, i < cols u -> j < cols u ->
    csum (rows u) (fun k => cmul (cconj (mget u k i)) (mget u k j))
    = if i =? j then c1 else c0.
(** A call of [do_gate] or of [do_gate_matrix], and a sequence of such calls
    on the wavefunction engine. *)
Inductive gate_call : Type :=
  | Call_do_gate (gate : Gate)
  | Call_do_gate_matrix (operator : matrix C) (qubits : list nat).
Definition lifted_operator (n : nat) (c : gate_call) : result C (matrix C) :=
  match c with
  | Call_do_gate gate => lifted_gate gate n
  | Call_do_gate_matrix operator qubits => lifted_gate_matrix operator qubits n
  end.
Definition run_call (c : gate_call) : M C ReferenceWavefunctionSimulator.self unit :=
  match c with
  | Call_do_gate gate => ReferenceWavefunctionSimulator.do_gate gate
  | Call_do_gate_matrix operator qubits =>
      ReferenceWavefunctionSimulator.do_gate_matrix operator qubits
  end.
(** The operator of the call, lifted to [n] qubits, is unitary. *)
Definition unitary_call (n : nat) (c : gate_call) : Prop :=
  exists u, lifted_operator n c = Ok u /\ shape u = (2 ^ n, 2 ^ n) /\ unitary u.

(** A projector of the full space: [p† p = p]. *)
Definition projector (p : matrix C) : Prop :=
  rows p = cols p /\
  forall i j, i < cols p -> j < cols p ->
    csum (rows p) (fun k => cmul (cconj (mget p k i)) (mget p k j)) = mget p i j.
End Specification.

(** ** binary64 arithmetic *)

(** complex128 as a pair of binary64 numbers, with the formulas numpy uses:
    the textbook product, the scaled quotient, the principal square root.
    (numpy's [hypot] and [csqrt] may differ from these in the last bit.) *)
Module F64.
Definition complex128 : Type := (float * float)%type.

Definition add (x y : complex128) : complex128 :=
  (PrimFloat.add (fst x) (fst y), PrimFloat.add (snd x) (snd y)).
Definition sub (x y : complex128) : complex128 :=
  (PrimFloat.sub (fst x) (fst y), PrimFloat.sub (snd x) (snd y)).
Definition mul (x y : complex128) : complex128 :=
  (PrimFloat.sub (PrimFloat.mul (fst x) (fst y)) (PrimFloat.mul (snd x) (snd y)),
   PrimFloat.add (PrimFloat.mul (fst x) (snd y)) (PrimFloat.mul (snd x) (fst y))).
Definition div (x y : complex128) : complex128 :=
  let '(a, b) := x in
  let '(c, d) := y in
  let ac := PrimFloat.abs c in
  let ad := PrimFloat.abs d in
  if PrimFloat.leb ad ac then
    if PrimFloat.eqb ac 0%float && PrimFloat.eqb ad 0%float
    then (PrimFloat.div a ac, PrimFloat.div b ac)
    else
      let rat := PrimFloat.div d c in
      let scl := PrimFloat.div 1%float (PrimFloat.add c (PrimFloat.mul d rat)) in
      (PrimFloat.mul (PrimFloat.add a (PrimFloat.mul b rat)) scl,
       PrimFloat.mul (PrimFloat.sub b (PrimFloat.mul a rat)) scl)
  else
    let rat := PrimFloat.div c d in
    let scl := PrimFloat.div 1%float (PrimFloat.add d (PrimFloat.mul c rat)) in
    (PrimFloat.mul (PrimFloat.add (PrimFloat.mul a rat) b) scl,
     PrimFloat.mul (PrimFloat.sub (PrimFloat.mul b rat) a) scl).
Definition neg (x : complex128) : complex128 :=
  (PrimFloat.opp (fst x), PrimFloat.opp (snd x)).
Definition conj (x : complex128) : complex128 := (fst x, PrimFloat.opp (snd x)).
Definition modulus (x : complex128) : float :=
  PrimFloat.sqrt (PrimFloat.add (PrimFloat.mul (fst x) (fst x))
                                (PrimFloat.mul (snd x) (snd x))).
Definition abs (x : complex128) : complex128 := (modulus x, 0%float).
Definition sqrt (x : complex128) : complex128 :=
  let '(a, b) := x in
  if PrimFloat.eqb a 0%float && PrimFloat.eqb b 0%float then (0%float, b)
  else
    let t := PrimFloat.sqrt
               (PrimFloat.div (PrimFloat.add (PrimFloat.abs a) (modulus x)) 2%float) in
    if PrimFloat.leb 0%float a
    then (t, PrimFloat.div b (PrimFloat.mul 2%float t))
    else (PrimFloat.div (PrimFloat.abs b) (PrimFloat.mul 2%float t),
          if PrimFloat.ltb b 0%float then PrimFloat.opp t else t).
Definition real (x : complex128) : complex128 := (fst x, 0%float).
Definition imag (x : complex128) : complex128 := (snd x, 0%float).
Definition ltb (x y : complex128) : bool :=
  PrimFloat.ltb (fst x) (fst y)
  || (PrimFloat.eqb (fst x) (fst y) && PrimFloat.ltb (snd x) (snd y)).
Definition leb (x y : complex128) : bool :=
  PrimFloat.ltb (fst x) (fst y)
  || (PrimFloat.eqb (fst x) (fst y) && PrimFloat.leb (snd x) (snd y)).
Definition eqb (x y : complex128) : bool :=
  PrimFloat.eqb (fst x) (fst y) && PrimFloat.eqb (snd x) (snd y).
Definition isfinite (x : complex128) : bool :=
  PrimFloat.is_finite (fst x) && PrimFloat.is_finite (snd x).
Definition of_float (x : float) : complex128 := (x, 0%float).

#[global] Instance numeric : Numeric complex128 := {|
  c0 := of_float 0%float;
  c1 := of_float 1%float;
  cadd := add; csub := sub; cmul := mul; cdiv := div; cneg := neg;
  cconj := conj; csqrt := sqrt; cabs := abs; creal := real; cimag := imag;
  cltb := ltb; cleb := leb; ceqb := eqb; cisfinite := isfinite;
  lit_1e_05 := of_float 0x1.4f8b588e368f1p-17%float;
  lit_1e_08 := of_float 0x1.5798ee2308c3ap-27%float;
  lit_1e8 := of_float 100000000%float;
  finfo_eps := of_float 0x1p-52%float
|}.
End F64.

(** ** Exact arithmetic *)

(** Complex numbers as pairs of real numbers: the arithmetic that binary64
    approximates.  Nothing is infinite here, and the quotient is total. *)
Module Exact.
Local Open Scope R_scope.

Definition complex : Type := (R * R)%type.

Definition add (x y : complex) : complex := (fst x + fst y, snd x + snd y).
Definition sub (x y : complex) : complex := (fst x - fst y, snd x - snd y).
Definition mul (x y : complex) : complex :=
  (fst x * fst y - snd x * snd y, fst x * snd y + snd x * fst y).
Definition neg (x : complex) : complex := (- fst x, - snd x).
Definition conj (x : complex) : complex := (fst x, - snd x).
Definition inv (y : complex) : complex :=
  (fst y * / (fst y * fst y + snd y * snd y),
   - snd y * / (fst y * fst y + snd y * snd y)).
Definition div (x y : complex) : complex := mul x (inv y).
Definition modulus (x : complex) : R := sqrt (fst x * fst x + snd x * snd x).
Definition abs (x : complex) : complex := (modulus x, 0).
Definition sqrt (x : complex) : complex :=
  (R_sqrt.sqrt ((modulus x + fst x) / 2),
   (if Rle_dec 0 (snd x) then 1 else -1) * R_sqrt.sqrt ((modulus x - fst x) / 2)).
Definition real (x : complex) : complex := (fst x, 0).
Definition imag (x : complex) : complex := (snd x, 0).
Definition ltb (x y : complex) : bool :=
  if Rlt_dec (fst x) (fst y) then true
  else if Req_dec_T (fst x) (fst y)
       then (if Rlt_dec (snd x) (snd y) then true else false)
       else false.
Definition leb (x y : complex) : bool :=
  if Rlt_dec (fst x) (fst y) then true
  else if Req_dec_T (fst x) (fst y)
       then (if Rle_dec (snd x) (snd y) then true else false)
       else false.
Definition eqb (x y : complex) : bool :=
  if Req_dec_T (fst x) (fst y)
  then (if Req_dec_T (snd x) (snd y) then true else false)
  else false.
Definition of_real (x : R) : complex := (x, 0).

#[global] Instance numeric : Numeric complex := {|
  c0 := of_real 0;
  c1 := of_real 1;
  cadd := add; csub := sub; cmul := mul; cdiv := div; cneg := neg;
  cconj := conj; csqrt := sqrt; cabs := abs; creal := real; cimag := imag;
  cltb := ltb; cleb := leb; ceqb := eqb; cisfinite := fun _ => true;
  lit_1e_05 := of_real (1 / 100000);
  lit_1e_08 := of_real (1 / 100000000);
  lit_1e8 := of_real 100000000;
  finfo_eps := of_real (/ 2 ^ 52)
|}.
End Exact.

(** ** A runtime on which the model runs *)

(** The theorems hold for every [Runtime].  To run the model on an input one
    is needed: [fixture] has the lifter and the projectors as the
    specification describes them, and stand-ins for the generator, for LAPACK
    and for the channel registry. *)
Section Fixture.
Context {C : Type} `{Numeric C}.

(** The position of a basis state in the operator's own space: the bits of
    [i] at the listed qubits, the first listed qubit most significant. *)
Definition gate_index (qubit_inds : list nat) (i : nat) : nat :=
  fold_left (fun acc q => 2 * acc + Nat.b2n (Nat.testbit i q)) qubit_inds 0.
(** [i] and [j] carry the same bits on the qubits that are not listed. *)
Definition agree_elsewhere (qubit_inds : list nat) (n i j : nat) : bool :=
  forallb (fun b => existsb (Nat.eqb b) qubit_inds
                    || Bool.eqb (Nat.testbit i b) (Nat.testbit j b))
          (seq 0 n).
Fixpoint distinct (qs : list nat) : bool :=
  match qs with
  | [] => true
  | q :: qs' => negb (existsb (Nat.eqb q) qs') && distinct qs'
  end.

(** Modelled from the spec: [unitary_tools.lifted_gate_matrix], which is
    not in the embedded file.  The operator acts as [operator] on the listed
    qubits (qubit 0 is the least significant bit of a basis index) and as
    the identity on the others; a matrix whose dimension is not
    [2 ** len(qubit_inds)] is refused. *)
Definition lift_operator (operator : matrix C) (qubit_inds : list nat) (n_qubits : nat)
  : result C (matrix C) :=
  if (rows operator =? 2 ^ length qubit_inds) && (cols operator =? 2 ^ length qubit_inds)
     && forallb (fun q => q <? n_qubits) qubit_inds && distinct qubit_inds
  then Ok (Mat (2 ^ n_qubits) (2 ^ n_qubits)
             (fun i j => if agree_elsewhere qubit_inds n_qubits i j
                         then mget operator (gate_index qubit_inds i)
                                            (gate_index qubit_inds j)
                         else c0))
  else Err (Raise AssertionError [Text "Matrix must be 2^n by 2^n"]).

(** A stand-in for [RandomState]: a generator that replays a tape of uniform
    draws; [choice] inverts the cumulative distribution, as numpy does. *)
Definition tape_uniform (tape : list C) : C * list C := (hd c0 tape, tl tape).
Definition tape_choice (a size : nat) (p : vector C) (tape : list C)
  : result C (list nat) * list C :=
  if vlen p =? a
  then (Ok (map (fun u =>
              length (filter (fun i => cleb (csum (S i) (vget p)) u) (seq 0 a)))
            (take size (tape ++ repeat c0 size))),
        drop size tape)
  else (Err (Raise ValueError [Text "'a' and 'p' must have same size"]), tape).

(** A stand-in for [np.linalg.eigvals]: the eigenvalues of a triangular
    matrix are its diagonal entries, and the fixture is only run on such
    matrices. *)
Definition eigvals_triangular (m : matrix C) : result C (list C) :=
  if rows m =? cols m
  then Ok (map (fun i => mget m i i) (seq 0 (rows m)))
  else Err (Raise LinAlgError [Text "Last 2 dimensions of the array must be square"]).

Definition of_rows (rs : list (list C)) : matrix C :=
  Mat (length rs) (length (hd [] rs)) (fun i j => nth j (nth i rs []) c0).
Definition of_list (xs : list C) : vector C :=
  Vec (length xs) (fun i => nth i xs c0).
Definition scale (x : C) (m : matrix C) : matrix C :=
  Mat (rows m) (cols m) (fun i j => cmul x (mget m i j)).

(** Modelled from the spec: the constants [P0] and [P1] of [gate_matrices],
    which is not in the embedded file: the projectors onto the zero and the
    one subspace of one qubit. *)
Definition fixture_P0 : matrix C := of_rows [[c1; c0]; [c0; c0]].
Definition fixture_P1 : matrix C := of_rows [[c0; c0]; [c0; c1]].

Definition fixture_I : matrix C := of_rows [[c1; c0]; [c0; c1]].
Definition fixture_X : matrix C := of_rows [[c0; c1]; [c1; c0]].
Definition fixture_Z : matrix C := of_rows [[c1; c0]; [c0; cneg c1]].

(** Stand-ins for two entries of [KRAUS_OPS]: a bit flip and a phase flip
    with probability [p], each with two Kraus operators on one qubit. *)
Definition bit_flip_operators (p : C) : list (matrix C) :=
  [scale (csqrt (csub c1 p)) fixture_I; scale (csqrt p) fixture_X].
Definition phase_flip_operators (p : C) : list (matrix C) :=
  [scale (csqrt (csub c1 p)) fixture_I; scale (csqrt p) fixture_Z].

#[global] Instance fixture : Runtime C := {|
  RandomState := list C;
  rs_uniform := tape_uniform;
  rs_choice := tape_choice;
  np_linalg_eigvals := eigvals_triangular;
  lifted_gate_matrix := lift_operator;
  Gate := (matrix C * list nat)%type;
  lifted_gate := fun g n => lift_operator (fst g) (snd g) n;
  Observable := unit;
  P0 := fixture_P0;
  P1 := fixture_P1;
  KRAUS_OPS := {[ "bit_flip"%string := bit_flip_operators;
                  "phase_flip"%string := phase_flip_operators ]}
|}.
End Fixture.

(** ** Inputs on which the model is run *)

Module Inputs.
Import ReferenceDensitySimulator.

Definition f (x : float) : F64.complex128 := F64.of_float x.

(** [[1, 0], [1, 0]]: not Hermitian. *)
Definition lopsided : matrix F64.complex128 :=
  of_rows [[f 1; f 0]; [f 1; f 0]].
(** A 3 x 3 matrix that is Hermitian, of trace one, with eigenvalues
    1, 0, 0: a state of a three-level system, not of qubits. *)
Definition qutrit : matrix F64.complex128 :=
  of_rows [[f 1; f 0; f 0]; [f 0; f 0; f 0]; [f 0; f 0; f 0]].

(** A one-qubit density engine built while the caller holds [a]: the
    caller's array is at location 0, the engine's at location 1. *)
Definition engine_with (a : matrix F64.complex128)
  : self (C := F64.complex128) (H0 := fixture) :=
  __init__ (H0 := fixture) 1 (Some [f 0.25; f 0.75]) [a].

(** A one-qubit wavefunction engine. *)
Definition wavefunction_engine
  : ReferenceWavefunctionSimulator.self (C := F64.complex128) (H0 := fixture) :=
  ReferenceWavefunctionSimulator.__init__ (H0 := fixture) 1 (Some [f 0.25; f 0.75]).

Definition r (x : R) : Exact.complex := Exact.of_real x.

(** In exact arithmetic: one qubit in the state (3/5, 4/5), and a generator
    whose next draw is 1/4. *)
Definition exact_engine
  : ReferenceWavefunctionSimulator.self (C := Exact.complex) (H0 := fixture) :=
ReferenceWavefunctionSimulator.Self (H0 := fixture) 1
  (Some [r (1 / 4)]) (of_list [r (3 / 5); r (4 / 5)]).

(** [P0] lifted on qubit 0 of one qubit. *)
Definition lifted_P0 : matrix Exact.complex :=
Mat 2 2 (fun i j => if agree_elsewhere [0] 1 i j
                    then mget fixture_P0 (gate_index [0] i) (gate_index [0] j)
                    else c0).
End Inputs.

(** ** Sequences of calls *)

(** A caller runs methods one after another and may catch what they raise:
    the state a call leaves behind, whether it returned or raised, is the
    state the next call starts from. *)
Section CallSequences.
Context {C : Type} `{Runtime C}.

(** The methods of the density engine other than [set_initial_state]. *)
Inductive density_call : Type :=
  | Density_sample_bitstrings (n_samples : nat) (tol_factor : C)
  | Density_do_gate (gate : Gate)
  | Density_do_gate_matrix (operator : matrix C) (qubits : list nat)
  | Density_do_measurement (qubit : nat)
  | Density_expectation (operator : Observable)
  | Density_reset
  | Density_do_post_gate_noise (noise_type : string) (noise_prob : C)
      (qubits : list nat).

Definition density_state_after (c : density_call)
    (s : ReferenceDensitySimulator.self) : ReferenceDensitySimulator.self :=
  match c with
  | Density_sample_bitstrings n_samples tol_factor =>
      snd (ReferenceDensitySimulator.sample_bitstrings n_samples tol_factor s)
  | Density_do_gate gate => snd (ReferenceDensitySimulator.do_gate gate s)
  | Density_do_gate_matrix operator qubits =>
      snd (ReferenceDensitySimulator.do_gate_matrix operator qubits s)
  | Density_do_measurement qubit =>
      snd (ReferenceDensitySimulator.do_measurement qubit s)
  | Density_expectation operator =>
      snd (ReferenceDensitySimulator.expectation operator s)
  | Density_reset => snd (ReferenceDensitySimulator.reset s)
  | Density_do_post_gate_noise noise_type noise_prob qubits =>
      snd (ReferenceDensitySimulator.do_post_gate_noise noise_type noise_prob qubits s)
  end.

Definition density_calls (calls : list density_call)
    (s : ReferenceDensitySimulator.self) : ReferenceDensitySimulator.self :=
  fold_left (fun s c => density_state_after c s) calls s.

(** The arrays of [h0] are still there, unchanged; the number of qubits and
    the reference [initial_density] are [n0] and [i0]. *)
Definition keeps_arrays (h0 : list (matrix C)) (n0 : nat)
    (i0 : ReferenceDensitySimulator.loc) (s : ReferenceDensitySimulator.self) : Prop :=
  ReferenceDensitySimulator.n_qubits s = n0
  /\ ReferenceDensitySimulator.initial_density s = i0
  /\ exists added, ReferenceDensitySimulator.heap s = h0 ++ added.

(** The methods of the wavefunction engine that touch its state. *)
Inductive wavefunction_call : Type :=
  | Wavefunction_sample_bitstrings (n_samples : nat)
  | Wavefunction_do_gate (gate : Gate)
  | Wavefunction_do_gate_matrix (operator : matrix C) (qubits : list nat)
  | Wavefunction_do_measurement (qubit : nat)
  | Wavefunction_reset
  | Wavefunction_do_post_gate_noise (noise_type : string) (noise_prob : C)
      (qubits : list nat).

Definition wavefunction_state_after (c : wavefunction_call)
    (s : ReferenceWavefunctionSimulator.self) : ReferenceWavefunctionSimulator.self :=
  match c with
  | Wavefunction_sample_bitstrings n_samples =>
      snd (ReferenceWavefunctionSimulator.sample_bitstrings n_samples s)
  | Wavefunction_do_gate gate => snd (ReferenceWavefunctionSimulator.do_gate gate s)
  | Wavefunction_do_gate_matrix operator qubits =>
      snd (ReferenceWavefunctionSimulator.do_gate_matrix operator qubits s)
  | Wavefunction_do_measurement qubit =>
      snd (ReferenceWavefunctionSimulator.do_measurement qubit s)
  | Wavefunction_reset => snd (ReferenceWavefunctionSimulator.reset s)
  | Wavefunction_do_post_gate_noise noise_type noise_prob qubits =>
      snd (ReferenceWavefunctionSimulator.do_post_gate_noise
             noise_type noise_prob qubits s)
  end.

Definition wavefunction_calls (calls : list wavefunction_call)
    (s : ReferenceWavefunctionSimulator.self) : ReferenceWavefunctionSimulator.self :=
  fold_left (fun s c => wavefunction_state_after c s) calls s.

(** What the engines expect of [lifted_gate_matrix] and [lifted_gate]: an
    operator of the full space of [n] qubits. *)
Definition lifters_give_full_operators : Prop :=
  (forall operator qubits n u,
      lifted_gate_matrix operator qubits n = Ok u -> shape u = (2 ^ n, 2 ^ n))
  /\ (forall gate n u, lifted_gate gate n = Ok u -> shape u = (2 ^ n, 2 ^ n)).

(** The state vector has one amplitude for each basis state of [n0] qubits. *)
Definition well_sized (n0 : nat) (s : ReferenceWavefunctionSimulator.self) : Prop :=
  ReferenceWavefunctionSimulator.n_qubits s = n0
  /\ vlen (ReferenceWavefunctionSimulator.wf s) = 2 ^ n0.

(** A method keeps a property of the state, whether it returns or raises. *)
Definition preserves {S A : Type} (I : S -> Prop) (m : M C S A) : Prop :=
  forall s, I s -> I (snd (m s)).
End CallSequences.

(** ** The wavefunction engine: [expectation] *)

Module Expectation.
Section Engine.
Context {C : Type} `{Runtime C}.

(** Modelled from the spec: [PauliTerm] and [PauliSum] of [pyquil.paulis],
    which is not in the embedded file.  A term is a mapping from qubit index
    to the name of a Pauli operator, with a complex coefficient; the source
    reads the mapping through [term._ops.items()], an ordered dictionary,
    kept here as the list of its items in order, and the coefficient through
    [term.coefficient].  A sum is iterated term by term. *)
Record PauliTerm : Type := {
  _ops : list (nat * string);
  coefficient : C
}.
(** [Union[PauliTerm, PauliSum]] *)
Inductive pauli_operator : Type :=
  | Pauli_term (term : PauliTerm)
  | Pauli_sum (terms : list PauliTerm).

(** [QUANTUM_GATES] of [gate_matrices]: the dictionary from gate names to
    matrices, which is not in the embedded file. *)
Variable QUANTUM_GATES : gmap string (matrix C).

(** The loop of [_term_expectation]: for each item [(qubit_i, op_str)] in
    order, [op_mat = QUANTUM_GATES[op_str]], then
    [op_mat = lifted_gate_matrix(matrix=op_mat, qubit_inds=[qubit_i], n_qubits=n_qubits)]
    and [wf2 = op_mat @ wf2]. *)
Fixpoint apply_ops (items : list (nat * string)) (n_qubits : nat) (wf2 : vector C)
  : result C (vector C) :=
  match items with
  | [] => Ok wf2
  | (qubit_i, op_str) :: items' =>
      match QUANTUM_GATES !! op_str with
      | None => Err (Raise KeyError [Text op_str])
      | Some op_mat =>
          let? op_mat := lifted_gate_matrix op_mat [qubit_i] n_qubits in
          let? wf2 := np_matvec op_mat wf2 in
          apply_ops items' n_qubits wf2
      end
  end.

(** [_term_expectation(wf, term, n_qubits)]; it ends with
    [term.coefficient * (wf.conj().T @ wf2)]. *)
Definition _term_expectation (wf : vector C) (term : PauliTerm) (n_qubits : nat)
  : result C C :=
  let? wf2 := apply_ops (_ops term) n_qubits wf in
  let? overlap := np_inner (np_conj1 wf) wf2 in
  Ok (cmul (coefficient term) overlap).

(** [sum(_term_expectation(wf, term, n_qubits) for term in terms)]: the
    values are computed and added one by one, to a total that starts as the
    integer 0. *)
Fixpoint sum_of_terms (wf : vector C) (n_qubits : nat) (terms : list PauliTerm)
    (total : C) : result C C :=
  match terms with
  | [] => Ok total
  | term :: terms' =>
      let? value := _term_expectation wf term n_qubits in
      sum_of_terms wf n_qubits terms' (cadd total value)
  end.

(** [ReferenceWavefunctionSimulator.expectation(operator)]; a term that is
    not a sum is first wrapped as [PauliSum([operator])]. *)
Definition expectation (operator : pauli_operator)
  : M C ReferenceWavefunctionSimulator.self C :=
  let operator :=
    match operator with
    | Pauli_term term => [term]
    | Pauli_sum terms => terms
    end in
  let! psi := gets ReferenceWavefunctionSimulator.wf in
  let! n := gets ReferenceWavefunctionSimulator.n_qubits in
  lift (sum_of_terms psi n operator c0).
End Engine.

Arguments PauliTerm : clear implicits.
Arguments pauli_operator : clear implicits.
End Expectation.

Section PureStates.
Context {C : Type} `{Numeric C}.

(** "|ψ⟩⟨ψ|": the density matrix of the pure state [psi]. *)
Definition outer (psi : vector C) : matrix C :=
  Mat (vlen psi) (vlen psi) (fun i j => cmul (vget psi i) (cconj (vget psi j))).



(** "Hermitian", exactly. *)
Definition hermitian (m : matrix C) : Prop :=
  rows m = cols m /\
  forall i j, i < rows m -> j < rows m -> mget m i j = cconj (mget m j i).
End PureStates.

Section Conjugation.
Context {C : Type} `{Runtime C}.

(** "U ρ U†", entry by entry, for [u] of shape [(r, c)] and [rho] of shape
    [(c, c)]. *)
Definition sandwich (u rho : matrix C) : matrix C :=
  Mat (rows u) (rows u)
      (fun i j =>
         csum (cols rho)
           (fun k => cmul (csum (cols u) (fun l => cmul (mget u i l) (mget rho l k)))
                          (cconj (mget u j k)))).

(** A call of [do_gate] or of [do_gate_matrix] on the density engine. *)
Definition run_density_call (c : gate_call) : M C ReferenceDensitySimulator.self unit :=
  match c with
  | Call_do_gate gate => ReferenceDensitySimulator.do_gate gate
  | Call_do_gate_matrix operator qubits =>
      ReferenceDensitySimulator.do_gate_matrix operator qubits
  end.

(** The two engines hold the same pure state: the same number of qubits,
    the same generator, and the density matrix is [|ψ⟩⟨ψ|] for the state
    vector [ψ]. *)
Definition same_pure_state (w : ReferenceWavefunctionSimulator.self)
    (d : ReferenceDensitySimulator.self) : Prop :=
  ReferenceWavefunctionSimulator.n_qubits w = ReferenceDensitySimulator.n_qubits d
  /\ ReferenceWavefunctionSimulator.rs w = ReferenceDensitySimulator.rs d
  /\ mat_eq (ReferenceDensitySimulator.array_at
               (ReferenceDensitySimulator.heap d)
               (ReferenceDensitySimulator.density d))
            (outer (ReferenceWavefunctionSimulator.wf w)).
End Conjugation.

Section Bits.
Context {C : Type}.

(** The row of [sample_bitstrings] for the basis state [i] of [n] qubits:
    position [q] holds bit [q] of [i]. *)
Definition bits_of (n i : nat) : list bool := map (Nat.testbit i) (seq 0 n).

(** What both [sample_bitstrings] return from the indices [rs.choice] drew:
    a row for each index, and IndexError for an index that is not a basis
    state. *)
Definition rows_of (n : nat) (inds : list nat) : result C (list (list bool)) :=
  if forallb (fun i => i <? 2 ^ n) inds
  then Ok (map (bits_of n) inds)
  else Err (Raise IndexError [Text "index out of bounds"]).
End Bits.

Section LiftedChannels.
Context {C : Type} `{Runtime C}.

End LiftedChannels.

Section MeasurementOperators.
Context {C : Type} `{Numeric C}.

(** Two operators of the full space that add up to the identity, as the
    lifted [P0] and [P1] do. *)
Definition complementary (N : nat) (m0 m1 : matrix C) : Prop :=
  forall i j, i < N -> j < N ->
    cadd (mget m0 i j) (mget m1 i j) = if i =? j then c1 else c0.
End MeasurementOperators.

(** What [rs.uniform()] returns: a real number in the interval [0, 1). *)
Definition in_unit_interval (u : Exact.complex) : Prop :=
  (snd u = 0 /\ 0 <= fst u < 1)%R.

(** ** More inputs on which the model is run *)

Module Examples.
Import Inputs.

(** Engines without a generator. *)
Definition silent_wavefunction_engine
  : ReferenceWavefunctionSimulator.self (C := F64.complex128) (H0 := fixture) :=
  ReferenceWavefunctionSimulator.__init__ (H0 := fixture) 1 None.
Definition silent_density_engine
  : ReferenceDensitySimulator.self (C := F64.complex128) (H0 := fixture) :=
  ReferenceDensitySimulator.__init__ (H0 := fixture) 1 None [].

(** A stand-in for [QUANTUM_GATES] with the entries X and Z, and a term
    that names an operator it does not have. *)
Definition gates : gmap string (matrix F64.complex128) :=
  {[ "X"%string := fixture_X; "Z"%string := fixture_Z ]}.
Definition term_with_unknown_operator : Expectation.PauliTerm F64.complex128 :=
  {| Expectation._ops := [(0, "X"%string); (0, "Q"%string)];
     Expectation.coefficient := f 1 |}.

(** Calls on a one-qubit wavefunction engine: X, a measurement, noise (which
    raises), a reset, X again. *)
Definition some_calls
  : list (wavefunction_call (C := F64.complex128) (H0 := fixture)) :=
  [Wavefunction_do_gate_matrix fixture_X [0];
   Wavefunction_do_measurement 0;
   Wavefunction_do_post_gate_noise "bit_flip" (f 0.5) [0];
   Wavefunction_reset;
   Wavefunction_do_gate_matrix fixture_X [0]].

(** In exact arithmetic: a one-qubit wavefunction engine and a one-qubit
    density engine as [__init__] builds them, with a generator whose next
    draw is 1/4. *)
Definition exact_wavefunction
  : ReferenceWavefunctionSimulator.self (C := Exact.complex) (H0 := fixture) :=
  ReferenceWavefunctionSimulator.__init__ (H0 := fixture) 1 (Some [r (1 / 4)]).
Definition exact_density
  : ReferenceDensitySimulator.self (C := Exact.complex) (H0 := fixture) :=
  ReferenceDensitySimulator.__init__ (H0 := fixture) 1 (Some [r (1 / 4)]) [].

(** The gate X on qubit 0. *)
Definition x_call : gate_call (C := Exact.complex) (H0 := fixture) :=
  Call_do_gate_matrix fixture_X [0].

(** An operator of one qubit lifted on qubit 0 of one qubit, as the fixture
    lifts it. *)
Definition lifted_on_0 (operator : matrix Exact.complex) : matrix Exact.complex :=
Mat 2 2 (fun i j => if agree_elsewhere [0] 1 i j
                    then mget operator (gate_index [0] i) (gate_index [0] j)
                    else c0).
Definition lifted_P1 : matrix Exact.complex := lifted_on_0 fixture_P1.

(** No gates at all, for a term without operators. *)
Definition no_gates : gmap string (matrix Exact.complex) := ∅.
End Examples.

(** ** Names of quantum computers *)

(** [_parse_name] and [_canonicalize_name] of
    [pyquil/api/_quantum_computer.py], the first step of [get_qc], and
    [_next_power_of_2] of the same file.  Names are strings of characters;
    the Python integers of [_next_power_of_2] are the integers. *)
Module QuantumComputer.
Section Names.
Context {C : Type}.

(** [name.split('-')]: the parts between the dashes, at least one. *)
Fixpoint split (name : string) : list string :=
  match name with
  | EmptyString => [EmptyString]
  | String c rest =>
      if Ascii.eqb c "-"%char
      then EmptyString :: split rest
      else match split rest with
           | part :: parts => String c part :: parts
           | [] => [String c EmptyString]
           end
  end.

(** ['-'.join(parts)] *)
Definition join (parts : list string) : string := String.concat "-" parts.

(** [part in ['qvm', 'pyqvm']] *)
Definition is_qvm_type (part : string) : bool :=
  String.eqb part "qvm" || String.eqb part "pyqvm".

(** [flag is not None and (not flag)] *)
Definition is_false (flag : option bool) : bool :=
  match flag with
  | Some false => true
  | _ => false
  end.

Definition noisy_qvm_but_as_qvm_false : exn C :=
  Raise ValueError
    [Text "The provided qc name indicates you are getting a noisy QVM, but you have specified `as_qvm=False`"].
Definition noisy_qvm_but_noisy_false : exn C :=
  Raise ValueError
    [Text "The provided qc name indicates you are getting a noisy QVM, but you have specified `noisy=False`"].
Definition qvm_but_as_qvm_false : exn C :=
  Raise ValueError
    [Text "The provided qc name indicates you are getting a QVM, but you have specified `as_qvm=False`"].

(** [_parse_name(name, as_qvm, noisy)]; [parts[-1]] is the last part,
    [parts[-2]] the one before it, [parts[:-1]] and [parts[:-2]] the parts
    without the last one and the last two. *)
Definition _parse_name (name : string) (as_qvm noisy : option bool)
  : result C (string * option string * bool) :=
  let parts := split name in
  if (2 <=? length parts)
     && String.eqb (List.last (List.removelast parts) "") "noisy"
     && is_qvm_type (List.last parts "")
  then
    if is_false as_qvm then Err noisy_qvm_but_as_qvm_false
    else if is_false noisy then Err noisy_qvm_but_noisy_false
    else
      let qvm_type := List.last parts "" in
      let noisy := true in
      let prefix := join (List.removelast (List.removelast parts)) in
      Ok (prefix, Some qvm_type, noisy)
  else if (1 <=? length parts) && is_qvm_type (List.last parts "")
  then
    if is_false as_qvm then Err qvm_but_as_qvm_false
    else
      let qvm_type := List.last parts "" in
      let noisy := default false noisy in
      let prefix := join (List.removelast parts) in
      Ok (prefix, Some qvm_type, noisy)
  else
    let qvm_type :=
      match as_qvm with
      | Some true => Some "qvm"%string
      | _ => None
      end in
    let noisy := default false noisy in
    Ok (name, qvm_type, noisy).

(** [_canonicalize_name(prefix, qvm_type, noisy)] *)
Definition _canonicalize_name (prefix : string) (qvm_type : option string)
    (noisy : bool) : result C string :=
  let noise_suffix := if noisy then "-noisy"%string else ""%string in
  let? qvm_suffix :=
    match qvm_type with
    | None => Ok ""%string
    | Some t =>
        if String.eqb t "qvm" then Ok "-qvm"%string
        else if String.eqb t "pyqvm" then Ok "-pyqvm"%string
        else Err (Raise ValueError [Text ("Unknown qvm_type " +:+ t)])
    end in
  Ok (prefix +:+ noise_suffix +:+ qvm_suffix).

(** The first step of [get_qc]:
    [prefix, qvm_type, noisy = _parse_name(name, as_qvm, noisy)] and
    [name = _canonicalize_name(prefix, qvm_type, noisy)]. *)
Definition canonical_name (name : string) (as_qvm noisy : option bool)
  : result C string :=
  let? parsed := _parse_name name as_qvm noisy in
  let '(prefix, qvm_type, noisy) := parsed in
  _canonicalize_name prefix qvm_type noisy.

(** The names that consist of a QVM suffix alone. *)
Definition names_without_prefix : list string :=
  ["qvm"; "pyqvm"; "noisy-qvm"; "noisy-pyqvm"]%string.
End Names.

(** [n.bit_length()]: the number of bits of the absolute value. *)
Definition bit_length (n : Z) : Z :=
  if (n =? 0)%Z then 0%Z else (Z.log2 (Z.abs n) + 1)%Z.

(** [_next_power_of_2(x)], that is [1 if x == 0 else 2 ** (x - 1).bit_length()] *)
Definition _next_power_of_2 (x : Z) : Z :=
  if (x =? 0)%Z then 1%Z else (2 ^ bit_length (x - 1))%Z.
End QuantumComputer.

(** * Properties *)

Unset Implicit Arguments.

Ltac run :=
  unfold bind, gets, modify, lift, ret, raise, Ok, Err in *; simpl in *.

(** ** Unsupported operations *)

Section Unsupported.
Context {C : Type} `{Runtime C}.

(** C3, as amended: noise on the wavefunction engine and [expectation] on
    the density engine both fail, whatever the arguments and the state,
    with an exception of the one class NotImplementedError; the two
    failures differ in their message only, and neither changes the state. *)
Theorem unsupported_operations_raise_NotImplementedError
    (noise_type : string) (noise_prob : C) (qubits : list nat)
    (w : ReferenceWavefunctionSimulator.self)
    (operator : Observable) (d : ReferenceDensitySimulator.self) :
  ReferenceWavefunctionSimulator.do_post_gate_noise noise_type noise_prob qubits w
    = (Err (Raise NotImplementedError
              [Text "The reference wavefunction simulator cannot handle noise"]), w)
  /\ ReferenceDensitySimulator.expectation operator d
    = (Err (Raise NotImplementedError [Text "To implement"]), d)
  /\ raised (fst (ReferenceWavefunctionSimulator.do_post_gate_noise
                    noise_type noise_prob qubits w))
     = raised (fst (ReferenceDensitySimulator.expectation operator d)).
Proof. repeat split. Qed.
End Unsupported.

(** C3, as stated, fails: on a one-qubit wavefunction engine and a one-qubit
    density engine the two failures are of the same kind, the class
    NotImplementedError. *)
Lemma unsupported_operations_same_kind :
  raised (fst (ReferenceWavefunctionSimulator.do_post_gate_noise
                 "bit_flip" (Inputs.f 0.5) [0] Inputs.wavefunction_engine))
  = Some NotImplementedError
  /\ raised (fst (ReferenceDensitySimulator.expectation
                    (tt : Observable (Runtime := fixture))
                    (Inputs.engine_with Inputs.lopsided)))
     = Some NotImplementedError
  /\ ~ (raised (fst (ReferenceWavefunctionSimulator.do_post_gate_noise
                       "bit_flip" (Inputs.f 0.5) [0] Inputs.wavefunction_engine))
        <> raised (fst (ReferenceDensitySimulator.expectation
                          (tt : Observable (Runtime := fixture))
                          (Inputs.engine_with Inputs.lopsided)))).
Proof. repeat split. intros Hne. apply Hne. reflexivity. Qed.

(** ** The heap of arrays *)

Section HeapFacts.
Context {C : Type} `{Runtime C}.
Import ReferenceDensitySimulator.

Lemma array_at_alloc_old (h : list (matrix C)) (a : matrix C) (l : loc) :
  l < length h -> array_at (h ++ [a]) l = array_at h l.
Proof. intros Hl. unfold array_at. now rewrite lookup_app_l. Qed.

Lemma array_at_alloc_new (h : list (matrix C)) (a : matrix C) :
  array_at (h ++ [a]) (length h) = a.
Proof. unfold array_at. now rewrite list_lookup_middle. Qed.

Lemma array_at_store_same (h : list (matrix C)) (a : matrix C) (l : loc) :
  l < length h -> array_at (<[l := a]> h) l = a.
Proof. intros Hl. unfold array_at. now rewrite list_lookup_insert_eq. Qed.

Lemma array_at_store_other (h : list (matrix C)) (a : matrix C) (l l' : loc) :
  l <> l' -> array_at (<[l := a]> h) l' = array_at h l'.
Proof. intros Hl. unfold array_at. now rewrite list_lookup_insert_ne. Qed.

End HeapFacts.

(** ** The density engine: [set_initial_state] *)

Section InitialState.
Context {C : Type} `{Runtime C}.
Import ReferenceDensitySimulator.

(** C4: [set_initial_state] with a matrix never changes the current
    density matrix: the reference [density] and every array of the heap
    are as before.  When it raises, whatever the exception, the whole
    state is as before, the configured initial state included.  When it
    returns, the only change is that [initial_density] is the argument,
    which is what a later [reset] makes current. *)
Theorem set_initial_state_frame (s : self) (l : loc) :
  let out := set_initial_state (Some l) s in
  density (snd out) = density s
  /\ heap (snd out) = heap s
  /\ (forall e, fst out = Err e -> snd out = s)
  /\ (fst out = Ok tt ->
      snd out = set_initial_density l s
      /\ density (snd (reset (snd out))) = l).
Proof.
  unfold set_initial_state, deref. run.
  destruct (negb (rows (array_at (heap s) l) =? cols (array_at (heap s) l)));
    [ run; repeat split; intros; discriminate | ].
  run. destruct (int_log2 (rows (array_at (heap s) l))) as [e | k];
    [ run; repeat split; intros; discriminate | ].
  destruct (negb (n_qubits s =? k)); [ run; repeat split; intros; discriminate | ].
  run.
  destruct (_is_valid_quantum_state (array_at (heap s) l) lit_1e_05 lit_1e_08)
    as [e | [|]]; run; repeat split; intros; try discriminate; reflexivity.
Qed.

(** X4: [set_initial_state(None)] builds the all-zeros projector in a new
    array: the call returns, the current density matrix is not touched
    either (the reference and the entries are as before), although after
    [__init__] it is the very array [initial_density] referred to. *)
Lemma set_initial_state_none_frame (s : self) :
  density s < length (heap s) ->
  let out := set_initial_state None s in
  fst out = Ok tt
  /\ density (snd out) = density s
  /\ array_at (heap (snd out)) (density (snd out)) = array_at (heap s) (density s)
  /\ initial_density (snd out) = length (heap s)
  /\ array_at (heap (snd out)) (initial_density (snd out))
     = mset (np_zeros (2 ^ n_qubits s) (2 ^ n_qubits s)) 0 0 c1.
Proof.
  intros Hd. unfold set_initial_state, set_zero_projector, alloc, deref, store. run.
  repeat split.
  - rewrite array_at_store_other by lia. now apply array_at_alloc_old.
  - rewrite array_at_alloc_new. apply array_at_store_same.
    rewrite length_app. simpl. lia.
Qed.







(** The two dimension tests of [set_initial_state].  The second compares
    the qubit count with the truncated logarithm of the row count: it
    passes for every row count from [2 ** n] up to [2 ** (n + 1) - 1], and
    the matrix then goes to the validity checker. *)
Lemma set_initial_state_dimension_tests (s : self) (l : loc) :
  let m := array_at (heap s) l in
  (rows m <> cols m -> set_initial_state (Some l) s = (Err not_square, s))
  /\ (rows m = cols m -> rows m <> 0 -> n_qubits s <> Nat.log2 (rows m) ->
      set_initial_state (Some l) s = (Err wrong_number_of_qubits, s))
  /\ (rows m = cols m -> rows m <> 0 -> n_qubits s = Nat.log2 (rows m) ->
      set_initial_state (Some l) s
      = match _is_valid_quantum_state m lit_1e_05 lit_1e_08 with
        | inl e => (Err e, s)
        | inr true => (Ok tt, set_initial_density l s)
        | inr false => (Err not_valid, s)
        end).
Proof.
  intros m. unfold set_initial_state, deref. run. fold m.
  repeat split.
  - intros Hne. apply Nat.eqb_neq in Hne. now rewrite Hne.
  - intros Hsq Hpos Hn. apply Nat.eqb_eq in Hsq. rewrite Hsq. simpl.
    destruct (rows m) as [| r] eqn:Hr; [contradiction | ]. simpl int_log2. run.
    apply Nat.eqb_neq in Hn. now rewrite Hn.
  - intros Hsq Hpos Hn. apply Nat.eqb_eq in Hsq. rewrite Hsq. simpl.
    destruct (rows m) as [| r] eqn:Hr; [contradiction | ]. simpl int_log2. run.
    apply Nat.eqb_eq in Hn. rewrite Hn. simpl.
    destruct (_is_valid_quantum_state m lit_1e_05 lit_1e_08) as [e | [|]];
      reflexivity.
Qed.

(** Every square matrix with [2 ** n <= rows < 2 ** (n + 1)] passes both
    dimension tests of an [n]-qubit engine. *)
Lemma oversized_matrix_reaches_checker (s : self) (l : loc) :
  let m := array_at (heap s) l in
  rows m = cols m ->
  2 ^ n_qubits s <= rows m < 2 ^ (n_qubits s + 1) ->
  set_initial_state (Some l) s
  = match _is_valid_quantum_state m lit_1e_05 lit_1e_08 with
    | inl e => (Err e, s)
    | inr true => (Ok tt, set_initial_density l s)
    | inr false => (Err not_valid, s)
    end.
Proof.
  intros m Hsq Hrange.
  assert (Hpos : 0 < 2 ^ n_qubits s)
    by (apply Nat.neq_0_lt_0, Nat.pow_nonzero; lia).
  apply (set_initial_state_dimension_tests s l); [assumption | fold m; lia | ].
  fold m. symmetry. apply Nat.log2_unique; [lia | ].
  replace (S (n_qubits s)) with (n_qubits s + 1) by lia. exact Hrange.
Qed.

End InitialState.

(** ** The density engine: noise *)

Section Noise.
Context {C : Type} `{Runtime C}.
Import ReferenceDensitySimulator.

(** C8: for a recognised channel and a probability that [np.isclose]
    takes for zero, [do_post_gate_noise] returns without raising, issues
    one warning, and leaves every attribute and every array as it was, the
    density matrix in particular. *)
Theorem negligible_noise_is_skipped (s : self) (noise_type : string)
    (operators : C -> list (matrix C)) (noise_prob : C) (qubits : list nat) :
  KRAUS_OPS !! noise_type = Some operators ->
  np_isclose noise_prob c0 lit_1e_05 lit_1e_08 = true ->
  let out := do_post_gate_noise noise_type noise_prob qubits s in
  fst out = Ok tt
  /\ snd out = set_warnings (warnings s ++ [skipping noise_type]) s
  /\ density (snd out) = density s
  /\ heap (snd out) = heap s
  /\ array_at (heap (snd out)) (density (snd out)) = array_at (heap s) (density s).
Proof.
  intros Hreg Hzero. unfold do_post_gate_noise. rewrite Hreg, Hzero.
  repeat split.
Qed.

(** C10: the channel is looked up before the probability is examined:
    for a name that is not in [KRAUS_OPS] the call raises KeyError,
    whatever the probability (zero included) and the qubits, and changes
    nothing. *)
Theorem unknown_channel_raises_KeyError (s : self) (noise_type : string)
    (noise_prob : C) (qubits : list nat) :
  KRAUS_OPS !! noise_type = None ->
  do_post_gate_noise noise_type noise_prob qubits s
  = (Err (Raise KeyError [Text noise_type]), s).
Proof. intros Hreg. unfold do_post_gate_noise. now rewrite Hreg. Qed.






(** Two listed qubits: the channel on the second is applied to the result
    of the channel on the first. *)
Lemma sequential_channels_two (n : nat) (kraus_ops : list (matrix C))
    (q1 q2 : nat) (rho : matrix C) :
  sequential_channels n kraus_ops [q1; q2] rho
  = (let? rho1 := single_qubit_channel n kraus_ops rho q1 in
     single_qubit_channel n kraus_ops rho1 q2).
Proof.
  simpl. destruct (single_qubit_channel n kraus_ops rho q1) as [e | rho1];
    [reflexivity | ]. simpl.
  now destruct (single_qubit_channel n kraus_ops rho1 q2).
Qed.
End Noise.

(** ** Sampling *)

Section Sampling.
Context {C : Type} `{Runtime C}.

(** C9: with a randomness source present, [sample_bitstrings] of either
    engine hands [rs.choice] the probabilities computed from the stored
    state and leaves that state as it was: the state vector (for the
    density engine: the heap of arrays and the reference [density]) is
    identical after the call, only the generator has advanced, and a
    second call therefore computes the same probabilities. *)
Theorem sample_bitstrings_reads_only
    (n_samples : nat) (tol_factor : C)
    (w : ReferenceWavefunctionSimulator.self) (gw : RandomState)
    (d : ReferenceDensitySimulator.self) (gd : RandomState) :
  ReferenceWavefunctionSimulator.rs w = Some gw ->
  ReferenceDensitySimulator.rs d = Some gd ->
  let pw := abs_squared (ReferenceWavefunctionSimulator.wf w) in
  let drawn_w := rs_choice (2 ^ ReferenceWavefunctionSimulator.n_qubits w)
                   n_samples pw gw in
  let w' := snd (ReferenceWavefunctionSimulator.sample_bitstrings n_samples w) in
  let rho := ReferenceDensitySimulator.array_at
               (ReferenceDensitySimulator.heap d)
               (ReferenceDensitySimulator.density d) in
  let pd := ReferenceDensitySimulator.probabilities_of rho tol_factor in
  let drawn_d := rs_choice (2 ^ ReferenceDensitySimulator.n_qubits d)
                   n_samples pd gd in
  let d' := snd (ReferenceDensitySimulator.sample_bitstrings
                   n_samples tol_factor d) in
  (w' = ReferenceWavefunctionSimulator.set_rs (Some (snd drawn_w)) w
   /\ ReferenceWavefunctionSimulator.wf w' = ReferenceWavefunctionSimulator.wf w
   /\ abs_squared (ReferenceWavefunctionSimulator.wf w') = pw)
  /\ (d' = ReferenceDensitySimulator.set_rs (Some (snd drawn_d)) d
      /\ ReferenceDensitySimulator.heap d' = ReferenceDensitySimulator.heap d
      /\ ReferenceDensitySimulator.density d' = ReferenceDensitySimulator.density d
      /\ ReferenceDensitySimulator.probabilities_of
           (ReferenceDensitySimulator.array_at
              (ReferenceDensitySimulator.heap d')
              (ReferenceDensitySimulator.density d')) tol_factor = pd).
Proof.
  intros Hw Hd pw drawn_w w' rho pd drawn_d d'.
  assert (Hw' : w' = ReferenceWavefunctionSimulator.set_rs (Some (snd drawn_w)) w).
  { unfold w', ReferenceWavefunctionSimulator.sample_bitstrings. run.
    rewrite Hw. run. fold pw. fold drawn_w.
    destruct (fst drawn_w) as [e | inds]; [reflexivity | ].
    now destruct (take_rows _ inds). }
  assert (Hd' : d' = ReferenceDensitySimulator.set_rs (Some (snd drawn_d)) d).
  { unfold d', ReferenceDensitySimulator.sample_bitstrings,
      ReferenceDensitySimulator.deref. run.
    rewrite Hd. run. fold rho. fold pd. fold drawn_d.
    destruct (fst drawn_d) as [e | inds]; [reflexivity | ].
    now destruct (take_rows _ inds). }
  rewrite Hw', Hd'. repeat split.
Qed.

(** Without a randomness source both methods raise and change nothing. *)
Lemma sample_bitstrings_without_source
    (n_samples : nat) (tol_factor : C)
    (w : ReferenceWavefunctionSimulator.self)
    (d : ReferenceDensitySimulator.self) :
  ReferenceWavefunctionSimulator.rs w = None ->
  ReferenceDensitySimulator.rs d = None ->
  ReferenceWavefunctionSimulator.sample_bitstrings n_samples w
    = (Err no_random_state, w)
  /\ ReferenceDensitySimulator.sample_bitstrings n_samples tol_factor d
    = (Err no_random_state, d).
Proof.
  intros Hw Hd.
  unfold ReferenceWavefunctionSimulator.sample_bitstrings,
    ReferenceDensitySimulator.sample_bitstrings. run.
  now rewrite Hw, Hd.
Qed.
End Sampling.

(** ** Runs of the model on binary64 numbers *)

Section Runs.
Import ReferenceDensitySimulator.
Import Inputs.

(** C1 fails on the code: a one-qubit engine is handed the 3 x 3 matrix
    [qutrit].  The truncated logarithm of 3 is 1, the dimension test
    passes, the validity checker runs and accepts, and the 3 x 3 matrix
    becomes the initial state of the one-qubit engine. *)
Theorem qutrit_state_is_installed :
  let e := engine_with qutrit in
  n_qubits e = 1
  /\ shape (array_at (heap e) 0) = (3, 3)
  /\ set_initial_state (Some 0) e = (Ok tt, set_initial_density 0 e)
  /\ shape (array_at (heap (snd (reset (snd (set_initial_state (Some 0) e)))))
                     (density (snd (reset (snd (set_initial_state (Some 0) e))))))
     = (3, 3).
Proof. vm_compute. repeat split. Qed.

(** The gate X on one qubit in the state |0>, then a measurement: the
    amplitudes are (0, 1) and the measurement returns 1, whatever the draw. *)
Lemma x_then_measurement_returns_one :
  let after_x := snd (ReferenceWavefunctionSimulator.do_gate_matrix
                        fixture_X [0] wavefunction_engine) in
  vget (ReferenceWavefunctionSimulator.wf after_x) 0 = f 0
  /\ vget (ReferenceWavefunctionSimulator.wf after_x) 1 = f 1
  /\ fst (ReferenceWavefunctionSimulator.do_measurement 0 after_x) = Ok 1.
Proof. vm_compute. repeat split. Qed.

(** [[1, 0], [1, 0]] on a one-qubit engine: the call raises and the engine,
    its current density matrix included, is as before. *)
Lemma set_initial_state_frame_witness :
  fst (set_initial_state (Some 0) (engine_with lopsided)) = Err not_hermitian
  /\ snd (set_initial_state (Some 0) (engine_with lopsided)) = engine_with lopsided
  /\ density (snd (set_initial_state (Some 0) (engine_with lopsided))) = 1
  /\ heap (snd (set_initial_state (Some 0) (engine_with lopsided)))
     = heap (engine_with lopsided).
Proof.
  assert (Hraise : fst (set_initial_state (Some 0) (engine_with lopsided))
                   = Err not_hermitian) by (vm_compute; reflexivity).
  destruct (set_initial_state_frame (engine_with lopsided) 0)
    as (Hdensity & Hheap & Hrejected & _).
  split; [exact Hraise | ].
  split; [exact (Hrejected not_hermitian Hraise) | ].
  split; [rewrite Hdensity; reflexivity | exact Hheap].
Defined.


Lemma negligible_noise_is_skipped_witness :
  KRAUS_OPS (Runtime := fixture (C := F64.complex128)) !! "bit_flip"%string
  = Some bit_flip_operators
  /\ np_isclose (f 0) c0 lit_1e_05 lit_1e_08 = true
  /\ do_post_gate_noise "bit_flip" (f 0) [0; 0] (engine_with lopsided)
     = (Ok tt,
        set_warnings
          ["Skipping bit_flip post-gate noise because noise_prob is close to 0"%string]
          (engine_with lopsided)).
Proof.
  assert (Hreg : KRAUS_OPS (Runtime := fixture (C := F64.complex128))
                   !! "bit_flip"%string
                 = Some bit_flip_operators) by reflexivity.
  assert (Hp : np_isclose (f 0) c0 lit_1e_05 lit_1e_08 = true) by reflexivity.
  split; [exact Hreg | ]. split; [exact Hp | ].
  destruct (negligible_noise_is_skipped (engine_with lopsided) "bit_flip"
              bit_flip_operators (f 0) [0; 0] Hreg Hp) as (Hret & Hstate & _).
  rewrite (surjective_pairing (do_post_gate_noise _ _ _ _)), Hret, Hstate.
  reflexivity.
Defined.

Lemma unknown_channel_raises_KeyError_witness :
  KRAUS_OPS (Runtime := fixture (C := F64.complex128)) !! "thermal"%string = None
  /\ np_isclose (f 0) c0 lit_1e_05 lit_1e_08 = true
  /\ do_post_gate_noise "thermal" (f 0) [0] (engine_with lopsided)
     = (Err (Raise KeyError [Text "thermal"]), engine_with lopsided).
Proof.
  split; [reflexivity | ]. split; [reflexivity | ].
  apply (unknown_channel_raises_KeyError (engine_with lopsided) "thermal" (f 0) [0]).
  reflexivity.
Defined.


Lemma sample_bitstrings_reads_only_witness :
  let w := wavefunction_engine in
  let d := engine_with lopsided in
  ReferenceWavefunctionSimulator.rs w = Some [f 0.25; f 0.75]
  /\ rs d = Some [f 0.25; f 0.75]
  /\ ReferenceWavefunctionSimulator.wf
       (snd (ReferenceWavefunctionSimulator.sample_bitstrings 2 w))
     = ReferenceWavefunctionSimulator.wf w
  /\ heap (snd (sample_bitstrings 2 lit_1e8 d)) = heap d
  /\ density (snd (sample_bitstrings 2 lit_1e8 d)) = density d.
Proof.
  intros w d.
  destruct (sample_bitstrings_reads_only 2 lit_1e8 w [f 0.25; f 0.75]
              d [f 0.25; f 0.75] eq_refl eq_refl)
    as ((_ & Hwf & _) & (_ & Hheap & Hdens & _)).
  repeat split; assumption.
Defined.
End Runs.

(** ** Exact arithmetic: the algebra of sums *)

Lemma complex_ring :
  ring_theory (c0 : Exact.complex) c1 cadd cmul csub cneg eq.
Proof.
  constructor; intros; repeat match goal with x : Exact.complex |- _ => destruct x end;
    simpl; unfold Exact.add, Exact.mul, Exact.sub, Exact.neg, Exact.of_real;
    simpl; f_equal; ring.
Qed.

Add Ring complex_ring_tac : complex_ring.

Lemma cconj_add (x y : Exact.complex) : cconj (cadd x y) = cadd (cconj x) (cconj y).
Proof.
  destruct x, y. simpl. unfold Exact.conj, Exact.add. simpl. f_equal; ring.
Qed.

Lemma cconj_mul (x y : Exact.complex) : cconj (cmul x y) = cmul (cconj x) (cconj y).
Proof.
  destruct x, y. simpl. unfold Exact.conj, Exact.mul. simpl. f_equal; ring.
Qed.

Lemma cconj_0 : cconj (c0 : Exact.complex) = c0.
Proof. simpl. unfold Exact.conj, Exact.of_real. simpl. f_equal; ring. Qed.

Lemma cdiv_0 (s : Exact.complex) : cdiv c0 s = c0.
Proof.
  destruct s. simpl. unfold Exact.div, Exact.mul, Exact.inv, Exact.of_real.
  simpl. f_equal; ring.
Qed.

Lemma cmul_cdiv_1 (x s : Exact.complex) : cmul x (cdiv c1 s) = cdiv x s.
Proof.
  destruct x, s. simpl. unfold Exact.div, Exact.mul, Exact.inv, Exact.of_real.
  simpl. f_equal; ring.
Qed.

Lemma csum_ext (n : nat) (f g : nat -> Exact.complex) :
  (forall i, i < n -> f i = g i) -> csum n f = csum n g.
Proof.
  induction n as [| n IH]; intros Hfg; cbn [csum]; [reflexivity | ].
  rewrite IH, Hfg by (intros; try apply Hfg; lia). reflexivity.
Qed.

Lemma csum_add (n : nat) (f g : nat -> Exact.complex) :
  csum n (fun i => cadd (f i) (g i)) = cadd (csum n f) (csum n g).
Proof. induction n as [| n IH]; cbn [csum]; [ | rewrite IH]; ring. Qed.

Lemma csum_zero (n : nat) : csum n (fun _ => (c0 : Exact.complex)) = c0.
Proof. induction n as [| n IH]; cbn [csum]; [ | rewrite IH]; ring. Qed.

Lemma csum_mul_l (n : nat) (c : Exact.complex) (f : nat -> Exact.complex) :
  cmul c (csum n f) = csum n (fun i => cmul c (f i)).
Proof. induction n as [| n IH]; cbn [csum]; [ | rewrite <- IH]; ring. Qed.

Lemma csum_mul_r (n : nat) (c : Exact.complex) (f : nat -> Exact.complex) :
  cmul (csum n f) c = csum n (fun i => cmul (f i) c).
Proof. induction n as [| n IH]; cbn [csum]; [ | rewrite <- IH]; ring. Qed.

Lemma csum_conj (n : nat) (f : nat -> Exact.complex) :
  cconj (csum n f) = csum n (fun i => cconj (f i)).
Proof.
  induction n as [| n IH]; simpl csum; [apply cconj_0 | ].
  now rewrite cconj_add, IH.
Qed.

Lemma csum_swap (m n : nat) (f : nat -> nat -> Exact.complex) :
  csum m (fun i => csum n (fun j => f i j))
  = csum n (fun j => csum m (fun i => f i j)).
Proof.
  induction m as [| m IH]; cbn [csum].
  - now rewrite csum_zero.
  - now rewrite IH, csum_add.
Qed.

(** A sum against a column of the identity picks one term. *)
Lemma csum_delta (n j : nat) (f : nat -> Exact.complex) (a : Exact.complex) :
  j < n ->
  csum n (fun k => cmul (f k) (if k =? j then a else c0)) = cmul (f j) a.
Proof.
  induction n as [| n IH]; intros Hj; [lia | ]. cbn [csum].
  destruct (Nat.eqb_spec n j) as [-> | Hne].
  - rewrite (csum_ext j _ (fun _ => c0)).
    + rewrite csum_zero. ring.
    + intros i Hi. destruct (Nat.eqb_spec i j); [lia | ring].
  - rewrite IH by lia. ring.
Qed.

(** ** The wavefunction engine in exact arithmetic *)

Section ExactMeasurement.
Context {RT : Runtime Exact.complex}.
Import ReferenceWavefunctionSimulator.

(** The squared norm of [m ψ] is [⟨ψ|m† m|ψ⟩]. *)
Lemma norm_squared_matvec (m : matrix Exact.complex) (psi : vector Exact.complex)
    (N : nat) :
  csum N (fun k =>
    cmul (cconj (csum N (fun j => cmul (mget m k j) (vget psi j))))
         (csum N (fun j => cmul (mget m k j) (vget psi j))))
  = csum N (fun i =>
      cmul (cconj (vget psi i))
           (csum N (fun j =>
              cmul (csum N (fun k => cmul (cconj (mget m k i)) (mget m k j)))
                   (vget psi j)))).
Proof.
  set (B := fun k => csum N (fun j => cmul (mget m k j) (vget psi j))).
  transitivity
    (csum N (fun i => csum N (fun k =>
       cmul (cmul (cconj (vget psi i)) (cconj (mget m k i))) (B k)))).
  - rewrite csum_swap. apply csum_ext. intros k Hk.
    rewrite csum_conj, csum_mul_r. apply csum_ext. intros i Hi.
    rewrite cconj_mul. fold (B k). ring.
  - apply csum_ext. intros i Hi.
    transitivity (cmul (cconj (vget psi i))
                    (csum N (fun k => cmul (cconj (mget m k i)) (B k)))).
    + rewrite csum_mul_l. apply csum_ext. intros k Hk. ring.
    + f_equal.
      transitivity (csum N (fun k => csum N (fun j =>
                      cmul (cmul (cconj (mget m k i)) (mget m k j)) (vget psi j)))).
      * apply csum_ext. intros k Hk. unfold B. rewrite csum_mul_l.
        apply csum_ext. intros j Hj. ring.
      * rewrite csum_swap. apply csum_ext. intros j Hj.
        now rewrite <- csum_mul_r.
Qed.

(** The probability the method computes, the squared norm of the projected
    state, is [⟨ψ|P|ψ⟩] when [P] is a projector. *)
Lemma born_rule (m : matrix Exact.complex) (psi : vector Exact.complex) (N : nat) :
  rows m = N -> cols m = N -> vlen psi = N -> projector m ->
  csum N (fun k =>
    cmul (cconj (csum N (fun j => cmul (mget m k j) (vget psi j))))
         (csum N (fun j => cmul (mget m k j) (vget psi j))))
  = braket m psi.
Proof.
  intros Hrows Hcols Hlen [_ Hproj]. rewrite Hrows, Hcols in Hproj.
  rewrite norm_squared_matvec. unfold braket. rewrite Hlen.
  apply csum_ext. intros i Hi. f_equal.
  apply csum_ext. intros j Hj. now rewrite Hproj.
Qed.

(** In exact arithmetic a unitary operator keeps the squared norm of the
    state it is applied to. *)
Lemma unitary_keeps_norm (u : matrix Exact.complex) (psi : vector Exact.complex)
    (N : nat) :
  shape u = (N, N) -> vlen psi = N -> unitary u ->
  exists psi', np_matvec u psi = Ok psi'
               /\ vlen psi' = N
               /\ norm_squared psi' = norm_squared psi.
Proof.
  intros Hshape Hlen [_ Hunit]. unfold shape in Hshape.
  injection Hshape as Hrows Hcols. rewrite Hrows, Hcols in Hunit.
  unfold np_matvec. rewrite Hcols, Hlen, Nat.eqb_refl.
  eexists. split; [reflexivity | ]. split; [exact Hrows | ].
  unfold norm_squared. cbn [vlen vget]. rewrite Hrows, Hlen.
  rewrite norm_squared_matvec. apply csum_ext. intros i Hi. f_equal.
  rewrite (csum_ext N _
             (fun j => cmul (vget psi j) (if j =? i then c1 else c0))).
  - rewrite csum_delta by assumption. ring.
  - intros j Hj. rewrite Hunit by assumption. rewrite (Nat.eqb_sym i j). ring.
Qed.

(** The all-zeros basis state has squared norm one. *)
Lemma initial_state_has_norm_one (n : nat) (g : option RandomState) :
  norm_squared (wf (__init__ n g)) = c1.
Proof.
  unfold __init__, norm_squared. cbn [wf vlen vset np_zeros1 vget].
  assert (Hpos : 0 < 2 ^ n) by (apply Nat.neq_0_lt_0, Nat.pow_nonzero; lia).
  rewrite (csum_ext (2 ^ n) _
             (fun k => cmul (if k =? 0 then c1 else c0) (if k =? 0 then c1 else c0))).
  - rewrite csum_delta by assumption. cbn [Nat.eqb]. ring.
  - intros k Hk. destruct (k =? 0); [ | now rewrite cconj_0].
    f_equal. cbn. unfold Exact.conj, Exact.of_real. cbn [fst snd]. f_equal. ring.
Qed.

(** [do_gate_matrix] and [do_gate] with an operator whose lifting is unitary:
    the call returns and the squared norm of the state is as before (in
    exact arithmetic; the rounding of binary64 products is not modelled). *)
Lemma do_gate_matrix_keeps_norm (s : self) (operator : matrix Exact.complex)
    (qubits : list nat) (u : matrix Exact.complex) :
  vlen (wf s) = 2 ^ n_qubits s ->
  lifted_gate_matrix operator qubits (n_qubits s) = Ok u ->
  shape u = (2 ^ n_qubits s, 2 ^ n_qubits s) -> unitary u ->
  let out := do_gate_matrix operator qubits s in
  fst out = Ok tt
  /\ n_qubits (snd out) = n_qubits s
  /\ vlen (wf (snd out)) = 2 ^ n_qubits s
  /\ norm_squared (wf (snd out)) = norm_squared (wf s).
Proof.
  intros Hlen Hlift Hshape Hunit out.
  destruct (unitary_keeps_norm u (wf s) (2 ^ n_qubits s) Hshape Hlen Hunit)
    as (psi' & Hmv & Hlen' & Hnorm).
  unfold out, do_gate_matrix. unfold Ok in Hlift, Hmv.
  unfold bind, gets, lift, modify, ret, raise. cbv beta iota.
  rewrite Hlift. cbv beta iota. rewrite Hmv. cbn [fst snd].
  repeat split; assumption.
Qed.

Lemma do_gate_keeps_norm (s : self) (gate : Gate) (u : matrix Exact.complex) :
  vlen (wf s) = 2 ^ n_qubits s ->
  lifted_gate gate (n_qubits s) = Ok u ->
  shape u = (2 ^ n_qubits s, 2 ^ n_qubits s) -> unitary u ->
  let out := do_gate gate s in
  fst out = Ok tt
  /\ n_qubits (snd out) = n_qubits s
  /\ vlen (wf (snd out)) = 2 ^ n_qubits s
  /\ norm_squared (wf (snd out)) = norm_squared (wf s).
Proof.
  intros Hlen Hlift Hshape Hunit out.
  destruct (unitary_keeps_norm u (wf s) (2 ^ n_qubits s) Hshape Hlen Hunit)
    as (psi' & Hmv & Hlen' & Hnorm).
  unfold out, do_gate. unfold Ok in Hlift, Hmv.
  unfold bind, gets, lift, modify, ret, raise. cbv beta iota.
  rewrite Hlift. cbv beta iota. rewrite Hmv. cbn [fst snd].
  repeat split; assumption.
Qed.

(** Applying [m @ (np.eye(N) / s)] is applying [m / s]. *)
Lemma matmul_scaled_identity (m : matrix Exact.complex) (s : Exact.complex)
    (N i j : nat) :
  j < N ->
  csum N (fun k => cmul (mget m i k) (mget (np_divide_scalar (np_eye N) s) k j))
  = cdiv (mget m i j) s.
Proof.
  intros Hj. cbn [mget np_divide_scalar np_eye].
  rewrite (csum_ext N _
             (fun k => cmul (mget m i k) (if k =? j then cdiv c1 s else c0))).
  - rewrite csum_delta by assumption. apply cmul_cdiv_1.
  - intros k Hk. destruct (k =? j); [reflexivity | now rewrite cdiv_0].
Qed.

(** The two products of a branch of [do_measurement] return, and the vector
    they produce is the collapsed state of the specification. *)
Lemma collapse_by_products (m : matrix Exact.complex) (prob : Exact.complex)
    (psi : vector Exact.complex) (N : nat) :
  shape m = (N, N) -> vlen psi = N ->
  exists u psi',
    np_matmul m (np_divide_scalar (np_eye N) (csqrt prob)) = Ok u
    /\ np_matvec u psi = Ok psi'
    /\ vec_eq psi' (collapse m prob psi).
Proof.
  intros Hshape Hlen. unfold shape in Hshape. injection Hshape as Hrows Hcols.
  unfold np_matmul. cbn [rows cols np_divide_scalar np_eye].
  rewrite Hcols, Nat.eqb_refl.
  eexists. eexists. split; [reflexivity | ].
  unfold np_matvec. cbn [rows cols mget]. rewrite Hlen, Nat.eqb_refl.
  split; [reflexivity | ].
  unfold vec_eq, collapse. cbn [vlen vget]. split; [now rewrite Hrows | ].
  intros i Hi. rewrite Hlen. apply csum_ext. intros j Hj.
  f_equal. apply (matmul_scaled_identity m (csqrt prob) N i j Hj).
Qed.

(** C2, in exact arithmetic: with a randomness source present, and the
    lifted [P0] a projector of the full space, [do_measurement] computes
    [prob_zero = ⟨ψ|P0|ψ⟩], draws once, and when the draw is below
    [prob_zero] replaces the state by [(P0 / sqrt(prob_zero)) ψ] and returns
    0; otherwise it lifts [P1], replaces the state by
    [(P1 / sqrt(1 - prob_zero)) ψ] and returns 1. *)
Theorem do_measurement_collapses (s : self) (qubit : nat) (g : RandomState)
    (measure_0 : matrix Exact.complex) :
  rs s = Some g ->
  vlen (wf s) = 2 ^ n_qubits s ->
  lifted_gate_matrix P0 [qubit] (n_qubits s) = Ok measure_0 ->
  shape measure_0 = (2 ^ n_qubits s, 2 ^ n_qubits s) ->
  projector measure_0 ->
  let psi := wf s in
  let prob_zero := braket measure_0 psi in
  let draw := rs_uniform g in
  let out := do_measurement qubit s in
  if cltb (fst draw) prob_zero
  then fst out = Ok 0
       /\ vec_eq (wf (snd out)) (collapse measure_0 prob_zero psi)
       /\ rs (snd out) = Some (snd draw)
       /\ n_qubits (snd out) = n_qubits s
  else forall measure_1,
       lifted_gate_matrix P1 [qubit] (n_qubits s) = Ok measure_1 ->
       shape measure_1 = (2 ^ n_qubits s, 2 ^ n_qubits s) ->
       fst out = Ok 1
       /\ vec_eq (wf (snd out)) (collapse measure_1 (csub c1 prob_zero) psi)
       /\ rs (snd out) = Some (snd draw)
       /\ n_qubits (snd out) = n_qubits s.
Proof.
  intros Hrs Hlen Hlift Hshape Hproj psi prob_zero draw out.
  set (N := 2 ^ n_qubits s) in *.
  assert (Hrows : rows measure_0 = N) by (unfold shape in Hshape; congruence).
  assert (Hcols : cols measure_0 = N) by (unfold shape in Hshape; congruence).
  set (proj_psi := Vec N (fun i =>
         csum N (fun k => cmul (mget measure_0 i k) (vget psi k)))).
  assert (Hmv : np_matvec measure_0 psi = inr proj_psi).
  { unfold np_matvec. fold psi in Hlen.
    now rewrite Hrows, Hcols, Hlen, Nat.eqb_refl. }
  assert (Hprob : np_inner (np_conj1 proj_psi) proj_psi = inr prob_zero).
  { unfold np_inner. cbn [vlen vget np_conj1 proj_psi]. rewrite Nat.eqb_refl.
    unfold Ok. f_equal. apply born_rule; assumption. }
  unfold out, do_measurement. unfold Ok in Hlift.
  unfold bind, gets, lift, modify, ret, raise. cbv beta iota.
  rewrite Hrs. cbv beta iota. fold N. rewrite Hlift. cbv beta iota.
  fold psi. rewrite Hmv. cbv beta iota. rewrite Hprob. cbv beta iota.
  fold draw.
  destruct (cltb (fst draw) prob_zero).
  - destruct (collapse_by_products measure_0 prob_zero psi N Hshape Hlen)
      as (u & psi' & Hu & Hpsi' & Heq).
    unfold Ok in Hu, Hpsi'. rewrite Hu, Hpsi'. cbn [fst snd].
    repeat split; apply Heq.
  - intros measure_1 Hlift1 Hshape1. unfold Ok in Hlift1. rewrite Hlift1.
    destruct (collapse_by_products measure_1 (csub c1 prob_zero) psi N Hshape1 Hlen)
      as (u & psi' & Hu & Hpsi' & Heq).
    unfold Ok in Hu, Hpsi'. rewrite Hu, Hpsi'. cbn [fst snd].
    repeat split; apply Heq.
Qed.

(** In exact arithmetic, a sequence of calls with unitary operators, started
    in the state [__init__] builds: every call returns and the squared norm
    of the state is one at the end (hence after every call, a prefix of the
    sequence being such a sequence).  This is the mathematics behind the
    tolerance of the specification; what binary64 rounding adds to it is not
    modelled. *)
Lemma unitary_calls_keep_norm (calls : list gate_call) :
  forall s : self,
    vlen (wf s) = 2 ^ n_qubits s ->
    Forall (unitary_call (n_qubits s)) calls ->
    let out := for_each calls run_call s in
    fst out = Ok tt
    /\ n_qubits (snd out) = n_qubits s
    /\ vlen (wf (snd out)) = 2 ^ n_qubits s
    /\ norm_squared (wf (snd out)) = norm_squared (wf s).
Proof.
  induction calls as [| c calls IH]; intros s Hlen Hall; [now repeat split | ].
  inversion Hall as [| c' calls' (u & Hlift & Hshape & Hunit) Hrest]; subst.
  assert (Hstep : let out := run_call c s in
            fst out = Ok tt
            /\ n_qubits (snd out) = n_qubits s
            /\ vlen (wf (snd out)) = 2 ^ n_qubits s
            /\ norm_squared (wf (snd out)) = norm_squared (wf s)).
  { destruct c as [gate | operator qubits]; cbn [run_call lifted_operator] in *.
    - now apply (do_gate_keeps_norm s gate u).
    - now apply (do_gate_matrix_keeps_norm s operator qubits u). }
  cbv zeta in Hstep. destruct Hstep as (Hret & Hn & Hlen' & Hnorm).
  cbn [for_each]. unfold bind.
  destruct (run_call c s) as [[e | []] s1]; cbn [fst snd] in *; [discriminate | ].
  specialize (IH s1). rewrite Hn in IH. specialize (IH Hlen' Hrest).
  cbv zeta in IH. destruct IH as (Hret' & Hn' & Hlen'' & Hnorm').
  repeat split; congruence.
Qed.

(** X20, in exact arithmetic: from the state [__init__] builds, every
    sequence of [do_gate] and [do_gate_matrix] calls whose lifted operators
    are unitary returns, and the squared norm of the state vector is
    exactly one at the end. *)
Lemma unitary_calls_from_initial_state (n : nat) (g : option RandomState)
    (calls : list gate_call) :
  Forall (unitary_call n) calls ->
  let out := for_each calls run_call (__init__ n g) in
  fst out = Ok tt /\ norm_squared (wf (snd out)) = c1.
Proof.
  intros Hall out.
  destruct (unitary_calls_keep_norm calls (__init__ n g)) as (Hret & _ & _ & Hnorm);
    [reflexivity | exact Hall | ].
  split; [exact Hret | ]. unfold out. rewrite Hnorm.
  apply initial_state_has_norm_one.
Qed.
End ExactMeasurement.

(** A measurement in exact arithmetic: the state (3/5, 4/5) is measured with
    the draw 1/4, below the probability 9/25 of the outcome 0. *)
Section ExactRun.
Import ReferenceWavefunctionSimulator.
Import Inputs.

Lemma lifted_P0_is_projector : projector lifted_P0.
Proof.
  split; [reflexivity | ]. intros i j Hi Hj. cbn [cols lifted_P0] in Hi, Hj.
  destruct i as [| [| i]]; destruct j as [| [| j]]; try lia; cbn;
    unfold Exact.add, Exact.mul, Exact.conj, Exact.of_real; cbn [fst snd];
    f_equal; ring.
Qed.

Lemma probability_of_zero : braket lifted_P0 (wf exact_engine) = r (9 / 25).
Proof.
  cbn. unfold r, Exact.add, Exact.mul, Exact.conj, Exact.of_real. cbn [fst snd].
  f_equal; field.
Qed.

Lemma draw_is_below :
  cltb (fst (rs_uniform (Runtime := fixture) [r (1 / 4)])) (r (9 / 25)) = true.
Proof.
  cbn. unfold Exact.ltb, r, Exact.of_real. cbn [fst snd].
  destruct (Rlt_dec (1 / 4) (9 / 25)) as [Hlt | Hn];
    [reflexivity | exfalso; apply Hn; lra].
Qed.

Lemma do_measurement_collapses_witness :
  rs exact_engine = Some [r (1 / 4)]
  /\ vlen (wf exact_engine) = 2 ^ n_qubits exact_engine
  /\ lifted_gate_matrix (Runtime := fixture) P0 [0] (n_qubits exact_engine)
     = Ok lifted_P0
  /\ shape lifted_P0 = (2 ^ n_qubits exact_engine, 2 ^ n_qubits exact_engine)
  /\ projector lifted_P0
  /\ fst (do_measurement 0 exact_engine) = Ok 0
  /\ vec_eq (wf (snd (do_measurement 0 exact_engine)))
            (collapse lifted_P0 (r (9 / 25)) (wf exact_engine)).
Proof.
  assert (Hlift : lifted_gate_matrix (Runtime := fixture) P0 [0]
                    (n_qubits exact_engine) = Ok lifted_P0) by reflexivity.
  repeat (split; [first [reflexivity | exact Hlift | exact lifted_P0_is_projector] | ]).
  pose proof (do_measurement_collapses exact_engine 0 [r (1 / 4)] lifted_P0
                eq_refl eq_refl Hlift eq_refl lifted_P0_is_projector) as Hrun.
  cbv zeta in Hrun. rewrite probability_of_zero, draw_is_below in Hrun.
  split; apply Hrun.
Defined.
End ExactRun.

(** ** The lifter of the specification *)

Lemma testbit_above (n i k : nat) : i < 2 ^ n -> n <= k -> Nat.testbit i k = false.
Proof.
  intros Hi Hk. destruct (Nat.eq_dec i 0) as [-> | Hne]; [apply Nat.bits_0 | ].
  apply Nat.bits_above_log2. apply Nat.lt_le_trans with n; [ | exact Hk].
  apply Nat.log2_lt_pow2; lia.
Qed.

Lemma equal_bits_below (n i j : nat) :
  i < 2 ^ n -> j < 2 ^ n ->
  (forall b, b < n -> Nat.testbit i b = Nat.testbit j b) -> i = j.
Proof.
  intros Hi Hj Hbits. apply Nat.bits_inj. intros k.
  destruct (Nat.lt_ge_cases k n) as [Hk | Hk]; [now apply Hbits | ].
  now rewrite (testbit_above n i k), (testbit_above n j k).
Qed.

Lemma agree_elsewhere_single (n q i j : nat) :
  agree_elsewhere [q] n i j = true
  <-> forall b, b < n -> b <> q -> Nat.testbit i b = Nat.testbit j b.
Proof.
  unfold agree_elsewhere. rewrite forallb_forall. split.
  - intros Hall b Hb Hne. specialize (Hall b). rewrite in_seq in Hall.
    specialize (Hall ltac:(lia)). cbn [existsb] in Hall.
    apply Nat.eqb_neq in Hne. rewrite Hne in Hall. simpl in Hall.
    now apply Bool.eqb_prop in Hall.
  - intros Hall b Hb. rewrite in_seq in Hb. cbn [existsb].
    destruct (Nat.eqb_spec b q) as [-> | Hne]; [reflexivity | ]. simpl.
    rewrite Hall by lia. apply Bool.eqb_reflx.
Qed.

Section LifterModel.
Context {C : Type} `{Numeric C}.

(** The entries of [P0] lifted on one qubit [q]: the diagonal entries at the
    basis states whose bit [q] is zero are one, every other entry is zero. *)
Lemma lifted_P0_entry (n q i j : nat) :
  q < n -> i < 2 ^ n -> j < 2 ^ n ->
  (if agree_elsewhere [q] n i j
   then mget (fixture_P0 (C:=C)) (gate_index [q] i) (gate_index [q] j)
   else c0)
  = if (i =? j) && negb (Nat.testbit i q) then c1 else c0.
Proof.
  intros Hq Hi Hj. unfold gate_index. cbn [fold_left].
  destruct (Nat.eqb_spec i j) as [<- | Hne].
  - assert (Ha : agree_elsewhere [q] n i i = true)
      by (apply agree_elsewhere_single; reflexivity).
    rewrite Ha. now destruct (Nat.testbit i q).
  - destruct (agree_elsewhere [q] n i j) eqn:Ha; [ | reflexivity].
    rewrite agree_elsewhere_single in Ha.
    destruct (Nat.testbit i q) eqn:Bi, (Nat.testbit j q) eqn:Bj; try reflexivity.
    exfalso. apply Hne. apply (equal_bits_below n); try assumption.
    intros b Hb. destruct (Nat.eq_dec b q) as [-> | Hbq]; [congruence | now apply Ha].
Qed.
End LifterModel.

Lemma cconj_1 : cconj (c1 : Exact.complex) = c1.
Proof. simpl. unfold Exact.conj, Exact.of_real. simpl. f_equal; ring. Qed.

(** The lifter modelled from the specification turns [P0] into a projector
    of the full space, on every qubit of an engine of any size. *)
Lemma fixture_lifts_P0_to_projector (n q : nat) :
  q < n ->
  exists m : matrix Exact.complex,
    lifted_gate_matrix (Runtime := fixture) P0 [q] n = Ok m
    /\ shape m = (2 ^ n, 2 ^ n)
    /\ projector m.
Proof.
  intros Hq. cbn [lifted_gate_matrix P0 fixture].
  unfold lift_operator. cbn [length rows cols fixture_P0 of_rows hd forallb distinct existsb].
  apply Nat.ltb_lt in Hq as Hq'. rewrite Hq'. cbn [Nat.pow Nat.mul Nat.add Nat.eqb andb negb].
  eexists. split; [reflexivity | ]. split; [reflexivity | ].
  split; [reflexivity | ]. cbn [rows cols mget]. intros i j Hi Hj.
  rewrite (csum_ext (2 ^ n) _
             (fun k => cmul (if (k =? j) && negb (Nat.testbit k q) then c1 else c0)
                            (if k =? i
                             then (if negb (Nat.testbit i q) then c1 else c0)
                             else c0))).
  - rewrite csum_delta by assumption.
    rewrite (lifted_P0_entry n q i j) by assumption.
    destruct (i =? j), (Nat.testbit i q); cbn [andb negb]; ring.
  - intros k Hk. rewrite (lifted_P0_entry n q k i), (lifted_P0_entry n q k j) by assumption.
    destruct (Nat.eqb_spec k i) as [-> | Hne];
      destruct (_ =? j), (Nat.testbit _ q); cbn [andb negb];
      rewrite ?cconj_0, ?cconj_1; ring.
Qed.

(** ** Stochastic operations without a generator *)

Section Stochastic.
Context {C : Type} `{Runtime C}.

(** X1: an engine built without a generator ([rs] is [None]) refuses every
    stochastic operation: [do_measurement] and [sample_bitstrings] of both
    engines raise ValueError with the one message, before the projector is
    lifted or the state is read (so also for a qubit the engine does not
    have), and leave the engine as it was. *)
Theorem stochastic_operations_need_a_generator
    (qubit n_samples : nat) (tol_factor : C)
    (w : ReferenceWavefunctionSimulator.self)
    (d : ReferenceDensitySimulator.self) :
  ReferenceWavefunctionSimulator.rs w = None ->
  ReferenceDensitySimulator.rs d = None ->
  ReferenceWavefunctionSimulator.do_measurement qubit w = (Err no_random_state, w)
  /\ ReferenceWavefunctionSimulator.sample_bitstrings n_samples w
     = (Err no_random_state, w)
  /\ ReferenceDensitySimulator.do_measurement qubit d = (Err no_random_state, d)
  /\ ReferenceDensitySimulator.sample_bitstrings n_samples tol_factor d
     = (Err no_random_state, d).
Proof.
  intros Hw Hd.
  unfold ReferenceWavefunctionSimulator.do_measurement,
    ReferenceWavefunctionSimulator.sample_bitstrings,
    ReferenceDensitySimulator.do_measurement,
    ReferenceDensitySimulator.sample_bitstrings.
  unfold bind, gets. rewrite Hw, Hd. repeat split.
Qed.
End Stochastic.

(** ** The validity checker never answers no *)

Section CheckerAnswers.
Context {C : Type} `{Runtime C}.
Import ReferenceDensitySimulator.

Lemma is_valid_quantum_state_not_false (m : matrix C) (rtol atol : C) :
  _is_valid_quantum_state m rtol atol <> Ok false.
Proof.
  unfold _is_valid_quantum_state.
  destruct (np_allclose m (np_conj (np_transpose m)) rtol atol) as [e | [|]];
    simpl; try discriminate.
  destruct (np_isclose (np_trace m) c1 rtol atol); simpl; try discriminate.
  destruct (np_linalg_eigvals m) as [e | evals]; simpl; try discriminate.
  destruct (forallb _ _); simpl; discriminate.
Qed.

(** X2: [_is_valid_quantum_state] returns [True] or raises, for every
    matrix and every tolerance; it never returns [False].  The [else]
    branch of [set_initial_state] is therefore never taken: when
    [set_initial_state] raises, the exception is that of a dimension test
    or the one the checker raised. *)
Theorem checker_returns_true_or_raises (m : matrix C) (rtol atol : C)
    (s : self) (l : loc) :
  _is_valid_quantum_state m rtol atol <> Ok false
  /\ forall e, fst (set_initial_state (Some l) s) = Err e ->
       e = not_square
       \/ int_log2 (rows (array_at (heap s) l)) = Err e
       \/ e = wrong_number_of_qubits
       \/ _is_valid_quantum_state (array_at (heap s) l) lit_1e_05 lit_1e_08 = Err e.
Proof.
  split; [apply is_valid_quantum_state_not_false | ].
  intros e. unfold set_initial_state, deref. run.
  destruct (negb (rows (array_at (heap s) l) =? cols (array_at (heap s) l)));
    [ run; intros He; left; congruence | ].
  run. destruct (int_log2 (rows (array_at (heap s) l))) as [e' | k];
    [ run; intros He; right; left; congruence | ].
  destruct (negb (n_qubits s =? k));
    [ run; intros He; right; right; left; congruence | ].
  run.
  pose proof (is_valid_quantum_state_not_false (array_at (heap s) l)
                lit_1e_05 lit_1e_08) as Hnf.
  destruct (_is_valid_quantum_state (array_at (heap s) l) lit_1e_05 lit_1e_08)
    as [e' | [|]]; run; intros He.
  - right; right; right; congruence.
  - discriminate.
  - exfalso. now apply Hnf.
Qed.
End CheckerAnswers.

(** ** The dimension tests of [set_initial_state], case by case *)

Section Dimensions.
Context {C : Type} `{Runtime C}.
Import ReferenceDensitySimulator.

(** X3: what [set_initial_state] does with a matrix, by its shape alone, on
    an engine of [n] qubits: a matrix that is not square is refused as not
    square; an empty one (0 x 0) makes [int(np.log2(0))] raise OverflowError;
    a square one with fewer than [2 ** n] rows, or with [2 ** (n + 1)] rows
    or more, is refused as defined on another number of qubits; every other
    one, with [2 ** n <= rows < 2 ** (n + 1)], goes to the validity checker
    and is installed when the checker accepts it.  In each refusal the
    engine is as before. *)
Theorem set_initial_state_by_shape (s : self) (l : loc) :
  let m := array_at (heap s) l in
  let n := n_qubits s in
  (rows m <> cols m -> set_initial_state (Some l) s = (Err not_square, s))
  /\ (rows m = cols m -> rows m = 0 ->
      set_initial_state (Some l) s
      = (Err (Raise OverflowError [Text "cannot convert float infinity to integer"]),
         s))
  /\ (rows m = cols m -> 0 < rows m ->
      rows m < 2 ^ n \/ 2 ^ (n + 1) <= rows m ->
      set_initial_state (Some l) s = (Err wrong_number_of_qubits, s))
  /\ (rows m = cols m -> 2 ^ n <= rows m < 2 ^ (n + 1) ->
      forall e, _is_valid_quantum_state m lit_1e_05 lit_1e_08 = Err e ->
      set_initial_state (Some l) s = (Err e, s))
  /\ (rows m = cols m -> 2 ^ n <= rows m < 2 ^ (n + 1) ->
      _is_valid_quantum_state m lit_1e_05 lit_1e_08 = Ok true ->
      set_initial_state (Some l) s = (Ok tt, set_initial_density l s)).
Proof.
  intros m n. subst n. unfold set_initial_state, deref. run. fold m.
  assert (Hlog : forall r, 0 < r -> (n_qubits s = Nat.log2 r
                             <-> 2 ^ n_qubits s <= r < 2 ^ (n_qubits s + 1))).
  { intros r Hr. split.
    - intros ->. replace (Nat.log2 r + 1) with (S (Nat.log2 r)) by lia.
      apply Nat.log2_spec. exact Hr.
    - intros Hrange. symmetry. apply Nat.log2_unique; [lia | ].
      replace (S (n_qubits s)) with (n_qubits s + 1) by lia. exact Hrange. }
  assert (Hpos : 0 < 2 ^ n_qubits s) by (apply Nat.neq_0_lt_0, Nat.pow_nonzero; lia).
  split; [intros Hne; apply Nat.eqb_neq in Hne; now rewrite Hne | ].
  split.
  { intros Hsq Hz. apply Nat.eqb_eq in Hsq. rewrite Hsq. simpl.
    rewrite Hz. reflexivity. }
  split.
  { intros Hsq Hr Hout. apply Nat.eqb_eq in Hsq. rewrite Hsq. simpl.
    destruct (rows m) as [| r] eqn:Hrows; [lia | ]. simpl int_log2. run.
    destruct (Nat.eqb_spec (n_qubits s) (Nat.log2 (S r))) as [Heq | Hneq]; [ | reflexivity].
    apply Hlog in Heq; lia. }
  split.
  { intros Hsq Hrange e He. apply Nat.eqb_eq in Hsq. rewrite Hsq. simpl.
    destruct (rows m) as [| r] eqn:Hrows; [lia | ]. simpl int_log2. run.
    destruct (Nat.eqb_spec (n_qubits s) (Nat.log2 (S r))) as [Heq | Hneq];
      [ | exfalso; apply Hneq; apply Hlog; lia].
    simpl. now rewrite He. }
  { intros Hsq Hrange Hv. apply Nat.eqb_eq in Hsq. rewrite Hsq. simpl.
    destruct (rows m) as [| r] eqn:Hrows; [lia | ]. simpl int_log2. run.
    destruct (Nat.eqb_spec (n_qubits s) (Nat.log2 (S r))) as [Heq | Hneq];
      [ | exfalso; apply Hneq; apply Hlog; lia].
    simpl. now rewrite Hv. }
Qed.
End Dimensions.

(** ** Restoring the default initial state *)

Section DefaultState.
Context {C : Type} `{Runtime C}.
Import ReferenceDensitySimulator.

(** X5: [set_initial_state(None)] followed by [reset()] restores the
    default: both calls return, the current density matrix is then the
    all-zeros projector of the engine's size, the matrix [__init__] starts
    from, and it is a new array: every array that existed is as it was. *)
Theorem none_then_reset_restores_default (s : self) :
  let s1 := snd (set_initial_state None s) in
  let s2 := snd (reset s1) in
  let fresh := __init__ (n_qubits s) (rs s) (heap s) in
  fst (set_initial_state None s) = Ok tt
  /\ fst (reset s1) = Ok tt
  /\ array_at (heap s2) (density s2)
     = mset (np_zeros (2 ^ n_qubits s) (2 ^ n_qubits s)) 0 0 c1
  /\ array_at (heap s2) (density s2) = array_at (heap fresh) (density fresh)
  /\ density s2 = initial_density s2
  /\ forall l, l < length (heap s) -> array_at (heap s2) l = array_at (heap s) l.
Proof.
  unfold __init__, set_initial_state, reset, set_zero_projector, alloc, deref, store.
  run.
  assert (Hnew : array_at
            (<[length (heap s) :=
                 mset (array_at (heap s ++ [np_zeros (2 ^ n_qubits s) (2 ^ n_qubits s)])
                         (length (heap s))) 0 0 c1]>
               (heap s ++ [np_zeros (2 ^ n_qubits s) (2 ^ n_qubits s)]))
            (length (heap s))
          = mset (np_zeros (2 ^ n_qubits s) (2 ^ n_qubits s)) 0 0 c1).
  { rewrite array_at_store_same by (rewrite length_app; simpl; lia).
    now rewrite array_at_alloc_new. }
  repeat split; try exact Hnew.
  intros l Hl. rewrite array_at_store_other by lia. now apply array_at_alloc_old.
Qed.
End DefaultState.

(** ** What the calls of the density engine keep *)

Section Preservation.
Context {C : Type} `{Runtime C} {S : Type}.
Variable I : S -> Prop.

Lemma preserves_ret {A} (a : A) : preserves I (ret a : M C S A).
Proof. intros s Hs. exact Hs. Qed.

Lemma preserves_raise {A} (e : exn C) : preserves I (raise e : M C S A).
Proof. intros s Hs. exact Hs. Qed.

Lemma preserves_gets {A} (f : S -> A) : preserves I (gets f : M C S A).
Proof. intros s Hs. exact Hs. Qed.

Lemma preserves_lift {A} (r : result C A) : preserves I (lift r : M C S A).
Proof. intros s Hs. exact Hs. Qed.

Lemma preserves_modify (f : S -> S) :
  (forall s, I s -> I (f s)) -> preserves I (modify f : M C S unit).
Proof. intros Hf s Hs. apply Hf, Hs. Qed.

Lemma preserves_bind {A B} (m : M C S A) (k : A -> M C S B) :
  preserves I m -> (forall a, preserves I (k a)) -> preserves I (bind m k).
Proof.
  intros Hm Hk s Hs. unfold bind. specialize (Hm s Hs).
  destruct (m s) as [[e | a] s1]; simpl in *; [exact Hm | now apply Hk].
Qed.

Lemma preserves_for_each {A} (xs : list A) (body : A -> M C S unit) :
  (forall x, preserves I (body x)) -> preserves I (for_each xs body).
Proof.
  intros Hbody. induction xs as [| x xs IH]; simpl.
  - apply preserves_ret.
  - apply preserves_bind; [apply Hbody | intros _; exact IH].
Qed.
End Preservation.

Ltac preserve_using tac :=
  repeat first
    [ tac
    | apply preserves_ret | apply preserves_raise | apply preserves_gets
    | apply preserves_lift
    | apply preserves_bind; [ | intros ? ] ].
Ltac preserve := preserve_using fail.

Section DensityInvariant.
Context {C : Type} `{Runtime C}.
Import ReferenceDensitySimulator.
Variable h0 : list (matrix C).
Variable n0 : nat.
Variable i0 : loc.

Lemma alloc_keeps (a : matrix C) : preserves (keeps_arrays h0 n0 i0) (alloc a).
Proof.
  intros s (Hn & Hi & added & Hh). unfold alloc. simpl.
  repeat split; try assumption. exists (added ++ [a]). now rewrite Hh, app_assoc.
Qed.

Lemma store_keeps (l : loc) (a : matrix C) :
  length h0 <= l -> preserves (keeps_arrays h0 n0 i0) (store l a).
Proof.
  intros Hl s (Hn & Hi & added & Hh). unfold store, modify. simpl.
  repeat split; try assumption. exists (<[l - length h0 := a]> added).
  rewrite Hh. now apply insert_app_r_alt.
Qed.

Lemma set_density_keeps (l : loc) :
  preserves (keeps_arrays h0 n0 i0) (modify (set_density l) : M C self unit).
Proof. apply preserves_modify. intros s Hs. exact Hs. Qed.

Lemma set_rs_keeps (g : option RandomState) :
  preserves (keeps_arrays h0 n0 i0) (modify (set_rs g) : M C self unit).
Proof. apply preserves_modify. intros s Hs. exact Hs. Qed.

Lemma conjugate_by_keeps (u : matrix C) :
  preserves (keeps_arrays h0 n0 i0) (conjugate_by u).
Proof.
  unfold conjugate_by, deref. preserve; [apply alloc_keeps | apply set_density_keeps].
Qed.

Lemma collapse_with_keeps (measure : matrix C) (prob : C) :
  preserves (keeps_arrays h0 n0 i0) (collapse_with measure prob).
Proof.
  unfold collapse_with, deref. preserve; [apply alloc_keeps | apply set_density_keeps].
Qed.

Lemma do_measurement_keeps (qubit : nat) :
  preserves (keeps_arrays h0 n0 i0) (do_measurement qubit).
Proof.
  unfold do_measurement, deref. apply preserves_bind; [apply preserves_gets | ].
  intros [g | ]; [ | apply preserves_raise].
  preserve_using ltac:(apply set_rs_keeps).
  destruct (cltb _ _); preserve_using ltac:(apply collapse_with_keeps).
Qed.

Lemma sample_bitstrings_keeps (n_samples : nat) (tol_factor : C) :
  preserves (keeps_arrays h0 n0 i0) (sample_bitstrings n_samples tol_factor).
Proof.
  unfold sample_bitstrings, deref. apply preserves_bind; [apply preserves_gets | ].
  intros [g | ]; [ | apply preserves_raise].
  preserve. apply set_rs_keeps.
Qed.

Lemma add_kraus_term_keeps (q : nat) (new_density : loc) (k : matrix C) :
  length h0 <= new_density ->
  preserves (keeps_arrays h0 n0 i0) (add_kraus_term q new_density k).
Proof.
  intros Hl. unfold add_kraus_term, deref. preserve. now apply store_keeps.
Qed.

Lemma apply_kraus_ops_keeps (kraus_ops : list (matrix C)) (q : nat) :
  preserves (keeps_arrays h0 n0 i0) (apply_kraus_ops kraus_ops q).
Proof.
  intros s Hs. unfold apply_kraus_ops, deref.
  unfold bind at 1. unfold gets at 1. unfold bind at 1. unfold gets at 1.
  unfold bind at 1. unfold alloc at 1. unfold Ok.
  assert (Hlen : length h0 <= length (heap s)).
  { destruct Hs as (_ & _ & added & Hh). rewrite Hh, length_app. lia. }
  apply (preserves_bind (keeps_arrays h0 n0 i0)).
  - apply preserves_for_each. intros k. now apply add_kraus_term_keeps.
  - intros _. apply set_density_keeps.
  - now apply (alloc_keeps (np_zeros_like (array_at (heap s) (density s)))).
Qed.

Lemma do_post_gate_noise_keeps (noise_type : string) (noise_prob : C)
    (qubits : list nat) :
  preserves (keeps_arrays h0 n0 i0) (do_post_gate_noise noise_type noise_prob qubits).
Proof.
  unfold do_post_gate_noise.
  destruct (KRAUS_OPS !! noise_type) as [operators | ]; [ | apply preserves_raise].
  destruct (np_isclose _ _ _ _).
  - unfold warn. apply preserves_modify. intros s Hs. exact Hs.
  - apply preserves_for_each. intros q. apply apply_kraus_ops_keeps.
Qed.

Lemma density_state_after_keeps (c : density_call) (s : self) :
  keeps_arrays h0 n0 i0 s -> keeps_arrays h0 n0 i0 (density_state_after c s).
Proof.
  intros Hs. destruct c; cbn [density_state_after].
  - now apply sample_bitstrings_keeps.
  - revert s Hs. unfold do_gate. preserve_using ltac:(apply conjugate_by_keeps).
  - revert s Hs. unfold do_gate_matrix. preserve_using ltac:(apply conjugate_by_keeps).
  - now apply do_measurement_keeps.
  - exact Hs.
  - exact Hs.
  - now apply do_post_gate_noise_keeps.
Qed.

Lemma density_calls_keep (calls : list density_call) :
  forall s, keeps_arrays h0 n0 i0 s -> keeps_arrays h0 n0 i0 (density_calls calls s).
Proof.
  unfold density_calls.
  induction calls as [| c calls IH]; intros s Hs; [exact Hs | ].
  simpl. apply IH. now apply density_state_after_keeps.
Qed.
End DensityInvariant.

Section DensityReset.
Context {C : Type} `{Runtime C}.
Import ReferenceDensitySimulator.

(** X6: gates, noise, measurements, sampling and resets never touch the
    configured initial state of the density engine.  After any sequence of
    such calls, whether they returned or raised, the number of qubits and
    the reference [initial_density] are as before, every array that existed
    holds what it held (the calls only add arrays), and a [reset()] makes
    the current density matrix the initial state that was configured, entry
    for entry. *)
Theorem density_calls_keep_initial_state (calls : list density_call) (s : self) :
  let s' := density_calls calls s in
  n_qubits s' = n_qubits s
  /\ initial_density s' = initial_density s
  /\ (exists added, heap s' = heap s ++ added)
  /\ (forall l, l < length (heap s) -> array_at (heap s') l = array_at (heap s) l)
  /\ (initial_density s < length (heap s) ->
      array_at (heap (snd (reset s'))) (density (snd (reset s')))
      = array_at (heap s) (initial_density s)).
Proof.
  intros s'.
  destruct (density_calls_keep (heap s) (n_qubits s) (initial_density s) calls s)
    as (Hn & Hi & added & Hh).
  { repeat split. exists []. now rewrite app_nil_r. }
  fold s' in Hn, Hi, Hh.
  assert (Hold : forall l, l < length (heap s) ->
                   array_at (heap s') l = array_at (heap s) l).
  { intros l Hl. unfold array_at. rewrite Hh. now rewrite lookup_app_l. }
  repeat split; try assumption.
  - now exists added.
  - intros Hl. unfold reset. run. rewrite Hi. now apply Hold.
Qed.
End DensityReset.

(** ** The length of the state vector *)

Section WavefunctionInvariant.
Context {C : Type} `{Runtime C}.
Import ReferenceWavefunctionSimulator.

Lemma np_matvec_vlen (u : matrix C) (psi psi' : vector C) :
  np_matvec u psi = Ok psi' -> vlen psi' = rows u.
Proof.
  unfold np_matvec. destruct (cols u =? vlen psi); [ | discriminate].
  intros Hok. injection Hok as <-. reflexivity.
Qed.

Lemma np_matmul_rows (a b m : matrix C) :
  np_matmul a b = Ok m -> rows m = rows a.
Proof.
  unfold np_matmul. destruct (cols a =? rows b); [ | discriminate].
  intros Hok. injection Hok as <-. reflexivity.
Qed.

Lemma apply_operator_well_sized (n0 : nat) (lifted : nat -> result C (matrix C)) :
  (forall u, lifted n0 = Ok u -> rows u = 2 ^ n0) ->
  preserves (well_sized n0)
    (let! n := gets n_qubits in
     let! unitary := lift (lifted n) in
     let! psi := gets wf in
     let! psi' := lift (np_matvec unitary psi) in
     modify (set_wf psi')).
Proof.
  intros Hrows s [Hn Hlen]. unfold bind, lift, gets, modify. rewrite Hn.
  destruct (lifted n0) as [e | u] eqn:Hu; [now split | ].
  destruct (np_matvec u (wf s)) as [e | psi'] eqn:Hmv; [now split | ].
  unfold well_sized. simpl. split; [exact Hn | ].
  rewrite (np_matvec_vlen _ _ _ Hmv). now apply Hrows.
Qed.

Lemma wavefunction_state_after_well_sized (n0 : nat) (c : wavefunction_call)
    (s : self) :
  lifters_give_full_operators ->
  well_sized n0 s -> well_sized n0 (wavefunction_state_after c s).
Proof.
  intros [Hmatrix Hgate] Hs. destruct c; cbn [wavefunction_state_after].
  - revert s Hs. unfold sample_bitstrings.
    apply preserves_bind; [apply preserves_gets | ].
    intros [g | ]; [ | apply preserves_raise].
    preserve. apply preserves_modify. intros s Hs. exact Hs.
  - apply (apply_operator_well_sized n0 (lifted_gate gate)); [ | exact Hs].
    intros u Hu. apply Hgate in Hu. unfold shape in Hu. congruence.
  - apply (apply_operator_well_sized n0 (lifted_gate_matrix operator qubits));
      [ | exact Hs].
    intros u Hu. apply Hmatrix in Hu. unfold shape in Hu. congruence.
  - destruct Hs as [Hn Hlen]. unfold well_sized, do_measurement.
    unfold bind, gets, lift, modify, ret, raise. cbv beta iota.
    destruct (rs s) as [g | ]; [ | split; [exact Hn | exact Hlen]].
    destruct (lifted_gate_matrix P0 [qubit] (n_qubits s)) as [e | measure_0] eqn:H0';
      [split; [exact Hn | exact Hlen] | ].
    destruct (np_matvec measure_0 (wf s)) as [e | proj_psi];
      [split; [exact Hn | exact Hlen] | ].
    destruct (np_inner (np_conj1 proj_psi) proj_psi) as [e | prob_zero];
      [split; [exact Hn | exact Hlen] | ].
    cbv beta iota.
    destruct (cltb (fst (rs_uniform g)) prob_zero).
    + destruct (np_matmul measure_0 _) as [e | u] eqn:Hu;
        [split; [exact Hn | exact Hlen] | ].
      destruct (np_matvec u _) as [e | psi'] eqn:Hmv;
        [split; [exact Hn | exact Hlen] | ].
      split; [exact Hn | ]. cbn [snd wf set_wf].
      rewrite (np_matvec_vlen _ _ _ Hmv), (np_matmul_rows _ _ _ Hu).
      apply Hmatrix in H0'. unfold shape in H0'. congruence.
    + destruct (lifted_gate_matrix P1 [qubit] _) as [e | measure_1] eqn:H1';
        [split; [exact Hn | exact Hlen] | ].
      destruct (np_matmul measure_1 _) as [e | u] eqn:Hu;
        [split; [exact Hn | exact Hlen] | ].
      destruct (np_matvec u _) as [e | psi'] eqn:Hmv;
        [split; [exact Hn | exact Hlen] | ].
      split; [exact Hn | ]. cbn [snd wf set_wf].
      rewrite (np_matvec_vlen _ _ _ Hmv), (np_matmul_rows _ _ _ Hu).
      apply Hmatrix in H1'. unfold shape in H1'. congruence.
  - unfold reset, bind, gets, modify. simpl. destruct Hs as [Hn Hlen].
    split; [exact Hn | exact Hlen].
  - exact Hs.
Qed.

(** X7: the state vector of the wavefunction engine always has
    [2 ** n_qubits] amplitudes, provided the lifters return operators of
    the full space: after any sequence of calls that started from
    [__init__], returned or raised, the length is [2 ** n]; and [reset()]
    then puts the engine back in the state [__init__] builds, except that
    the generator is not rewound. *)
Theorem wavefunction_calls_keep_length (n : nat) (g : option RandomState)
    (calls : list wavefunction_call) :
  lifters_give_full_operators ->
  let s := wavefunction_calls calls (__init__ n g) in
  n_qubits s = n
  /\ vlen (wf s) = 2 ^ n
  /\ reset s = (Ok tt, __init__ n (rs s)).
Proof.
  intros Hlift s.
  assert (Hs : well_sized n s).
  { unfold s, wavefunction_calls.
    assert (Hinit : well_sized n (__init__ n g)) by (split; reflexivity).
    revert Hinit. generalize (__init__ n g).
    induction calls as [| c calls IH]; intros s0 Hs0; [exact Hs0 | ].
    simpl. apply IH. now apply wavefunction_state_after_well_sized. }
  destruct Hs as [Hn Hlen]. repeat split; try assumption.
  unfold reset, bind, gets, modify, __init__, set_wf. rewrite Hn, Hlen. reflexivity.
Qed.
End WavefunctionInvariant.

(** ** The wavefunction engine: [expectation] *)

Section ExpectationErrors.
Context {C : Type} `{Runtime C}.
Import ReferenceWavefunctionSimulator.
Import Expectation.
Variable QUANTUM_GATES : gmap string (matrix C).

Lemma apply_ops_unknown (items : list (nat * string)) (n : nat)
    (qubit_i : nat) (op_str : string) :
  In (qubit_i, op_str) items -> QUANTUM_GATES !! op_str = None ->
  forall wf2, exists e, apply_ops QUANTUM_GATES items n wf2 = Err e.
Proof.
  intros Hin Hnone. induction items as [| [q name] items IH]; [destruct Hin | ].
  intros wf2. cbn [apply_ops].
  destruct (QUANTUM_GATES !! name) as [op_mat | ] eqn:Hname; [ | now eexists].
  destruct Hin as [Heq | Hin]; [congruence | ].
  destruct (lifted_gate_matrix op_mat [q] n) as [e | lifted]; [now eexists | ].
  cbn [rbind].
  destruct (np_matvec lifted wf2) as [e | wf2']; [now eexists | ].
  cbn [rbind]. now apply IH.
Qed.

Lemma sum_of_terms_unknown (terms : list (PauliTerm C)) (psi : vector C) (n : nat)
    (term : PauliTerm C) (qubit_i : nat) (op_str : string) :
  In term terms -> In (qubit_i, op_str) (_ops term) ->
  QUANTUM_GATES !! op_str = None ->
  forall total, exists e, sum_of_terms QUANTUM_GATES psi n terms total = Err e.
Proof.
  intros Hterm Hin Hnone. induction terms as [| t terms IH]; [destruct Hterm | ].
  intros total. cbn [sum_of_terms].
  destruct Hterm as [-> | Hterm].
  - unfold _term_expectation.
    destruct (apply_ops_unknown (_ops term) n qubit_i op_str Hin Hnone psi)
      as [e He].
    rewrite He. now eexists.
  - destruct (_term_expectation QUANTUM_GATES psi t n) as [e | value];
      [now eexists | ].
    cbn [rbind]. now apply IH.
Qed.

(** X8: [expectation] of the wavefunction engine only reads the engine: the
    state is the same after the call, returned or raised.  And it returns a
    value only when every operator name of every term is a key of
    [QUANTUM_GATES]: a single unknown name, in any term at any position,
    makes the call raise. *)
Theorem expectation_needs_known_operators (operator : pauli_operator C)
    (terms : list (PauliTerm C)) (term : PauliTerm C) (qubit_i : nat)
    (op_str : string) (s : self) :
  In term terms -> In (qubit_i, op_str) (_ops term) ->
  QUANTUM_GATES !! op_str = None ->
  snd (expectation QUANTUM_GATES operator s) = s
  /\ exists e, expectation QUANTUM_GATES (Pauli_sum terms) s = (Err e, s).
Proof.
  intros Hterm Hin Hnone. split; [reflexivity | ].
  unfold expectation, bind, gets, lift.
  destruct (sum_of_terms_unknown terms (wf s) (n_qubits s) term qubit_i op_str
              Hterm Hin Hnone c0) as [e He].
  exists e. now rewrite He.
Qed.
End ExpectationErrors.

(** ** Exact arithmetic: [expectation] *)

Section ExactExpectation.
Context {RT : Runtime Exact.complex}.
Import ReferenceWavefunctionSimulator.
Import Expectation.
Variable QUANTUM_GATES : gmap string (matrix Exact.complex).

Lemma sum_of_terms_app (psi : vector Exact.complex) (n : nat)
    (ts1 ts2 : list (PauliTerm Exact.complex)) :
  forall total,
    sum_of_terms QUANTUM_GATES psi n (ts1 ++ ts2) total
    = (let? v1 := sum_of_terms QUANTUM_GATES psi n ts1 total in
       sum_of_terms QUANTUM_GATES psi n ts2 v1).
Proof.
  induction ts1 as [| t ts1 IH]; intros total; [reflexivity | ].
  cbn [app sum_of_terms].
  destruct (_term_expectation QUANTUM_GATES psi t n) as [e | v]; [reflexivity | ].
  cbn [rbind]. apply IH.
Qed.

Lemma sum_of_terms_total (psi : vector Exact.complex) (n : nat)
    (ts : list (PauliTerm Exact.complex)) :
  forall total,
    sum_of_terms QUANTUM_GATES psi n ts total
    = (let? v := sum_of_terms QUANTUM_GATES psi n ts c0 in Ok (cadd total v)).
Proof.
  induction ts as [| t ts IH]; intros total; cbn [sum_of_terms rbind].
  - unfold Ok. cbn [rbind]. f_equal. ring.
  - destruct (_term_expectation QUANTUM_GATES psi t n) as [e | v]; [reflexivity | ].
    cbn [rbind]. rewrite (IH (cadd total v)), (IH (cadd c0 v)).
    destruct (sum_of_terms QUANTUM_GATES psi n ts c0) as [e | w]; [reflexivity | ].
    unfold Ok. cbn [rbind]. f_equal. ring.
Qed.

(** X9, in exact arithmetic: [expectation] is linear.  The value for a
    sum of terms is the value for the first terms plus the value for the
    remaining ones (and the call raises what the first failing part
    raises); the value for a term is its coefficient times the value for
    the same operators with coefficient one. *)
Theorem expectation_is_linear (ts1 ts2 : list (PauliTerm Exact.complex))
    (term : PauliTerm Exact.complex) (s : self) :
  fst (expectation QUANTUM_GATES (Pauli_sum (ts1 ++ ts2)) s)
  = (let? v1 := fst (expectation QUANTUM_GATES (Pauli_sum ts1) s) in
     let? v2 := fst (expectation QUANTUM_GATES (Pauli_sum ts2) s) in
     Ok (cadd v1 v2))
  /\ fst (expectation QUANTUM_GATES (Pauli_term term) s)
     = (let? v := fst (expectation QUANTUM_GATES
                         (Pauli_term {| _ops := _ops term; coefficient := c1 |}) s) in
        Ok (cmul (coefficient term) v)).
Proof.
  unfold expectation, bind, gets, lift. cbn [fst]. split.
  - rewrite sum_of_terms_app.
    destruct (sum_of_terms QUANTUM_GATES (wf s) (n_qubits s) ts1 c0) as [e | v1];
      [reflexivity | ].
    cbn [rbind]. apply sum_of_terms_total.
  - cbn [sum_of_terms]. unfold _term_expectation. cbn [_ops coefficient].
    destruct (apply_ops QUANTUM_GATES (_ops term) (n_qubits s) (wf s)) as [e | wf2];
      [reflexivity | ].
    cbn [rbind].
    destruct (np_inner (np_conj1 (wf s)) wf2) as [e | overlap]; [reflexivity | ].
    unfold Ok. cbn [rbind]. f_equal. ring.
Qed.

(** X10, in exact arithmetic: the expectation of the identity.  After any
    sequence of gates with unitary operators, started from [__init__], the
    expectation of the term without operators is its coefficient: the state
    has norm one. *)
Theorem expectation_of_identity (n : nat) (g : option RandomState)
    (calls : list gate_call) (c : Exact.complex) :
  Forall (unitary_call n) calls ->
  let s := snd (for_each calls run_call (__init__ n g)) in
  expectation QUANTUM_GATES (Pauli_term {| _ops := []; coefficient := c |}) s
  = (Ok c, s).
Proof.
  intros Hall s.
  destruct (unitary_calls_keep_norm calls (__init__ n g)) as (_ & _ & _ & Hnorm);
    [reflexivity | exact Hall | ].
  fold s in Hnorm. rewrite initial_state_has_norm_one in Hnorm.
  unfold expectation, bind, gets, lift. cbn [sum_of_terms].
  unfold _term_expectation. cbn [_ops coefficient apply_ops]. unfold Ok.
  cbn [rbind]. unfold np_inner. cbn [vlen np_conj1]. rewrite Nat.eqb_refl.
  unfold Ok. cbn [rbind vget np_conj1].
  unfold norm_squared in Hnorm. rewrite Hnorm. f_equal. f_equal. ring.
Qed.
End ExactExpectation.

(** ** The density engine: what a conjugation computes *)

Section ConjugationRuns.
Context {C : Type} `{Runtime C}.
Import ReferenceDensitySimulator.

(** [conjugate_by] on shapes that fit: a new array holds [U ρ U†] and
    [density] refers to it. *)
Lemma conjugate_by_run (u : matrix C) (s : self) :
  let rho := array_at (heap s) (density s) in
  cols u = rows rho -> cols rho = cols u ->
  conjugate_by u s
  = (Ok tt, set_density (length (heap s)) (set_heap (heap s ++ [sandwich u rho]) s)).
Proof.
  intros rho Hin Hout. unfold conjugate_by, deref, alloc.
  unfold bind, gets, lift, modify. cbv beta. fold rho. unfold np_matmul, Ok.
  apply Nat.eqb_eq in Hin. rewrite Hin. cbv beta iota.
  cbn [rows cols np_transpose np_conj mget].
  apply Nat.eqb_eq in Hout. rewrite Hout. reflexivity.
Qed.

(** On shapes that do not fit it raises numpy's error and changes nothing. *)
Lemma conjugate_by_misfit (u : matrix C) (s : self) :
  let rho := array_at (heap s) (density s) in
  cols u <> rows rho \/ cols rho <> cols u ->
  conjugate_by u s = (Err shapes_not_aligned, s).
Proof.
  intros rho Hbad. unfold conjugate_by, deref, alloc.
  unfold bind, gets, lift, modify. cbv beta. fold rho. unfold np_matmul, Ok.
  destruct (Nat.eqb_spec (cols u) (rows rho)) as [Hin | Hin]; [ | reflexivity].
  cbv beta iota. cbn [rows cols np_transpose np_conj mget].
  destruct (Nat.eqb_spec (cols rho) (cols u)) as [Hout | Hout]; [ | reflexivity].
  destruct Hbad; contradiction.
Qed.

(** The same for a branch of [do_measurement], where the conjugating
    operator is [measure @ (np.eye(2 ** n) / np.sqrt(prob))]. *)
Lemma collapse_with_run (measure : matrix C) (prob : C) (s : self) :
  let rho := array_at (heap s) (density s) in
  shape rho = (2 ^ n_qubits s, 2 ^ n_qubits s) ->
  collapse_with measure prob s
  = match np_matmul measure
            (np_divide_scalar (np_eye (2 ^ n_qubits s)) (csqrt prob)) with
    | inl e => (inl e, s)
    | inr u =>
        (Ok tt,
         set_density (length (heap s)) (set_heap (heap s ++ [sandwich u rho]) s))
    end.
Proof.
  intros rho Hshape. unfold shape in Hshape. injection Hshape as Hrows Hcols.
  unfold collapse_with, deref, alloc. unfold bind at 1. unfold gets at 1.
  unfold bind at 1. unfold lift at 1.
  destruct (np_matmul measure _) as [e | u] eqn:Hu; [reflexivity | ].
  assert (Hcu : cols u = 2 ^ n_qubits s).
  { unfold np_matmul in Hu. destruct (cols measure =? _); [ | discriminate].
    injection Hu as <-. reflexivity. }
  unfold bind, gets, lift, modify. cbv beta. fold rho. unfold np_matmul, Ok.
  rewrite Hcu, Hrows, Nat.eqb_refl. cbv beta iota.
  cbn [rows cols np_transpose np_conj mget].
  rewrite Hcols, Hcu, Nat.eqb_refl. unfold sandwich. rewrite Hcols, Hcu.
  reflexivity.
Qed.
End ConjugationRuns.

(** ** Exact arithmetic: the density engine *)

Section ExactDensity.
Context {RT : Runtime Exact.complex}.
Import ReferenceDensitySimulator.

(** The trace of [U ρ U†] is the trace of [ρ (U† U)]. *)
Lemma sandwich_trace_gram (u rho : matrix Exact.complex) (N : nat) :
  shape u = (N, N) -> shape rho = (N, N) ->
  np_trace (sandwich u rho)
  = csum N (fun l => csum N (fun k =>
      cmul (mget rho l k)
           (csum N (fun i => cmul (cconj (mget u i k)) (mget u i l))))).
Proof.
  intros Hu Hrho. unfold shape in Hu, Hrho.
  injection Hu as Hur Huc. injection Hrho as Hrr Hrc.
  unfold np_trace, sandwich. cbn [rows cols mget].
  rewrite Hur, Huc, Hrc, Nat.min_id.
  transitivity
    (csum N (fun i => csum N (fun l => csum N (fun k =>
       cmul (mget rho l k) (cmul (cconj (mget u i k)) (mget u i l)))))).
  - apply csum_ext. intros i Hi.
    rewrite (csum_ext N _
               (fun k => csum N (fun l =>
                  cmul (mget rho l k) (cmul (cconj (mget u i k)) (mget u i l))))).
    + apply csum_swap.
    + intros k Hk. rewrite csum_mul_r. apply csum_ext. intros l Hl. ring.
  - rewrite csum_swap. apply csum_ext. intros l Hl.
    rewrite csum_swap. apply csum_ext. intros k Hk.
    now rewrite csum_mul_l.
Qed.

(** The trace of [ρ G] when [G] is the identity. *)
Lemma trace_against_identity (rho : matrix Exact.complex) (N : nat)
    (G : nat -> nat -> Exact.complex) :
  shape rho = (N, N) ->
  (forall k l, k < N -> l < N -> G k l = if k =? l then c1 else c0) ->
  csum N (fun l => csum N (fun k => cmul (mget rho l k) (G k l))) = np_trace rho.
Proof.
  intros Hrho HG. unfold shape in Hrho. injection Hrho as Hrr Hrc.
  unfold np_trace. rewrite Hrr, Hrc, Nat.min_id.
  apply csum_ext. intros l Hl.
  rewrite (csum_ext N _
             (fun k => cmul (mget rho l k) (if k =? l then c1 else c0))).
  - rewrite csum_delta by assumption. ring.
  - intros k Hk. now rewrite HG.
Qed.

(** The trace of [U ρ U†] is the trace of [ρ] when [U† U] is the identity. *)
Lemma sandwich_trace (u rho : matrix Exact.complex) (N : nat) :
  shape u = (N, N) -> shape rho = (N, N) -> unitary u ->
  np_trace (sandwich u rho) = np_trace rho.
Proof.
  intros Hu Hrho [_ Hunit].
  rewrite (sandwich_trace_gram u rho N Hu Hrho).
  unfold shape in Hu. injection Hu as Hur Huc. rewrite Hur, Huc in Hunit.
  apply (trace_against_identity rho N
           (fun k l => csum N (fun i => cmul (cconj (mget u i k)) (mget u i l))));
    assumption.
Qed.

(** [U ρ U†] is Hermitian when [ρ] is. *)
Lemma sandwich_hermitian (u rho : matrix Exact.complex) (N : nat) :
  cols u = N -> shape rho = (N, N) -> hermitian rho -> hermitian (sandwich u rho).
Proof.
  intros Huc Hrho [_ Hh]. unfold shape in Hrho. injection Hrho as Hrr Hrc.
  rewrite Hrr in Hh.
  split; [reflexivity | ]. cbn [rows cols mget sandwich]. intros i j Hi Hj.
  rewrite Huc, Hrc. rewrite csum_conj.
  transitivity
    (csum N (fun k => csum N (fun l =>
       cmul (cmul (mget u i l) (mget rho l k)) (cconj (mget u j k))))).
  { apply csum_ext. intros k Hk. now rewrite csum_mul_r. }
  rewrite csum_swap. apply csum_ext. intros l Hl.
  rewrite cconj_mul, csum_conj, csum_mul_r. apply csum_ext. intros k Hk.
  rewrite cconj_mul. rewrite (Hh l k Hl Hk).
  destruct (mget u j k), (mget rho k l), (mget u i l). cbn.
  unfold Exact.mul, Exact.conj. cbn [fst snd]. f_equal; ring.
Qed.

(** [U |ψ⟩⟨ψ| U†] is [|Uψ⟩⟨Uψ|]. *)
Lemma sandwich_outer (u rho : matrix Exact.complex) (psi psi' : vector Exact.complex) :
  mat_eq rho (outer psi) -> np_matvec u psi = Ok psi' ->
  mat_eq (sandwich u rho) (outer psi').
Proof.
  intros [Hshape Hentries] Hmv. unfold shape in Hshape. cbn [rows cols outer] in Hshape.
  injection Hshape as Hrr Hrc. unfold np_matvec in Hmv.
  destruct (Nat.eqb_spec (cols u) (vlen psi)) as [Huc | ]; [ | discriminate].
  injection Hmv as <-.
  split; [reflexivity | ]. cbn [rows cols mget sandwich outer vlen vget].
  intros i j Hi Hj. rewrite Hrc, Huc.
  rewrite csum_conj, csum_mul_l. apply csum_ext. intros k Hk.
  rewrite csum_mul_r, csum_mul_r. apply csum_ext. intros l Hl.
  rewrite Hentries by lia. cbn [mget outer]. rewrite cconj_mul.
  change Exact.mul with (@cmul Exact.complex Exact.numeric). ring.
Qed.

(** X11, in exact arithmetic: a unitary gate keeps the density matrix a
    density matrix.  On an engine whose density matrix has the engine's
    shape, [do_gate] and [do_gate_matrix] with an operator whose lifting is
    unitary return, and the new density matrix has the same shape and the
    same trace, and is Hermitian if the old one was. *)
Theorem density_gate_keeps_trace (s : self) (c : gate_call) :
  shape (array_at (heap s) (density s)) = (2 ^ n_qubits s, 2 ^ n_qubits s) ->
  unitary_call (n_qubits s) c ->
  let rho := array_at (heap s) (density s) in
  let out := run_density_call c s in
  let rho' := array_at (heap (snd out)) (density (snd out)) in
  fst out = Ok tt
  /\ n_qubits (snd out) = n_qubits s
  /\ shape rho' = (2 ^ n_qubits s, 2 ^ n_qubits s)
  /\ np_trace rho' = np_trace rho
  /\ (hermitian rho -> hermitian rho').
Proof.
  intros Hrho (u & Hlift & Hu & Hunit) rho out rho'.
  assert (Hrun : out = (Ok tt, set_density (length (heap s))
                                 (set_heap (heap s ++ [sandwich u rho]) s))).
  { unfold out. unfold shape in Hu, Hrho.
    injection Hu as Hur Huc. injection Hrho as Hrr Hrc.
    destruct c as [gate | operator qubits];
      cbn [run_density_call lifted_operator] in *;
      [unfold do_gate | unfold do_gate_matrix];
      unfold bind at 1; unfold gets at 1; unfold bind at 1; unfold lift at 1;
      unfold Ok in Hlift; rewrite Hlift;
      apply conjugate_by_run; congruence. }
  assert (Hnew : rho' = sandwich u rho).
  { unfold rho'. rewrite Hrun. cbn [snd heap density set_density set_heap].
    apply array_at_alloc_new. }
  rewrite Hnew. rewrite Hrun. cbn [fst snd].
  split; [reflexivity | ]. split; [reflexivity | ].
  split; [unfold shape in *; cbn [rows cols sandwich]; congruence | ].
  split; [now apply (sandwich_trace u rho (2 ^ n_qubits s)) | ].
  apply (sandwich_hermitian u rho (2 ^ n_qubits s)); [ | assumption].
  unfold shape in Hu. congruence.
Qed.
End ExactDensity.

(** ** Exact arithmetic: the two engines on pure states *)

Section ExactEngines.
Context {RT : Runtime Exact.complex}.

(** The probability the density engine computes, [Tr(M ρ)], is [⟨ψ|M|ψ⟩]
    on the pure state [ρ = |ψ⟩⟨ψ|]. *)
Lemma trace_of_projected (m rho projected : matrix Exact.complex)
    (psi : vector Exact.complex) (N : nat) :
  shape m = (N, N) -> vlen psi = N -> mat_eq rho (outer psi) ->
  np_matmul m rho = Ok projected ->
  np_trace projected = braket m psi.
Proof.
  intros Hm Hlen [Hshape Hentries] Hprod. unfold shape in Hm, Hshape.
  cbn [rows cols outer] in Hshape. injection Hm as Hmr Hmc.
  injection Hshape as Hrr Hrc. unfold np_matmul in Hprod.
  destruct (cols m =? rows rho); [ | discriminate]. injection Hprod as <-.
  unfold np_trace, braket. cbn [rows cols mget].
  rewrite Hmr, Hmc, Hrc, Hlen, Nat.min_id.
  apply csum_ext. intros i Hi. rewrite csum_mul_l. apply csum_ext. intros k Hk.
  rewrite Hentries by lia. cbn [mget outer].
  change Exact.mul with (@cmul Exact.complex Exact.numeric). ring.
Qed.

(** X12, in exact arithmetic: the two engines agree on gates.  When the
    density matrix is [|ψ⟩⟨ψ|] for the state vector [ψ] of a wavefunction
    engine, [do_gate] and [do_gate_matrix] with the same arguments do the
    same on both: they raise the same exception or both return, and the
    density matrix is then [|ψ'⟩⟨ψ'|] for the new state vector [ψ'].  No
    assumption is made on the operator. *)
Theorem engines_agree_on_gates (c : gate_call)
    (w : ReferenceWavefunctionSimulator.self)
    (d : ReferenceDensitySimulator.self) :
  same_pure_state w d ->
  fst (run_call c w) = fst (run_density_call c d)
  /\ same_pure_state (snd (run_call c w)) (snd (run_density_call c d)).
Proof.
  intros (Hn & Hrs & Hrho).
  set (rho := ReferenceDensitySimulator.array_at
                (ReferenceDensitySimulator.heap d)
                (ReferenceDensitySimulator.density d)) in *.
  assert (Hstep : forall lifted : result Exact.complex (matrix Exact.complex),
    let ow := (let! unitary := lift lifted in
               let! psi := gets ReferenceWavefunctionSimulator.wf in
               let! psi' := lift (np_matvec unitary psi) in
               modify (ReferenceWavefunctionSimulator.set_wf psi')) w in
    let od := (let! unitary := lift lifted in
               ReferenceDensitySimulator.conjugate_by unitary) d in
    fst ow = fst od /\ same_pure_state (snd ow) (snd od)).
  { intros [e | u]; cbv zeta; unfold bind, lift, gets, modify; cbv beta iota.
    - split; [reflexivity | exact (conj Hn (conj Hrs Hrho))].
    - pose proof Hrho as Hsame. destruct Hrho as [Hshape Hentries]. unfold shape in Hshape.
      cbn [rows cols outer] in Hshape. injection Hshape as Hrr Hrc.
      destruct (Nat.eq_dec (cols u) (vlen (ReferenceWavefunctionSimulator.wf w)))
        as [Hfit | Hmis].
      + rewrite (conjugate_by_run u d) by (fold rho; congruence).
        destruct (np_matvec u (ReferenceWavefunctionSimulator.wf w))
          as [e | psi'] eqn:Hmv.
        { unfold np_matvec in Hmv. apply Nat.eqb_eq in Hfit. rewrite Hfit in Hmv.
          discriminate. }
        cbn [fst snd]. split; [reflexivity | ].
        split; [exact Hn | ]. split; [exact Hrs | ].
        cbn [ReferenceDensitySimulator.heap ReferenceDensitySimulator.density
             ReferenceDensitySimulator.set_density ReferenceDensitySimulator.set_heap
             ReferenceWavefunctionSimulator.wf ReferenceWavefunctionSimulator.set_wf].
        rewrite array_at_alloc_new. fold rho.
        apply (sandwich_outer u rho (ReferenceWavefunctionSimulator.wf w) psi');
          [exact Hsame | exact Hmv].
      + rewrite (conjugate_by_misfit u d) by (fold rho; left; congruence).
        unfold np_matvec. apply Nat.eqb_neq in Hmis. rewrite Hmis.
        cbn [fst snd]. split; [reflexivity | exact (conj Hn (conj Hrs Hsame))]. }
  destruct c as [gate | operator qubits]; cbn [run_call run_density_call].
  - change (ReferenceDensitySimulator.do_gate gate d)
      with ((let! unitary :=
               lift (lifted_gate gate (ReferenceDensitySimulator.n_qubits d)) in
             ReferenceDensitySimulator.conjugate_by unitary) d).
    rewrite <- Hn. apply Hstep.
  - change (ReferenceDensitySimulator.do_gate_matrix operator qubits d)
      with ((let! unitary :=
               lift (lifted_gate_matrix operator qubits
                       (ReferenceDensitySimulator.n_qubits d)) in
             ReferenceDensitySimulator.conjugate_by unitary) d).
    rewrite <- Hn. apply Hstep.
Qed.

(** One branch of [do_measurement] on the two engines. *)
Lemma collapse_branch_agrees (m : matrix Exact.complex) (q : Exact.complex) (b : nat)
    (w1 : ReferenceWavefunctionSimulator.self)
    (d1 : ReferenceDensitySimulator.self) :
  same_pure_state w1 d1 ->
  vlen (ReferenceWavefunctionSimulator.wf w1)
  = 2 ^ ReferenceDensitySimulator.n_qubits d1 ->
  let E := np_divide_scalar (np_eye (2 ^ ReferenceDensitySimulator.n_qubits d1))
             (csqrt q) in
  let ow :=
    match np_matmul m E with
    | inl e => (inl e, w1)
    | inr u =>
        match np_matvec u (ReferenceWavefunctionSimulator.wf w1) with
        | inl e => (inl e, w1)
        | inr psi' => (inr b, ReferenceWavefunctionSimulator.set_wf psi' w1)
        end
    end in
  let od :=
    match ReferenceDensitySimulator.collapse_with m q d1 with
    | (inl e, s') => (inl e, s')
    | (inr _, s') => (inr b, s')
    end in
  fst ow = fst od /\ same_pure_state (snd ow) (snd od).
Proof.
  intros Hsame Hlen E ow od. pose proof Hsame as (Hn & Hrs & Hshape & Hentries).
  unfold shape in Hshape. cbn [rows cols outer] in Hshape.
  injection Hshape as Hrr Hrc.
  unfold ow, od. rewrite collapse_with_run by (unfold shape; congruence).
  fold E. destruct (np_matmul m E) as [e | u] eqn:Hu.
  - split; [reflexivity | exact Hsame].
  - assert (Hcu : cols u = 2 ^ ReferenceDensitySimulator.n_qubits d1).
    { unfold np_matmul in Hu. destruct (cols m =? rows E); [ | discriminate].
      injection Hu as <-. reflexivity. }
    destruct (np_matvec u (ReferenceWavefunctionSimulator.wf w1))
      as [e | psi'] eqn:Hmv.
    { unfold np_matvec in Hmv. rewrite Hcu, Hlen, Nat.eqb_refl in Hmv.
      discriminate. }
    unfold Ok. cbv beta iota. cbn [fst snd]. split; [reflexivity | ].
    split; [exact Hn | ]. split; [exact Hrs | ].
    cbn [ReferenceDensitySimulator.heap ReferenceDensitySimulator.density
         ReferenceDensitySimulator.set_density ReferenceDensitySimulator.set_heap
         ReferenceWavefunctionSimulator.wf ReferenceWavefunctionSimulator.set_wf].
    rewrite array_at_alloc_new.
    apply (sandwich_outer u _ (ReferenceWavefunctionSimulator.wf w1) psi');
      [ | exact Hmv].
    split; [unfold shape; cbn [rows cols outer]; congruence | exact Hentries].
Qed.

(** X13, in exact arithmetic: the two engines agree on measurements.  When
    the density matrix is [|ψ⟩⟨ψ|] for the state vector [ψ] of a
    wavefunction engine with the same generator, and the lifted [P0] is a
    projector of the full space, [do_measurement] of the same qubit does the
    same on both: the same probability is computed, the same bit is
    returned (or the same exception raised), the generators advance alike,
    and the density matrix is [|ψ'⟩⟨ψ'|] for the collapsed state vector. *)
Theorem engines_agree_on_measurement (qubit : nat)
    (w : ReferenceWavefunctionSimulator.self)
    (d : ReferenceDensitySimulator.self) (measure_0 : matrix Exact.complex) :
  same_pure_state w d ->
  vlen (ReferenceWavefunctionSimulator.wf w)
  = 2 ^ ReferenceWavefunctionSimulator.n_qubits w ->
  lifted_gate_matrix P0 [qubit] (ReferenceWavefunctionSimulator.n_qubits w)
  = Ok measure_0 ->
  shape measure_0 = (2 ^ ReferenceWavefunctionSimulator.n_qubits w,
                     2 ^ ReferenceWavefunctionSimulator.n_qubits w) ->
  projector measure_0 ->
  fst (ReferenceWavefunctionSimulator.do_measurement qubit w)
  = fst (ReferenceDensitySimulator.do_measurement qubit d)
  /\ same_pure_state (snd (ReferenceWavefunctionSimulator.do_measurement qubit w))
                     (snd (ReferenceDensitySimulator.do_measurement qubit d)).
Proof.
  intros Hsame Hlen Hlift Hm0 Hproj.
  pose proof Hsame as (Hn & Hrs & Hrho).
  set (psi := ReferenceWavefunctionSimulator.wf w) in *.
  set (rho := ReferenceDensitySimulator.array_at
                (ReferenceDensitySimulator.heap d)
                (ReferenceDensitySimulator.density d)) in *.
  rewrite Hn in Hlen, Hlift, Hm0.
  set (N := 2 ^ ReferenceDensitySimulator.n_qubits d) in *.
  assert (Hrows : rows measure_0 = N) by (unfold shape in Hm0; congruence).
  assert (Hcols : cols measure_0 = N) by (unfold shape in Hm0; congruence).
  assert (Hrshape : shape rho = (N, N)).
  { destruct Hrho as [Hshape _]. unfold shape in *. cbn [rows cols outer] in Hshape.
    fold psi in Hshape. congruence. }
  set (p := braket measure_0 psi).
  set (proj_psi := Vec N (fun i =>
         csum N (fun k => cmul (mget measure_0 i k) (vget psi k)))).
  assert (Hmv : np_matvec measure_0 psi = inr proj_psi).
  { unfold np_matvec. now rewrite Hrows, Hcols, Hlen, Nat.eqb_refl. }
  assert (Hprob : np_inner (np_conj1 proj_psi) proj_psi = inr p).
  { unfold np_inner. cbn [vlen vget np_conj1 proj_psi]. rewrite Nat.eqb_refl.
    unfold Ok. f_equal. apply born_rule; assumption. }
  destruct (np_matmul measure_0 rho) as [e | projected] eqn:Hprojected.
  { unfold np_matmul in Hprojected. unfold shape in Hrshape.
    replace (rows rho) with N in Hprojected by congruence.
    rewrite Hcols, Nat.eqb_refl in Hprojected. discriminate. }
  assert (Htrace : np_trace projected = p).
  { apply (trace_of_projected measure_0 rho projected psi N); assumption. }
  unfold ReferenceWavefunctionSimulator.do_measurement,
    ReferenceDensitySimulator.do_measurement, ReferenceDensitySimulator.deref.
  unfold bind, gets, lift, modify, ret, raise. cbv beta iota.
  rewrite <- Hrs. destruct (ReferenceWavefunctionSimulator.rs w) as [g | ];
    [ | split; [reflexivity | exact Hsame]].
  rewrite Hn. unfold Ok in Hlift. rewrite Hlift. cbv beta iota.
  fold psi. fold rho. rewrite Hmv, Hprojected. cbv beta iota.
  rewrite Hprob, Htrace. cbv beta iota.
  set (w1 := ReferenceWavefunctionSimulator.set_rs (Some (snd (rs_uniform g))) w).
  set (d1 := ReferenceDensitySimulator.set_rs (Some (snd (rs_uniform g))) d).
  assert (Hsame1 : same_pure_state w1 d1)
    by (split; [exact Hn | split; [reflexivity | exact Hrho]]).
  assert (Hlen1 : vlen (ReferenceWavefunctionSimulator.wf w1)
                  = 2 ^ ReferenceDensitySimulator.n_qubits d1) by exact Hlen.
  destruct (cltb (fst (rs_uniform g)) p).
  - exact (collapse_branch_agrees measure_0 p 0 w1 d1 Hsame1 Hlen1).
  - destruct (lifted_gate_matrix P1 [qubit] (ReferenceDensitySimulator.n_qubits d))
      as [e | measure_1]; [split; [reflexivity | exact Hsame1] | ].
    exact (collapse_branch_agrees measure_1 (csub c1 p) 1 w1 d1 Hsame1 Hlen1).
Qed.
End ExactEngines.

(** ** Sampling: the order of the qubits *)

Section QubitOrder.
Context {C : Type} `{Runtime C}.

Lemma rev_map_seq {A} (f : nat -> A) (n : nat) :
  rev (map (fun k => f (n - 1 - k)) (seq 0 n)) = map f (seq 0 n).
Proof.
  apply nth_ext with (d := f 0) (d' := f 0).
  - now rewrite length_rev, !length_map.
  - intros k Hk. rewrite length_rev, length_map, length_seq in Hk.
    rewrite rev_nth by (now rewrite length_map, length_seq).
    rewrite length_map, length_seq.
    rewrite (nth_indep _ (f 0) (f (n - 1 - 0))) by (rewrite length_map, length_seq; lia).
    rewrite (map_nth (fun k => f (n - 1 - k))), seq_nth by lia.
    rewrite (map_nth f), seq_nth by lia.
    f_equal. lia.
Qed.

Lemma all_bitstrings_lookup (n i : nat) :
  all_bitstrings n !! i
  = if i <? 2 ^ n
    then Some (map (fun k => Nat.testbit i (n - 1 - k)) (seq 0 n))
    else None.
Proof.
  unfold all_bitstrings. rewrite list_lookup_fmap.
  destruct (Nat.ltb_spec i (2 ^ n)) as [Hlt | Hge].
  - rewrite lookup_seq_lt by assumption. reflexivity.
  - rewrite lookup_seq_ge by assumption. reflexivity.
Qed.

Lemma take_rows_flipped (n : nat) (inds : list nat) :
  (let? bitstrings := take_rows (C := C) (all_bitstrings n) inds in
   Ok (map (@rev bool) bitstrings))
  = rows_of n inds.
Proof.
  unfold rows_of. induction inds as [| i inds IH]; [reflexivity | ].
  cbn [take_rows forallb map]. rewrite all_bitstrings_lookup.
  destruct (i <? 2 ^ n); [ | reflexivity]. cbn [andb].
  destruct (take_rows (all_bitstrings n) inds) as [e | rest].
  - cbn [rbind] in *. destruct (forallb _ inds); [discriminate | ].
    unfold Err in *. congruence.
  - unfold Ok in *. cbn [rbind] in *.
    destruct (forallb _ inds); [ | discriminate].
    injection IH as IH. cbn [map]. rewrite IH. f_equal. f_equal.
    apply rev_map_seq.
Qed.

(** X14: "Qubit 0 is at [out[:, 0]]".  With a generator present,
    [sample_bitstrings] of either engine returns one row for each index
    [rs.choice] drew, in the order drawn; the row of the index [i] has
    [n_qubits] entries and its entry [q] is bit [q] of [i], so that column
    [q] of the result is qubit [q].  It raises what [rs.choice] raises, and
    IndexError for a drawn index that is not below [2 ** n_qubits]. *)
Theorem sample_bitstrings_qubit_order (n_samples : nat) (tol_factor : C)
    (w : ReferenceWavefunctionSimulator.self) (gw : RandomState)
    (d : ReferenceDensitySimulator.self) (gd : RandomState) :
  ReferenceWavefunctionSimulator.rs w = Some gw ->
  ReferenceDensitySimulator.rs d = Some gd ->
  fst (ReferenceWavefunctionSimulator.sample_bitstrings n_samples w)
  = (let? inds :=
       fst (rs_choice (2 ^ ReferenceWavefunctionSimulator.n_qubits w) n_samples
              (abs_squared (ReferenceWavefunctionSimulator.wf w)) gw) in
     rows_of (ReferenceWavefunctionSimulator.n_qubits w) inds)
  /\ fst (ReferenceDensitySimulator.sample_bitstrings n_samples tol_factor d)
     = (let? inds :=
          fst (rs_choice (2 ^ ReferenceDensitySimulator.n_qubits d) n_samples
                 (ReferenceDensitySimulator.probabilities_of
                    (ReferenceDensitySimulator.array_at
                       (ReferenceDensitySimulator.heap d)
                       (ReferenceDensitySimulator.density d)) tol_factor) gd) in
        rows_of (ReferenceDensitySimulator.n_qubits d) inds).
Proof.
  intros Hw Hd.
  unfold ReferenceWavefunctionSimulator.sample_bitstrings,
    ReferenceDensitySimulator.sample_bitstrings, ReferenceDensitySimulator.deref.
  unfold bind, gets, lift, modify, ret, raise. cbv beta iota. rewrite Hw, Hd.
  cbv beta iota. split.
  - destruct (fst (rs_choice _ _ _ gw)) as [e | inds]; [reflexivity | ].
    cbn [rbind]. rewrite <- take_rows_flipped.
    now destruct (take_rows _ inds).
  - destruct (fst (rs_choice _ _ _ gd)) as [e | inds]; [reflexivity | ].
    cbn [rbind]. rewrite <- take_rows_flipped.
    now destruct (take_rows _ inds).
Qed.

(** The rows have [n] entries. *)
Lemma bits_of_length (n i : nat) : length (bits_of n i) = n.
Proof. unfold bits_of. now rewrite length_map, length_seq. Qed.
End QubitOrder.

(** ** Exact arithmetic: noise keeps the trace *)

Section KrausTerms.
Context {C : Type} `{Runtime C}.

End KrausTerms.

Section ExactNoise.
Context {RT : Runtime Exact.complex}.
Import ReferenceDensitySimulator.






End ExactNoise.

(** ** Exact arithmetic: a measurement leaves a normalised state *)

Section ExactCollapse.
Context {RT : Runtime Exact.complex}.
Import ReferenceWavefunctionSimulator.
Local Open Scope R_scope.

(** A sum of squared moduli is a real number that is not negative. *)
Lemma sum_of_squares_real (N : nat) (f : nat -> Exact.complex) :
  exists P : R, 0 <= P /\ csum N (fun k => cmul (cconj (f k)) (f k)) = (P, 0).
Proof.
  induction N as [| N (P & HP & IH)].
  - exists 0. split; [lra | reflexivity].
  - exists (P + (fst (f N) * fst (f N) + snd (f N) * snd (f N))). split.
    + pose proof (Rle_0_sqr (fst (f N))) as H1. pose proof (Rle_0_sqr (snd (f N))) as H2.
      unfold Rsqr in H1, H2. lra.
    + cbn [csum]. rewrite IH. destruct (f N) as [a b]. cbn.
      unfold Exact.add, Exact.mul, Exact.conj. cbn [fst snd]. f_equal; ring.
Qed.

(** The principal square root of a real number that is not negative. *)
Lemma csqrt_real (P : R) : 0 <= P -> csqrt ((P, 0) : Exact.complex) = (sqrt P, 0).
Proof.
  intros HP. cbn. unfold Exact.sqrt, Exact.modulus. cbn [fst snd].
  replace (P * P + 0 * 0) with (P * P) by ring. rewrite sqrt_square by assumption.
  replace ((P + P) / 2) with P by field. replace ((P - P) / 2) with 0 by field.
  rewrite sqrt_0. destruct (Rle_dec 0 0); f_equal; ring.
Qed.

(** Dividing by the square root of [P > 0] scales a squared norm [P] to one. *)
Lemma inverse_root_scales_to_one (P : R) :
  0 < P ->
  cmul (cmul (cconj (Exact.inv (csqrt ((P, 0) : Exact.complex))))
             (Exact.inv (csqrt ((P, 0) : Exact.complex))))
       ((P, 0) : Exact.complex)
  = c1.
Proof.
  intros HP. rewrite csqrt_real by lra.
  assert (Hr : sqrt P * sqrt P = P) by (apply sqrt_sqrt; lra).
  assert (Hpos : 0 < sqrt P) by (apply sqrt_lt_R0; exact HP).
  remember (sqrt P) as r eqn:Heqr. clear Heqr. subst P.
  cbn. unfold Exact.mul, Exact.conj, Exact.inv, Exact.of_real. cbn [fst snd].
  f_equal; field; lra.
Qed.

(** An entry of the collapsed state: the projected amplitude times the
    inverse of the root. *)
Lemma collapse_entry (m : matrix Exact.complex) (s : Exact.complex)
    (psi : vector Exact.complex) (N i : nat) :
  csum N (fun j => cmul (cdiv (mget m i j) s) (vget psi j))
  = cmul (Exact.inv s) (csum N (fun j => cmul (mget m i j) (vget psi j))).
Proof.
  rewrite csum_mul_l. apply csum_ext. intros j Hj.
  change (cdiv (mget m i j) s) with (cmul (mget m i j) (Exact.inv s)). ring.
Qed.

(** The collapsed state has norm one when the root is that of the squared
    norm of the projected state. *)
Lemma collapsed_norm (m : matrix Exact.complex) (psi : vector Exact.complex)
    (N : nat) (Q : R) :
  shape m = (N, N) -> vlen psi = N -> 0 < Q ->
  csum N (fun k =>
    cmul (cconj (csum N (fun j => cmul (mget m k j) (vget psi j))))
         (csum N (fun j => cmul (mget m k j) (vget psi j))))
  = (Q, 0) ->
  norm_squared (collapse m ((Q, 0) : Exact.complex) psi) = c1.
Proof.
  intros Hm Hlen HQ Hnorm. unfold shape in Hm. injection Hm as Hmr Hmc.
  unfold norm_squared, collapse. cbn [vlen vget]. rewrite Hmr, Hlen.
  set (t := Exact.inv (csqrt ((Q, 0) : Exact.complex))).
  set (phi := fun k => csum N (fun j => cmul (mget m k j) (vget psi j))) in *.
  rewrite (csum_ext N _
             (fun i => cmul (cmul (cconj t) t) (cmul (cconj (phi i)) (phi i)))).
  - rewrite <- csum_mul_l. unfold phi. rewrite Hnorm.
    apply inverse_root_scales_to_one. exact HQ.
  - intros i Hi. rewrite collapse_entry. fold (phi i). fold t.
    rewrite cconj_mul. ring.
Qed.

(** [⟨ψ|M0|ψ⟩ + ⟨ψ|M1|ψ⟩ = ⟨ψ|ψ⟩] for complementary operators. *)
Lemma braket_complement (m0 m1 : matrix Exact.complex)
    (psi : vector Exact.complex) (N : nat) :
  vlen psi = N -> complementary N m0 m1 ->
  cadd (braket m0 psi) (braket m1 psi) = norm_squared psi.
Proof.
  intros Hlen Hcomp. unfold braket, norm_squared. rewrite Hlen.
  rewrite <- csum_add. apply csum_ext. intros i Hi.
  transitivity (cmul (cconj (vget psi i))
                  (csum N (fun j => cmul (vget psi j)
                                         (if j =? i then c1 else c0)))).
  - transitivity (cmul (cconj (vget psi i))
                    (cadd (csum N (fun j => cmul (mget m0 i j) (vget psi j)))
                          (csum N (fun j => cmul (mget m1 i j) (vget psi j))))).
    { ring. }
    f_equal. rewrite <- csum_add. apply csum_ext. intros j Hj.
    transitivity (cmul (cadd (mget m0 i j) (mget m1 i j)) (vget psi j)); [ring | ].
    rewrite Hcomp by assumption. rewrite (Nat.eqb_sym i j). ring.
  - rewrite csum_delta by assumption. ring.
Qed.

(** X16, in exact arithmetic: a measurement leaves a normalised state.
    On a state vector of norm one, with a generator whose draw is a real
    number in [0, 1) and with lifted [P0] and [P1] that are complementary
    projectors of the full space, [do_measurement] returns 0 or 1 and the
    collapsed state vector has the same length and norm one again: the
    branch taken never divides by zero. *)
Theorem measurement_keeps_norm (s : self) (qubit : nat) (g : RandomState)
    (measure_0 measure_1 : matrix Exact.complex) :
  rs s = Some g ->
  vlen (wf s) = (2 ^ n_qubits s)%nat ->
  norm_squared (wf s) = c1 ->
  lifted_gate_matrix P0 [qubit] (n_qubits s) = Ok measure_0 ->
  lifted_gate_matrix P1 [qubit] (n_qubits s) = Ok measure_1 ->
  shape measure_0 = ((2 ^ n_qubits s)%nat, (2 ^ n_qubits s)%nat) ->
  shape measure_1 = ((2 ^ n_qubits s)%nat, (2 ^ n_qubits s)%nat) ->
  projector measure_0 -> projector measure_1 ->
  complementary (2 ^ n_qubits s) measure_0 measure_1 ->
  in_unit_interval (fst (rs_uniform g)) ->
  let out := do_measurement qubit s in
  (fst out = Ok 0%nat \/ fst out = Ok 1%nat)
  /\ vlen (wf (snd out)) = (2 ^ n_qubits s)%nat
  /\ norm_squared (wf (snd out)) = c1
  /\ rs (snd out) = Some (snd (rs_uniform g)).
Proof.
  intros Hrs Hlen Hone Hlift0 Hlift1 Hm0 Hm1 Hproj0 Hproj1 Hcomp [Him [Hlo Hhi]] out.
  set (N := (2 ^ n_qubits s)%nat) in *. set (psi := wf s) in *.
  assert (Hrows : rows measure_0 = N) by (unfold shape in Hm0; congruence).
  assert (Hcols : cols measure_0 = N) by (unfold shape in Hm0; congruence).
  assert (Hrows1 : rows measure_1 = N) by (unfold shape in Hm1; congruence).
  assert (Hcols1 : cols measure_1 = N) by (unfold shape in Hm1; congruence).
  set (phi0 := fun m : matrix Exact.complex =>
         fun k => csum N (fun j => cmul (mget m k j) (vget psi j))).
  destruct (sum_of_squares_real N (phi0 measure_0)) as (P & HP & HnormP).
  destruct (sum_of_squares_real N (phi0 measure_1)) as (P1 & HP1 & HnormP1).
  assert (Hborn0 : braket measure_0 psi = (P, 0)).
  { rewrite <- HnormP. symmetry. apply born_rule; assumption. }
  assert (Hborn1 : braket measure_1 psi = (P1, 0)).
  { rewrite <- HnormP1. symmetry. apply born_rule; assumption. }
  assert (Hsum : P + P1 = 1).
  { pose proof (braket_complement measure_0 measure_1 psi N Hlen Hcomp) as Hc.
    rewrite Hborn0, Hborn1, Hone in Hc. cbn in Hc.
    unfold Exact.add, Exact.of_real in Hc. cbn [fst snd] in Hc. congruence. }
  set (proj_psi := Vec N (phi0 measure_0)).
  assert (Hmv : np_matvec measure_0 psi = inr proj_psi).
  { unfold np_matvec. now rewrite Hrows, Hcols, Hlen, Nat.eqb_refl. }
  assert (Hprob : np_inner (np_conj1 proj_psi) proj_psi = inr (P, 0)).
  { unfold np_inner. cbn [vlen vget np_conj1 proj_psi]. rewrite Nat.eqb_refl.
    unfold Ok. f_equal. exact HnormP. }
  unfold out, do_measurement. unfold Ok in Hlift0, Hlift1.
  unfold bind, gets, lift, modify, ret, raise. cbv beta iota.
  rewrite Hrs. cbv beta iota. fold N. rewrite Hlift0. cbv beta iota.
  fold psi. rewrite Hmv. cbv beta iota. rewrite Hprob. cbv beta iota.
  destruct (rs_uniform g) as [[u v] g'] eqn:Hdraw. cbn [fst snd] in *. subst v.
  destruct (cltb ((u, 0) : Exact.complex) (P, 0)) eqn:Hlt.
  - assert (HPpos : 0 < P).
    { cbn in Hlt. unfold Exact.ltb in Hlt. cbn [fst snd] in Hlt.
      destruct (Rlt_dec u P) as [Hup | Hup]; [lra | ].
      destruct (Req_dec_T u P); [ | discriminate].
      destruct (Rlt_dec 0 0); [lra | discriminate]. }
    destruct (collapse_by_products measure_0 (P, 0) psi N Hm0 Hlen)
      as (unitary & psi' & Hu & Hpsi' & Hlen' & Heq).
    unfold Ok in Hu, Hpsi'. rewrite Hu, Hpsi'. cbn [fst snd wf set_wf set_rs rs].
    split; [now left | ].
    split; [rewrite Hlen'; cbn [vlen collapse]; exact Hrows | ].
    split; [ | reflexivity].
    rewrite <- (collapsed_norm measure_0 psi N P Hm0 Hlen HPpos HnormP).
    unfold norm_squared. rewrite Hlen'. apply csum_ext. intros i Hi.
    rewrite Heq by (rewrite Hlen'; exact Hi). reflexivity.
  - assert (HPlt : P < 1).
    { cbn in Hlt. unfold Exact.ltb in Hlt. cbn [fst snd] in Hlt.
      destruct (Rlt_dec u P) as [Hup | Hup]; [discriminate | lra]. }
    rewrite Hlift1. cbv beta iota.
    assert (Hq : csub c1 ((P, 0) : Exact.complex) = (P1, 0)).
    { cbn. unfold Exact.sub, Exact.of_real. cbn [fst snd]. f_equal; lra. }
    rewrite Hq.
    destruct (collapse_by_products measure_1 (P1, 0) psi N Hm1 Hlen)
      as (unitary & psi' & Hu & Hpsi' & Hlen' & Heq).
    unfold Ok in Hu, Hpsi'. rewrite Hu, Hpsi'. cbn [fst snd wf set_wf set_rs rs].
    split; [now right | ].
    split; [rewrite Hlen'; cbn [vlen collapse]; exact Hrows1 | ].
    split; [ | reflexivity].
    rewrite <- (collapsed_norm measure_1 psi N P1 Hm1 Hlen ltac:(lra) HnormP1).
    unfold norm_squared. rewrite Hlen'. apply csum_ext. intros i Hi.
    rewrite Heq by (rewrite Hlen'; exact Hi). reflexivity.
Qed.
End ExactCollapse.

(** ** Runs of the added theorems *)

Section FixtureFacts.
Context {C : Type} `{Numeric C}.

(** The lifter of the fixture returns operators of the full space. *)
Lemma fixture_lifters_give_full_operators :
  lifters_give_full_operators (C := C) (H0 := fixture).
Proof.
  assert (Hshape : forall (operator : matrix C) qubits n u,
            lift_operator operator qubits n = Ok u -> shape u = (2 ^ n, 2 ^ n)).
  { intros operator qubits n u. unfold lift_operator.
    destruct (_ && _); [ | discriminate]. intros Hu. injection Hu as <-. reflexivity. }
  split.
  - intros operator qubits n u. apply Hshape.
  - intros gate n u. apply Hshape.
Qed.
End FixtureFacts.

Section MoreRuns.
Import Inputs.
Import Examples.

Lemma stochastic_operations_need_a_generator_witness :
  ReferenceWavefunctionSimulator.rs silent_wavefunction_engine = None
  /\ ReferenceDensitySimulator.rs silent_density_engine = None
  /\ ReferenceWavefunctionSimulator.do_measurement 5 silent_wavefunction_engine
     = (Err no_random_state, silent_wavefunction_engine)
  /\ ReferenceDensitySimulator.sample_bitstrings 3 lit_1e8 silent_density_engine
     = (Err no_random_state, silent_density_engine).
Proof.
  destruct (stochastic_operations_need_a_generator 5 3 lit_1e8
              silent_wavefunction_engine silent_density_engine eq_refl eq_refl)
    as (Hmeasure & _ & _ & Hsample).
  repeat split; assumption.
Defined.

Lemma set_initial_state_none_frame_witness :
  ReferenceDensitySimulator.density (engine_with lopsided)
  < length (ReferenceDensitySimulator.heap (engine_with lopsided))
  /\ ReferenceDensitySimulator.density
       (snd (ReferenceDensitySimulator.set_initial_state None (engine_with lopsided)))
     = 1
  /\ ReferenceDensitySimulator.initial_density
       (snd (ReferenceDensitySimulator.set_initial_state None (engine_with lopsided)))
     = 2.
Proof.
  assert (Hd : ReferenceDensitySimulator.density (engine_with lopsided)
               < length (ReferenceDensitySimulator.heap (engine_with lopsided)))
    by (vm_compute; lia).
  destruct (set_initial_state_none_frame (engine_with lopsided) Hd)
    as (_ & Hdensity & _ & Hinitial & _).
  split; [exact Hd | ]. split; [rewrite Hdensity | rewrite Hinitial]; reflexivity.
Defined.

Lemma wavefunction_calls_keep_length_witness :
  lifters_give_full_operators (C := F64.complex128) (H0 := fixture)
  /\ vlen (ReferenceWavefunctionSimulator.wf
             (wavefunction_calls some_calls
                (ReferenceWavefunctionSimulator.__init__ (H0 := fixture) 1
                   (Some [f 0.25; f 0.75]))))
     = 2.
Proof.
  split; [exact fixture_lifters_give_full_operators | ].
  destruct (wavefunction_calls_keep_length (C := F64.complex128) (H0 := fixture)
              1 (Some [f 0.25; f 0.75]) some_calls
              fixture_lifters_give_full_operators) as (_ & Hlen & _).
  exact Hlen.
Defined.

Lemma expectation_needs_known_operators_witness :
  In term_with_unknown_operator [term_with_unknown_operator]
  /\ In (0, "Q"%string) (Expectation._ops term_with_unknown_operator)
  /\ gates !! "Q"%string = None
  /\ exists e,
       Expectation.expectation gates
         (Expectation.Pauli_sum [term_with_unknown_operator]) wavefunction_engine
       = (Err e, wavefunction_engine).
Proof.
  assert (Hterm : In term_with_unknown_operator [term_with_unknown_operator])
    by (left; reflexivity).
  assert (Hop : In (0, "Q"%string) (Expectation._ops term_with_unknown_operator))
    by (right; left; reflexivity).
  assert (Hnone : gates !! "Q"%string = None) by reflexivity.
  split; [exact Hterm | ]. split; [exact Hop | ]. split; [exact Hnone | ].
  exact (proj2 (expectation_needs_known_operators gates
                  (Expectation.Pauli_sum [term_with_unknown_operator])
                  [term_with_unknown_operator] term_with_unknown_operator
                  0 "Q" wavefunction_engine Hterm Hop Hnone)).
Defined.

Lemma sample_bitstrings_qubit_order_witness :
  ReferenceWavefunctionSimulator.rs wavefunction_engine = Some [f 0.25; f 0.75]
  /\ ReferenceDensitySimulator.rs (engine_with lopsided) = Some [f 0.25; f 0.75]
  /\ fst (ReferenceWavefunctionSimulator.sample_bitstrings 2 wavefunction_engine)
     = (let? inds :=
          fst (rs_choice (Runtime := fixture (C := F64.complex128)) (2 ^ 1) 2
                 (abs_squared (ReferenceWavefunctionSimulator.wf wavefunction_engine))
                 [f 0.25; f 0.75]) in
        rows_of 1 inds).
Proof.
  split; [reflexivity | ]. split; [reflexivity | ].
  exact (proj1 (sample_bitstrings_qubit_order (C := F64.complex128) (H0 := fixture)
                  2 lit_1e8 wavefunction_engine
                  [f 0.25; f 0.75] (engine_with lopsided) [f 0.25; f 0.75]
                  eq_refl eq_refl)).
Defined.
End MoreRuns.

(** ** Runs in exact arithmetic *)

Section ExactRuns.
Import Inputs.
Import Examples.

Ltac complex_entries :=
  cbn; unfold Exact.add, Exact.mul, Exact.conj, Exact.of_real; cbn [fst snd];
  f_equal; ring.

Lemma x_call_is_unitary : unitary_call 1 x_call.
Proof.
  exists (lifted_on_0 fixture_X). split; [reflexivity | ]. split; [reflexivity | ].
  split; [reflexivity | ]. intros i j Hi Hj. cbn [cols lifted_on_0] in Hi, Hj.
  destruct i as [| [| i]]; destruct j as [| [| j]]; try lia; complex_entries.
Qed.

Lemma initial_engines_hold_the_same_state :
  same_pure_state exact_wavefunction exact_density.
Proof.
  split; [reflexivity | ]. split; [reflexivity | ].
  split; [reflexivity | ]. intros i j Hi Hj.
  change (i < 2) in Hi. change (j < 2) in Hj.
  destruct i as [| [| i]]; destruct j as [| [| j]]; try lia; complex_entries.
Qed.

Lemma lifted_P1_is_projector : projector lifted_P1.
Proof.
  split; [reflexivity | ]. intros i j Hi Hj. cbn [cols lifted_P1 lifted_on_0] in Hi, Hj.
  destruct i as [| [| i]]; destruct j as [| [| j]]; try lia; complex_entries.
Qed.

Lemma lifted_projectors_are_complementary : complementary 2 lifted_P0 lifted_P1.
Proof.
  intros i j Hi Hj.
  destruct i as [| [| i]]; destruct j as [| [| j]]; try lia; complex_entries.
Qed.

Lemma exact_engine_is_normalised :
  norm_squared (ReferenceWavefunctionSimulator.wf exact_engine) = c1.
Proof.
  cbn. unfold r, Exact.add, Exact.mul, Exact.conj, Exact.of_real. cbn [fst snd].
  f_equal; field.
Qed.

Lemma quarter_is_in_unit_interval :
  in_unit_interval (fst (rs_uniform (Runtime := fixture) [r (1 / 4)])).
Proof. cbn. unfold in_unit_interval, r, Exact.of_real. cbn [fst snd]. lra. Qed.

Lemma unitary_calls_from_initial_state_witness :
  Forall (unitary_call 1) [x_call]
  /\ norm_squared
       (ReferenceWavefunctionSimulator.wf
          (snd (for_each [x_call] run_call
                  (ReferenceWavefunctionSimulator.__init__ (H0 := fixture) 1 None))))
     = c1.
Proof.
  assert (Hall : Forall (unitary_call 1) [x_call])
    by (constructor; [exact x_call_is_unitary | constructor]).
  split; [exact Hall | ].
  exact (proj2 (unitary_calls_from_initial_state (RT := fixture) 1 None [x_call] Hall)).
Defined.

Lemma expectation_of_identity_witness :
  Forall (unitary_call 1) [x_call]
  /\ fst (Expectation.expectation no_gates
            (Expectation.Pauli_term
               {| Expectation._ops := []; Expectation.coefficient := r 2 |})
            (snd (for_each [x_call] run_call
                    (ReferenceWavefunctionSimulator.__init__ (H0 := fixture) 1 None))))
     = Ok (r 2).
Proof.
  assert (Hall : Forall (unitary_call 1) [x_call])
    by (constructor; [exact x_call_is_unitary | constructor]).
  split; [exact Hall | ].
  rewrite (expectation_of_identity (RT := fixture) no_gates 1 None [x_call] (r 2) Hall).
  reflexivity.
Defined.

Lemma density_gate_keeps_trace_witness :
  shape (ReferenceDensitySimulator.array_at
           (ReferenceDensitySimulator.heap exact_density)
           (ReferenceDensitySimulator.density exact_density))
  = (2 ^ ReferenceDensitySimulator.n_qubits exact_density,
     2 ^ ReferenceDensitySimulator.n_qubits exact_density)
  /\ unitary_call (ReferenceDensitySimulator.n_qubits exact_density) x_call
  /\ fst (run_density_call x_call exact_density) = Ok tt
  /\ np_trace (ReferenceDensitySimulator.array_at
                 (ReferenceDensitySimulator.heap
                    (snd (run_density_call x_call exact_density)))
                 (ReferenceDensitySimulator.density
                    (snd (run_density_call x_call exact_density))))
     = np_trace (ReferenceDensitySimulator.array_at
                   (ReferenceDensitySimulator.heap exact_density)
                   (ReferenceDensitySimulator.density exact_density)).
Proof.
  assert (Hshape : shape (ReferenceDensitySimulator.array_at
                            (ReferenceDensitySimulator.heap exact_density)
                            (ReferenceDensitySimulator.density exact_density))
                   = (2 ^ ReferenceDensitySimulator.n_qubits exact_density,
                      2 ^ ReferenceDensitySimulator.n_qubits exact_density))
    by reflexivity.
  split; [exact Hshape | ]. split; [exact x_call_is_unitary | ].
  destruct (density_gate_keeps_trace (RT := fixture) exact_density x_call
              Hshape x_call_is_unitary) as (Hret & _ & _ & Htrace & _).
  split; [exact Hret | exact Htrace].
Defined.

Lemma engines_agree_on_gates_witness :
  same_pure_state exact_wavefunction exact_density
  /\ same_pure_state (snd (run_call x_call exact_wavefunction))
                     (snd (run_density_call x_call exact_density)).
Proof.
  split; [exact initial_engines_hold_the_same_state | ].
  exact (proj2 (engines_agree_on_gates (RT := fixture) x_call exact_wavefunction
                  exact_density initial_engines_hold_the_same_state)).
Defined.

Lemma engines_agree_on_measurement_witness :
  same_pure_state exact_wavefunction exact_density
  /\ lifted_gate_matrix (Runtime := fixture) P0 [0]
       (ReferenceWavefunctionSimulator.n_qubits exact_wavefunction)
     = Ok lifted_P0
  /\ projector lifted_P0
  /\ fst (ReferenceWavefunctionSimulator.do_measurement 0 exact_wavefunction)
     = fst (ReferenceDensitySimulator.do_measurement 0 exact_density).
Proof.
  assert (Hlift : lifted_gate_matrix (Runtime := fixture) P0 [0]
                    (ReferenceWavefunctionSimulator.n_qubits exact_wavefunction)
                  = Ok lifted_P0) by reflexivity.
  split; [exact initial_engines_hold_the_same_state | ].
  split; [exact Hlift | ]. split; [exact lifted_P0_is_projector | ].
  exact (proj1 (engines_agree_on_measurement (RT := fixture) 0 exact_wavefunction
                  exact_density lifted_P0 initial_engines_hold_the_same_state
                  eq_refl Hlift eq_refl lifted_P0_is_projector)).
Defined.

Lemma measurement_keeps_norm_witness :
  norm_squared (ReferenceWavefunctionSimulator.wf exact_engine) = c1
  /\ projector lifted_P0 /\ projector lifted_P1
  /\ complementary 2 lifted_P0 lifted_P1
  /\ in_unit_interval (fst (rs_uniform (Runtime := fixture) [r (1 / 4)]))
  /\ norm_squared
       (ReferenceWavefunctionSimulator.wf
          (snd (ReferenceWavefunctionSimulator.do_measurement 0 exact_engine)))
     = c1.
Proof.
  split; [exact exact_engine_is_normalised | ].
  split; [exact lifted_P0_is_projector | ].
  split; [exact lifted_P1_is_projector | ].
  split; [exact lifted_projectors_are_complementary | ].
  split; [exact quarter_is_in_unit_interval | ].
  destruct (measurement_keeps_norm (RT := fixture) exact_engine 0 [r (1 / 4)]
              lifted_P0 lifted_P1 eq_refl eq_refl exact_engine_is_normalised
              eq_refl eq_refl eq_refl eq_refl
              lifted_P0_is_projector lifted_P1_is_projector
              lifted_projectors_are_complementary quarter_is_in_unit_interval)
    as (_ & _ & Hnorm & _).
  exact Hnorm.
Defined.
End ExactRuns.

(** ** A run of the noise theorem *)

Section ExactNoiseRun.
Import Inputs.
Import Examples.
Local Open Scope R_scope.



End ExactNoiseRun.

Section ExactNoiseWitness.
Import Inputs.
Import Examples.

End ExactNoiseWitness.

(** ** Names of quantum computers *)

Section SplitAndJoin.
Import QuantumComputer.

Lemma split_not_nil (name : string) : split name <> [].
Proof.
  induction name as [| c rest IH]; cbn [split]; [discriminate | ].
  destruct (Ascii.eqb c "-"%char); [discriminate | ].
  destruct (split rest); [contradiction | discriminate].
Qed.

(** Joining the parts of a name gives the name back. *)
Lemma join_split (name : string) : join (split name) = name.
Proof.
  unfold join. induction name as [| c rest IH]; [reflexivity | ].
  cbn [split]. destruct (Ascii.eqb_spec c "-"%char) as [-> | Hc].
  - pose proof (split_not_nil rest) as Hne.
    destruct (split rest) as [| part parts]; [contradiction | ].
    cbn [String.concat] in *. now rewrite IH.
  - pose proof (split_not_nil rest) as Hne.
    destruct (split rest) as [| part parts]; [contradiction | ].
    destruct parts as [| part' parts]; cbn [String.concat] in *; now rewrite <- IH.
Qed.

(** A dash between two names separates their parts. *)
Lemma split_dash (p q : string) :
  split (p +:+ String "-"%char q) = split p ++ split q.
Proof.
  induction p as [| c p IH]; [reflexivity | ].
  simpl. rewrite IH. destruct (Ascii.eqb c "-"%char).
  - reflexivity.
  - pose proof (split_not_nil p) as Hne.
    destruct (split p); [contradiction | reflexivity].
Qed.

Lemma append_assoc (a b c : string) : (a +:+ b) +:+ c = a +:+ (b +:+ c).
Proof.
  induction a as [| x a IH]; [reflexivity | ].
  change (String x ((a +:+ b) +:+ c) = String x (a +:+ (b +:+ c))).
  now rewrite IH.
Qed.

Lemma append_empty_r (s : string) : s +:+ "" = s.
Proof.
  induction s as [| c s IH]; [reflexivity | ].
  change (String c (s +:+ "") = String c s). now rewrite IH.
Qed.

Lemma join_snoc (parts : list string) (part : string) :
  parts <> [] -> join (parts ++ [part]) = join parts +:+ String "-"%char part.
Proof.
  unfold join. induction parts as [| x xs IH]; [contradiction | ]. intros _.
  destruct xs as [| y ys]; [reflexivity | ].
  change (String.concat "-" ((x :: y :: ys) ++ [part]))
    with (x +:+ "-" +:+ String.concat "-" ((y :: ys) ++ [part])).
  rewrite IH by discriminate.
  change (String.concat "-" (x :: y :: ys))
    with (x +:+ "-" +:+ String.concat "-" (y :: ys)).
  now rewrite !append_assoc.
Qed.
End SplitAndJoin.

Section CanonicalNames.
Context {C : Type}.
Import QuantumComputer.

Lemma is_qvm_type_cases (part : string) :
  is_qvm_type part = true <-> part = "qvm"%string \/ part = "pyqvm"%string.
Proof.
  unfold is_qvm_type. rewrite orb_true_iff, !String.eqb_eq. reflexivity.
Qed.

Lemma names_without_prefix_parts (name : string) :
  existsb (String.eqb name) names_without_prefix = true
  <-> split name = ["qvm"%string]
      \/ split name = ["pyqvm"%string]
      \/ split name = ["noisy"%string; "qvm"%string]
      \/ split name = ["noisy"%string; "pyqvm"%string].
Proof.
  unfold names_without_prefix. cbn [existsb].
  rewrite !orb_true_iff, !String.eqb_eq. split.
  - intros [-> | [-> | [-> | [-> | Hf]]]]; [tauto | tauto | tauto | tauto | discriminate].
  - intros Hparts. rewrite <- (join_split name).
    destruct Hparts as [-> | [-> | [-> | ->]]]; cbn; tauto.
Qed.

Lemma last_snoc (parts : list string) (part : string) :
  List.last (parts ++ [part]) ""%string = part.
Proof. apply last_last. Qed.

(** X17: the first step of [get_qc] without flags.  [_parse_name] never
    raises when both flags are [None], and [_canonicalize_name] of what it
    returns gives the name back, with four exceptions: the names [qvm],
    [pyqvm], [noisy-qvm] and [noisy-pyqvm], which have no prefix, come back
    with a dash in front. *)
Theorem canonical_name_of_a_name (name : string) :
  canonical_name (C := C) name None None
  = Ok (if existsb (String.eqb name) names_without_prefix
        then "-" +:+ name
        else name).
Proof.
  pose proof (join_split name) as Hname.
  pose proof (names_without_prefix_parts name) as Hspecial.
  unfold canonical_name, _parse_name.
  destruct (exists_last (split_not_nil name)) as (front & lst & Hparts).
  rewrite Hparts in *. clear Hparts.
  rewrite last_snoc, removelast_last, length_app. cbn [length is_false].
  destruct front as [| x front'] using rev_ind.
  - (* one part *)
    cbn [app length Nat.add Nat.leb andb List.last List.removelast].
    cbn in Hname. subst lst.
    destruct (is_qvm_type name) eqn:Hq.
    + apply is_qvm_type_cases in Hq. destruct Hq as [-> | ->]; reflexivity.
    + unfold Ok. cbn [rbind default]. unfold _canonicalize_name. unfold Ok. cbn [rbind].
      rewrite !append_empty_r.
      destruct (existsb (String.eqb name) names_without_prefix); [ | reflexivity].
      exfalso. destruct Hspecial as [Hs _].
      destruct (Hs eq_refl) as [H1 | [H1 | [H1 | H1]]]; cbn in H1;
        try discriminate H1; inversion H1; subst; discriminate Hq.
  - (* at least two parts *)
    clear IHfront'. rewrite last_snoc, removelast_last.
    replace (2 <=? length (front' ++ [x]) + 1) with true
      by (symmetry; apply Nat.leb_le; rewrite length_app; cbn; lia).
    replace (1 <=? length (front' ++ [x]) + 1) with true
      by (symmetry; apply Nat.leb_le; lia).
    cbn [andb].
    assert (Hjoin : name = join (front' ++ [x]) +:+ String "-"%char lst).
    { rewrite <- Hname. apply join_snoc. now destruct front'. }
    assert (Hnot : is_qvm_type lst = false \/ front' <> [] \/ x <> "noisy"%string ->
                   existsb (String.eqb name) names_without_prefix = false).
    { intros Hwhy. destruct (existsb _ _); [ | reflexivity]. exfalso.
      destruct Hspecial as [Hs _].
      destruct (Hs eq_refl) as [H1 | [H1 | [H1 | H1]]].
      1, 2: apply (f_equal (@length string)) in H1;
        rewrite !length_app in H1; cbn in H1; lia.
      all: assert (Hfront : front' = [])
        by (apply (f_equal (@length string)) in H1;
            rewrite !length_app in H1; cbn in H1; destruct front';
            [reflexivity | cbn in H1; lia]).
      all: subst front'; cbn in H1; inversion H1; subst.
      all: destruct Hwhy as [Hw | [Hw | Hw]];
        [discriminate Hw | now apply Hw | now apply Hw]. }
    destruct (is_qvm_type lst) eqn:Hq.
    + destruct (String.eqb_spec x "noisy") as [-> | Hx]; cbn [andb].
      * (* a noisy QVM *)
        unfold Ok. cbn [rbind]. unfold _canonicalize_name.
        apply is_qvm_type_cases in Hq.
        destruct front' as [| y front'].
        -- cbn in Hname. subst name. destruct Hq as [-> | ->]; reflexivity.
        -- rewrite Hnot by (right; left; discriminate).
           rewrite Hjoin, join_snoc by discriminate.
           destruct Hq as [-> | ->]; cbn [String.eqb Ascii.eqb Bool.eqb rbind];
             unfold Ok; cbn [rbind]; now rewrite append_assoc.
      * (* a QVM *)
        unfold Ok. cbn [rbind default]. unfold _canonicalize_name.
        rewrite Hnot by (right; right; exact Hx). rewrite Hjoin.
        apply is_qvm_type_cases in Hq.
        destruct Hq as [-> | ->]; cbn [String.eqb Ascii.eqb Bool.eqb rbind];
          unfold Ok; cbn [rbind]; reflexivity.
    + rewrite andb_false_r. unfold Ok. cbn [rbind default].
      unfold _canonicalize_name. unfold Ok. cbn [rbind].
      rewrite !append_empty_r. rewrite Hnot by (left; reflexivity). reflexivity.
Qed.

(** X18: [_parse_name] reads back what [_canonicalize_name] wrote.  For a
    QVM type [qvm] or [pyqvm], the canonical name of a prefix and a noise
    flag parses, without flags, to that prefix, type and flag; for a name
    that is not noisy this needs the prefix not to end in the part
    [noisy], which would be read as the flag. *)
Theorem parse_of_canonical_name (prefix qvm_type : string) (noisy : bool) :
  is_qvm_type qvm_type = true ->
  (noisy = false -> List.last (split prefix) ""%string <> "noisy"%string) ->
  (let? name := _canonicalize_name (C := C) prefix (Some qvm_type) noisy in
   _parse_name name None None)
  = Ok (prefix, Some qvm_type, noisy).
Proof.
  intros Hq Hprefix. pose proof Hq as Hq'. apply is_qvm_type_cases in Hq'.
  assert (Hcanon : _canonicalize_name (C := C) prefix (Some qvm_type) noisy
                   = Ok (prefix +:+ (if noisy then "-noisy" else "")
                                +:+ String "-"%char qvm_type)).
  { unfold _canonicalize_name. destruct Hq' as [-> | ->]; reflexivity. }
  rewrite Hcanon. unfold Ok. cbn [rbind]. unfold _parse_name.
  pose proof (split_not_nil prefix) as Hne.
  assert (Hlast : split qvm_type = [qvm_type])
    by (destruct Hq' as [-> | ->]; reflexivity).
  destruct noisy.
  - change (prefix +:+ "-noisy" +:+ String "-"%char qvm_type)
      with (prefix +:+ String "-"%char ("noisy" +:+ String "-"%char qvm_type)).
    rewrite split_dash, split_dash, Hlast.
    change (split "noisy") with ["noisy"%string].
    rewrite app_assoc, last_snoc, !removelast_last, last_snoc, Hq.
    rewrite !length_app. cbn [length is_false String.eqb Ascii.eqb Bool.eqb andb].
    replace (2 <=? length (split prefix) + 1 + 1) with true
      by (symmetry; apply Nat.leb_le; lia).
    cbn [andb]. now rewrite join_split.
  - change (prefix +:+ "" +:+ String "-"%char qvm_type)
      with (prefix +:+ String "-"%char qvm_type).
    rewrite split_dash, Hlast, last_snoc, removelast_last, Hq.
    apply String.eqb_neq in Hprefix; [ | reflexivity]. rewrite Hprefix.
    rewrite andb_false_r. cbn [andb is_false default].
    rewrite length_app. cbn [length].
    replace (1 <=? length (split prefix) + 1) with true
      by (symmetry; apply Nat.leb_le; lia).
    cbn [andb]. now rewrite join_split.
Qed.
End CanonicalNames.

Section PowersOfTwo.
Import QuantumComputer.
Local Open Scope Z_scope.

(** X19: [_next_power_of_2] of a number that is not negative is the least
    power of two that is not below it: it is a power of two, it is at
    least the number, and for a positive number it is less than twice the
    number. *)
Theorem next_power_of_2_is_the_next (x : Z) :
  0 <= x ->
  exists k, 0 <= k
            /\ _next_power_of_2 x = 2 ^ k
            /\ x <= 2 ^ k
            /\ (0 < x -> 2 ^ k < 2 * x).
Proof.
  intros Hx. unfold _next_power_of_2, bit_length.
  destruct (Z.eqb_spec x 0) as [-> | Hx0].
  - exists 0. cbn. lia.
  - destruct (Z.eqb_spec (x - 1) 0) as [Hone | Hmore].
    + exists 0. cbn. lia.
    + assert (Hm : 0 < x - 1) by lia.
      rewrite Z.abs_eq by lia.
      pose proof (Z.log2_spec (x - 1) Hm) as [Hlow Hhigh].
      pose proof (Z.log2_nonneg (x - 1)) as Hk.
      exists (Z.log2 (x - 1) + 1). rewrite Z.pow_add_r by lia.
      change (2 ^ 1) with 2. replace (Z.succ (Z.log2 (x - 1))) with (Z.log2 (x - 1) + 1) in Hhigh by lia.
      rewrite Z.pow_add_r in Hhigh by lia. change (2 ^ 1) with 2 in Hhigh.
      repeat split; lia.
Qed.

Lemma next_power_of_2_is_the_next_witness :
  0 <= 5
  /\ _next_power_of_2 5 = 8
  /\ exists k, _next_power_of_2 5 = 2 ^ k /\ 5 <= 2 ^ k < 10.
Proof.
  assert (Hx : 0 <= 5) by lia. split; [exact Hx | ]. split; [reflexivity | ].
  destruct (next_power_of_2_is_the_next 5 Hx) as (k & _ & Hpower & Hle & Hlt).
  exists k. split; [exact Hpower | ]. split; [exact Hle | ].
  apply Hlt. lia.
Defined.
End PowersOfTwo.

Section NameRuns.
Import QuantumComputer.

Lemma parse_of_canonical_name_witness :
  is_qvm_type "pyqvm" = true
  /\ _canonicalize_name (C := F64.complex128) "Aspen-1-2Q" (Some "pyqvm"%string) true
     = Ok "Aspen-1-2Q-noisy-pyqvm"%string
  /\ _parse_name (C := F64.complex128) "Aspen-1-2Q-noisy-pyqvm" None None
     = Ok ("Aspen-1-2Q"%string, Some "pyqvm"%string, true).
Proof.
  split; [reflexivity | ]. split; [reflexivity | ].
  exact (parse_of_canonical_name (C := F64.complex128) "Aspen-1-2Q" "pyqvm" true
           eq_refl (fun H => match H with end)).
Defined.
End NameRuns.

(** ** What a call that raises leaves behind *)

Section ExceptionSafety.
Context {C : Type} `{Runtime C}.

(** X21: a gate that raises changes nothing.  When [do_gate] or
    [do_gate_matrix] raises, on either engine (the lifter refused the
    operator, or its shape does not fit the state), the engine is exactly as
    it was before the call. *)
Theorem failed_gate_changes_nothing (c : gate_call)
    (w : ReferenceWavefunctionSimulator.self)
    (d : ReferenceDensitySimulator.self) :
  (forall e, fst (run_call c w) = Err e -> snd (run_call c w) = w)
  /\ (forall e, fst (run_density_call c d) = Err e -> snd (run_density_call c d) = d).
Proof.
  assert (Hw : forall lifted : result C (matrix C),
            let out := (let! unitary := lift lifted in
                        let! psi := gets ReferenceWavefunctionSimulator.wf in
                        let! psi' := lift (np_matvec unitary psi) in
                        modify (ReferenceWavefunctionSimulator.set_wf psi')) w in
            forall e, fst out = Err e -> snd out = w).
  { intros [e' | u]; cbv zeta; unfold bind, lift, gets, modify; cbv beta iota;
      [reflexivity | ].
    destruct (np_matvec u (ReferenceWavefunctionSimulator.wf w)); cbn [fst snd];
      [reflexivity | discriminate]. }
  assert (Hd : forall lifted : result C (matrix C),
            let out := (let! unitary := lift lifted in
                        ReferenceDensitySimulator.conjugate_by unitary) d in
            forall e, fst out = Err e -> snd out = d).
  { intros [e' | u]; cbv zeta; unfold bind at 1; unfold lift at 1; cbv beta iota;
      [reflexivity | ].
    unfold ReferenceDensitySimulator.conjugate_by, ReferenceDensitySimulator.deref,
      ReferenceDensitySimulator.alloc.
    unfold bind, lift, gets, modify. cbv beta iota.
    destruct (np_matmul u _) as [e1 | t]; [reflexivity | ].
    destruct (np_matmul t _) as [e2 | t']; cbn [fst snd];
      [reflexivity | discriminate]. }
  destruct c as [gate | operator qubits]; cbn [run_call run_density_call]; split.
  - exact (Hw (lifted_gate gate (ReferenceWavefunctionSimulator.n_qubits w))).
  - exact (Hd (lifted_gate gate (ReferenceDensitySimulator.n_qubits d))).
  - exact (Hw (lifted_gate_matrix operator qubits
                 (ReferenceWavefunctionSimulator.n_qubits w))).
  - exact (Hd (lifted_gate_matrix operator qubits
                 (ReferenceDensitySimulator.n_qubits d))).
Qed.
End ExceptionSafety.

Section NoiseStops.
Context {C : Type} `{Runtime C}.
Import ReferenceDensitySimulator.




End NoiseStops.

Section NoiseStopsRun.
Import ReferenceDensitySimulator.
Import Inputs.

End NoiseStopsRun.

(** ** Sampling and naming *)

Section ExactSampling.
Context {RT : Runtime Exact.complex}.
Local Open Scope R_scope.

(** X23, in exact arithmetic: the two engines sample from the same
    distribution.  When the density matrix is [|ψ⟩⟨ψ|] for the state vector
    [ψ] of a wavefunction engine, [ψ] has norm one and the tolerance factor
    is a positive real number, the probabilities that
    [ReferenceDensitySimulator.sample_bitstrings] hands to [rs.choice] (the
    diagonal, made real, clipped at zero and divided by its sum) are the
    squared moduli [np.abs(wf) ** 2] that
    [ReferenceWavefunctionSimulator.sample_bitstrings] hands to it: nothing
    is clipped and the division is by one. *)
Theorem engines_sample_the_same_distribution
    (w : ReferenceWavefunctionSimulator.self)
    (d : ReferenceDensitySimulator.self) (t : R) :
  same_pure_state w d ->
  norm_squared (ReferenceWavefunctionSimulator.wf w) = c1 ->
  0 < t ->
  vec_eq (ReferenceDensitySimulator.probabilities_of
            (ReferenceDensitySimulator.array_at
               (ReferenceDensitySimulator.heap d)
               (ReferenceDensitySimulator.density d)) (Exact.of_real t))
         (abs_squared (ReferenceWavefunctionSimulator.wf w)).
Proof.
  intros (_ & _ & Hshape & Hrho) Hone Ht.
  set (psi := ReferenceWavefunctionSimulator.wf w) in *.
  set (rho := ReferenceDensitySimulator.array_at _ _) in *.
  assert (Hrows : rows rho = vlen psi) by (unfold shape in Hshape; cbn in Hshape; congruence).
  assert (Hcols : cols rho = vlen psi) by (unfold shape in Hshape; cbn in Hshape; congruence).
  assert (Hlen : vlen (np_diagonal rho) = vlen psi)
    by (cbn; rewrite Hrows, Hcols; apply Nat.min_id).
  assert (Hdiag : forall i, (i < vlen psi)%nat ->
            vget (np_diagonal rho) i
            = (fst (vget psi i) * fst (vget psi i) + snd (vget psi i) * snd (vget psi i), 0)).
  { intros i Hi. cbn [np_diagonal vget]. rewrite Hrho by lia.
    cbn. unfold Exact.mul, Exact.conj. cbn [fst snd]. f_equal; ring. }
  unfold ReferenceDensitySimulator.probabilities_of, np_real_if_close.
  set (tol := if cltb c1 (Exact.of_real t) then _ else _).
  assert (Htol : 0 < fst tol).
  { unfold tol. destruct (cltb c1 (Exact.of_real t)); cbn; [ | exact Ht].
    unfold Exact.mul, Exact.of_real. cbn [fst snd].
    assert (0 < / 2 ^ 52) by (apply Rinv_0_lt_compat; lra). nra. }
  assert (Hall : forallb (fun i => cltb (cabs (cimag (vget (np_diagonal rho) i))) tol)
                   (seq 0 (vlen (np_diagonal rho))) = true).
  { apply forallb_forall. intros i Hi. apply in_seq in Hi. rewrite Hlen in Hi.
    rewrite Hdiag by lia. cbn. unfold Exact.ltb, Exact.abs, Exact.imag, Exact.modulus.
    cbn [fst snd]. replace (0 * 0 + 0 * 0) with 0 by ring. rewrite sqrt_0.
    destruct (Rlt_dec 0 (fst tol)); [reflexivity | contradiction]. }
  rewrite Hall. cbv zeta. cbn [vlen vget].
  assert (Hclip : forall i, (i < vlen psi)%nat ->
            (if cltb (creal (vget (np_diagonal rho) i)) c0 then c0
             else creal (vget (np_diagonal rho) i))
            = cmul (cconj (vget psi i)) (vget psi i)).
  { intros i Hi. rewrite Hdiag by lia. cbn.
    unfold Exact.ltb, Exact.real, Exact.mul, Exact.conj, Exact.of_real. cbn [fst snd].
    pose proof (Rle_0_sqr (fst (vget psi i))) as H1.
    pose proof (Rle_0_sqr (snd (vget psi i))) as H2. unfold Rsqr in H1, H2.
    destruct (Rlt_dec _ 0) as [Hneg | _]; [lra | ].
    destruct (Req_dec_T _ 0) as [_ | _];
      [destruct (Rlt_dec 0 0); [lra | ] | ]; f_equal; ring. }
  assert (Htotal : np_sum
            (Vec (vlen (np_diagonal rho))
               (fun i => if cltb (creal (vget (np_diagonal rho) i)) c0 then c0
                         else creal (vget (np_diagonal rho) i)))
            = c1).
  { unfold np_sum. cbn [vlen vget]. rewrite Hlen, <- Hone. unfold norm_squared.
    apply csum_ext. intros i Hi. apply Hclip. exact Hi. }
  rewrite Htotal. split; [exact Hlen | ].
  cbn [vlen vget abs_squared]. intros i Hi. rewrite Hlen in Hi.
  rewrite Hclip by exact Hi. cbn.
  unfold Exact.div, Exact.mul, Exact.inv, Exact.conj, Exact.abs, Exact.modulus,
    Exact.of_real. cbn [fst snd].
  pose proof (Rle_0_sqr (fst (vget psi i))) as H1.
  pose proof (Rle_0_sqr (snd (vget psi i))) as H2. unfold Rsqr in H1, H2.
  set (a := fst (vget psi i)) in *. set (b := snd (vget psi i)) in *.
  assert (Hm : sqrt (a * a + b * b) * sqrt (a * a + b * b) = a * a + b * b)
    by (apply sqrt_sqrt; lra).
  f_equal; [ | field].
  replace (sqrt (a * a + b * b) * sqrt (a * a + b * b) - 0 * 0) with (a * a + b * b)
    by (rewrite Hm; ring).
  field.
Qed.
End ExactSampling.

Section ExactSamplingRun.
Import Inputs Examples.

Lemma engines_sample_the_same_distribution_witness :
  same_pure_state exact_wavefunction exact_density
  /\ norm_squared (ReferenceWavefunctionSimulator.wf exact_wavefunction) = c1
  /\ vec_eq (ReferenceDensitySimulator.probabilities_of
               (ReferenceDensitySimulator.array_at
                  (ReferenceDensitySimulator.heap exact_density)
                  (ReferenceDensitySimulator.density exact_density)) lit_1e8)
            (abs_squared (ReferenceWavefunctionSimulator.wf exact_wavefunction)).
Proof.
  assert (Hone : norm_squared (ReferenceWavefunctionSimulator.wf exact_wavefunction)
                 = c1)
    by (cbn; unfold Exact.add, Exact.mul, Exact.conj, Exact.of_real; cbn [fst snd];
        f_equal; ring).
  split; [exact initial_engines_hold_the_same_state | ]. split; [exact Hone | ].
  apply (engines_sample_the_same_distribution (RT := fixture)
           exact_wavefunction exact_density 100000000
           initial_engines_hold_the_same_state Hone).
  lra.
Defined.
End ExactSamplingRun.

Section NameFlags.
Import QuantumComputer.
Context {C : Type}.

(** X24: [_parse_name] honours the flags it is given, or raises.  When it
    returns [(prefix, qvm_type, noisy)], an [as_qvm] that was given says
    whether [qvm_type] is set, a [noisy] that was given is the noise flag
    returned, and [qvm_type] is [None], ['qvm'] or ['pyqvm'], which
    [_canonicalize_name] accepts: a name with a QVM suffix together with
    [as_qvm=False], or with a noisy suffix and [noisy=False], is never
    resolved silently. *)
Theorem parse_name_honours_flags (name : string) (as_qvm noisy : option bool)
    (prefix : string) (qvm_type : option string) (is_noisy : bool) :
  _parse_name (C := C) name as_qvm noisy = Ok (prefix, qvm_type, is_noisy) ->
  (forall b, as_qvm = Some b -> bool_decide (is_Some qvm_type) = b)
  /\ (forall b, noisy = Some b -> is_noisy = b)
  /\ (forall t, qvm_type = Some t -> is_qvm_type t = true)
  /\ exists canonical,
       _canonicalize_name (C := C) prefix qvm_type is_noisy = Ok canonical.
Proof.
  unfold _parse_name. intros Hparse.
  assert (Hcanon : (forall t, qvm_type = Some t -> is_qvm_type t = true) ->
                   exists canonical,
                     _canonicalize_name (C := C) prefix qvm_type is_noisy = Ok canonical).
  { intros Hq. unfold _canonicalize_name. destruct qvm_type as [t | ].
    - specialize (Hq t eq_refl). apply is_qvm_type_cases in Hq.
      destruct Hq as [-> | ->]; eexists; reflexivity.
    - eexists; reflexivity. }
  destruct ((2 <=? length (split name))
            && String.eqb (List.last (List.removelast (split name)) "") "noisy"
            && is_qvm_type (List.last (split name) "")) eqn:Hnoisy.
  - apply andb_prop in Hnoisy as [_ Hq].
    destruct as_qvm as [[] | ]; destruct noisy as [[] | ]; cbn in Hparse;
      try discriminate Hparse; inversion Hparse; subst;
      (split; [intros b Hb; now inversion Hb | ]);
      (split; [intros b Hb; now inversion Hb | ]);
      assert (Hall : forall t, Some (List.last (split name) ""%string) = Some t ->
                               is_qvm_type t = true)
        by (intros t Ht; inversion Ht; subst; exact Hq);
      (split; [exact Hall | exact (Hcanon Hall)]).
  - destruct ((1 <=? length (split name)) && is_qvm_type (List.last (split name) ""))
      eqn:Hqvm.
    + apply andb_prop in Hqvm as [_ Hq].
      destruct as_qvm as [[] | ]; destruct noisy as [[] | ]; cbn in Hparse;
        try discriminate Hparse; inversion Hparse; subst;
        (split; [intros b Hb; now inversion Hb | ]);
        (split; [intros b Hb; now inversion Hb | ]);
        assert (Hall : forall t, Some (List.last (split name) ""%string) = Some t ->
                                 is_qvm_type t = true)
          by (intros t Ht; inversion Ht; subst; exact Hq);
        (split; [exact Hall | exact (Hcanon Hall)]).
    + destruct as_qvm as [[] | ]; destruct noisy as [[] | ]; cbn in Hparse;
        inversion Hparse; subst;
        (split; [intros b Hb; now inversion Hb | ]);
        (split; [intros b Hb; now inversion Hb | ]);
        (split; [intros t Ht; inversion Ht; subst; reflexivity
                | apply Hcanon; intros t Ht; inversion Ht; subst; reflexivity]).
Qed.
End NameFlags.

Section NameFlagRuns.
Import QuantumComputer.

Lemma parse_name_honours_flags_witness :
  _parse_name (C := F64.complex128) "9q-square-qvm" (Some true) (Some true)
  = Ok ("9q-square"%string, Some "qvm"%string, true)
  /\ is_qvm_type "qvm" = true
  /\ exists canonical,
       _canonicalize_name (C := F64.complex128) "9q-square" (Some "qvm"%string) true
       = Ok canonical.
Proof.
  assert (Hparse : _parse_name (C := F64.complex128) "9q-square-qvm"
                     (Some true) (Some true)
                   = Ok ("9q-square"%string, Some "qvm"%string, true)) by reflexivity.
  split; [exact Hparse | ].
  destruct (parse_name_honours_flags (C := F64.complex128) "9q-square-qvm"
              (Some true) (Some true) "9q-square" (Some "qvm"%string) true Hparse)
    as (_ & _ & Hq & Hcanon).
  split; [exact (Hq "qvm"%string eq_refl) | exact Hcanon].
Defined.
End NameFlagRuns.
